(** * Credential service of ssi-service: issuance and StatusList2021 updates

    A shallow embedding of [pkg/service/credential/service.go], and of the
    handlers of [pkg/server/router/schema.go].  The service
    functions are translated statement by statement.  What they call outside
    that file is either a field of the [Environment] class (the key store, the
    schema service, the signer, the validators of the SDK) or a definition
    modelled from the specification of the service (the storage layer, the
    status-list generator). *)

From stdpp Require Import gmap strings list fin_maps.

Set Default Proof Using "Type".
Set Warnings "-register-all".
Open Scope string_scope.

(** ** Values, errors and results *)

(** Go's [any], as it appears in JSON-shaped request data.  [AEncodedList]
    stands for the compressed, base64-encoded bitstring of a status list: it
    is kept as the set of positions whose bit is set. *)
Inductive Any :=
| ANil
| ABool (b : bool)
| ANum (z : Z)
| AStr (s : string)
| AList (l : list Any)
| AObject (kvs : list (string * Any))
| AEncodedList (bits : gset N).

(** Errors as [github.com/pkg/errors] builds them: [errors.New] and
    [errors.Wrap]; the [sdkutil.Logging...] helpers build the same values and
    log them.  [ErrPanic] records a run-time panic of the Go code. *)
Inductive Error :=
| ErrNew (msg : string)
| ErrWrap (cause : Error) (msg : string)
| ErrPanic (msg : string).

(** [err.Error()] *)
Fixpoint Error_string (e : Error) : string :=
  match e with
  | ErrNew m => m
  | ErrWrap c m => m ++ ": " ++ Error_string c
  | ErrPanic m => "panic: " ++ m
  end.

(** Innermost error of a chain of wraps ([errors.Cause]). *)
Fixpoint Cause (e : Error) : Error :=
  match e with
  | ErrWrap c _ => Cause c
  | _ => e
  end.

(** [strings.Contains s sub], as a proposition. *)
Definition Contains (s sub : string) : Prop :=
  ∃ pre post, s = pre ++ sub ++ post.

Inductive result (A : Type) :=
| Ok (a : A)
| Err (e : Error).
Arguments Ok {A} a.
Arguments Err {A} e.

Definition isErr {A} (r : result A) : bool :=
  match r with Ok _ => false | Err _ => true end.

(** ** Data model *)

Definition StatusRevocation : string := "revocation".
Definition StatusSuspension : string := "suspension".
Definition VerifiableCredentialIDProperty : string := "id".

(** [statussdk.StatusList2021Entry], the [credentialStatus] of a credential.
    The index is a decimal string in Go; it is kept as the number it spells. *)
Record StatusList2021Entry := {
  sle_ID : string;
  sle_Type : string;
  sle_StatusPurpose : string;
  sle_StatusListIndex : N;
  sle_StatusListCredential : string
}.

Record CredentialSchema := {
  cs_ID : string;
  cs_Type : string
}.

(** [credential.VerifiableCredential], with the fields the service touches. *)
Record VerifiableCredential := {
  vc_Context : list string;
  vc_ID : string;
  vc_Issuer : string;
  vc_IssuanceDate : string;
  vc_ExpirationDate : string;
  vc_CredentialStatus : option StatusList2021Entry;
  vc_CredentialSubject : gmap string Any;
  vc_CredentialSchema : option CredentialSchema;
  vc_Evidence : list Any
}.

Definition JWT := string.

(** [credint.Container] *)
Record Container := {
  c_ID : string;
  c_FullyQualifiedVerificationMethodID : string;
  c_Credential : VerifiableCredential;
  c_CredentialJWT : JWT;
  c_Revoked : bool;
  c_Suspended : bool
}.

(** The stored record of a credential (spec, section 3). *)
Record StoredCredential := {
  sc_LocalCredentialID : string;
  sc_Credential : VerifiableCredential;
  sc_CredentialJWT : JWT;
  sc_Issuer : string;
  sc_Subject : string;
  sc_Schema : string;
  sc_FullyQualifiedVerificationMethodID : string;
  sc_Revoked : bool;
  sc_Suspended : bool
}.

(** [CreateCredentialRequest].  [req_Data] is the map of a request that
    carries data; Go's nil map, on which setting the subject id panics, is
    not among its values. *)
Record CreateCredentialRequest := {
  req_Issuer : string;
  req_FullyQualifiedVerificationMethodID : string;
  req_Subject : string;
  req_Context : string;
  req_SchemaID : string;
  req_Data : gmap string Any;
  req_Expiry : string;
  req_Revocable : bool;
  req_Suspendable : bool;
  req_Evidence : list Any
}.

Record UpdateCredentialStatusRequest := {
  upd_ID : string;
  upd_Revoked : bool;
  upd_Suspended : bool
}.

(** [Status], the body of [UpdateCredentialStatusResponse]. *)
Record Status := {
  st_ID : string;
  st_Revoked : bool;
  st_Suspended : bool
}.

(** [keystore.GetKeyDetailsResponse] *)
Record KeyDetails := {
  k_ID : string;
  k_Controller : string;
  k_Revoked : bool;
  k_Key : string
}.

Record WatchKey := {
  wk_Namespace : string;
  wk_Key : string
}.

Record StatusListCredentialMetadata := {
  md_statusListCredentialWatchKey : WatchKey;
  md_statusListIndexPoolWatchKey : WatchKey;
  md_statusListCurrentIndexWatchKey : WatchKey
}.

(** The zero value of a [WatchKey] and of the metadata ([var statusMetadata]). *)
Definition zeroWatchKey : WatchKey := {| wk_Namespace := ""; wk_Key := "" |}.
Definition zeroMetadata : StatusListCredentialMetadata :=
  {| md_statusListCredentialWatchKey := zeroWatchKey;
     md_statusListIndexPoolWatchKey := zeroWatchKey;
     md_statusListCurrentIndexWatchKey := zeroWatchKey |}.

(** ** The persisted namespaces (spec, section 6) *)

Record Store := {
  credentials : gmap string StoredCredential;
  statusListCredentials : gmap string StoredCredential;
  statusListIndexPool : gmap string (gset N);
  statusListCurrentIndex : gmap string N
}.

Definition emptyStore : Store :=
  {| credentials := ∅; statusListCredentials := ∅;
     statusListIndexPool := ∅; statusListCurrentIndex := ∅ |}.

(** What a caller of the service sees: the database and a counter that
    numbers the draws of fresh values (UUIDs, the clock, random indices). *)
Record World := {
  db : Store;
  entropy : nat
}.

(** State of a transaction body: reads that go through [ctx] see the
    database as it was when the transaction started; writes that go through
    [tx] are gathered in [pending]. *)
Record TxState := {
  snapshot : Store;
  pending : Store;
  tick : nat
}.

Definition Body (A : Type) : Type := TxState → result A * TxState.
Definition Op (A : Type) : Type := World → result A * World.

Global Instance Body_ret : MRet Body := λ A a t, (Ok a, t).
Global Instance Body_bind : MBind Body := λ A B f m t,
  match m t with
  | (Ok a, t') => f a t'
  | (Err e, t') => (Err e, t')
  end.

(** A caller that runs one operation after another and stops at the first
    error. *)
Global Instance Op_ret : MRet Op := λ A a w, (Ok a, w).
Global Instance Op_bind : MBind Op := λ A B f m w,
  match m w with
  | (Ok a, w') => f a w'
  | (Err e, w') => (Err e, w')
  end.

Definition fail {A} (e : Error) : Body A := λ t, (Err e, t).

(** A fallible step that touches no state. *)
Definition lift {A} (r : result A) : Body A := λ t, (r, t).

(** [errors.Wrap(err, msg)] on the error of a step. *)
Definition wrap {A} (msg : string) (m : Body A) : Body A := λ t,
  match m t with
  | (Ok a, t') => (Ok a, t')
  | (Err e, t') => (Err (ErrWrap e msg), t')
  end.

Definition check (o : option Error) : Body unit := λ t,
  match o with
  | None => (Ok tt, t)
  | Some e => (Err e, t)
  end.

Definition readSnapshot : Body Store := λ t, (Ok (snapshot t), t).
Definition readPending : Body Store := λ t, (Ok (pending t), t).
Definition writePending (f : Store → Store) : Body unit := λ t,
  (Ok tt, {| snapshot := snapshot t; pending := f (pending t); tick := tick t |}).
Definition draw : Body nat := λ t,
  (Ok (tick t), {| snapshot := snapshot t; pending := pending t; tick := S (tick t) |}).

(** ** Collaborators

    What the service calls and [service.go] does not define: the [fmt]
    verbs, the configuration, the struct validator, the SDK's credential
    builder and JSON-schema check, the schema service, the key store, the
    signer, and the sources of fresh values. *)

(** The calls of the SDK's [VerifiableCredentialBuilder] that can refuse
    their argument. *)
Inductive BuilderStep :=
| StepSetID (id : string)
| StepSetIssuer (issuer : string)
| StepSetCredentialSubject (subject : gmap string Any)
| StepAddContext (context : string)
| StepSetCredentialSchema (schema : CredentialSchema)
| StepSetExpirationDate (expiry : string)
| StepSetIssuanceDate (date : string)
| StepSetCredentialStatus (entry : StatusList2021Entry)
| StepSetEvidence (evidence : list Any)
| StepBuild (cred : VerifiableCredential).

Record KeyAccess := {
  ka_ID : string;
  ka_KID : string;
  ka_Key : string
}.

Class Environment := {
  (** [fmt]'s [%s] on an [any], and [%q] on a string *)
  fmtS : Any → string;
  fmtQ : string → string;
  (** [fmt]'s [%+v] on a credential subject *)
  fmtV : gmap string Any → string;
  (** [config.GetServicePath(framework.Credential)] *)
  servicePath : string;
  (** [CreateCredentialRequest.IsValid], the struct validator *)
  requestIsValid : CreateCredentialRequest → option Error;
  (** [StoredCredential.IsValid] *)
  storedIsValid : StoredCredential → bool;
  (** the builder's own validation of each call *)
  builderCheck : BuilderStep → option Error;
  (** [schema.Service.Resolve]: the schema document and its type *)
  schemaResolve : string → result (Any * string);
  (** [schemalib.IsCredentialValidForJSONSchema] *)
  isCredentialValidForJSONSchema : VerifiableCredential → Any → option Error;
  (** [credint.CopyCredential] returns a deep copy or fails to marshal *)
  copyCheck : VerifiableCredential → option Error;
  (** [keystore.Service.GetKey] *)
  getKey : string → result KeyDetails;
  (** [did.FullyQualifiedVerificationMethodID] *)
  fullyQualifiedVerificationMethodID : string → string → string;
  (** [keyaccess.NewJWKKeyAccess] and [SignVerifiableCredential] *)
  newJWKKeyAccess : string → string → string → result KeyAccess;
  signVerifiableCredential : KeyAccess → VerifiableCredential → result JWT;
  (** [uuid.NewString], [time.Now().Format(time.RFC3339)] and the random
      index, each as a function of the number of the draw *)
  uuidOf : nat → string;
  timeOf : nat → string;
  randomIndexOf : nat → N
}.

Section Service.
Context `{Environment}.

(** ** Storage layer *)

(** Modelled from the spec: [Storage.GetCredential], whose source file is not
    available.  The namespace [credential / <uuid>] holds the stored record of
    a credential under its local id (sections 3 and 6); an unknown id is
    reported as [credential not found with id: ...]. *)
Definition storage_GetCredential (s : Store) (id : string) : result StoredCredential :=
  match credentials s !! id with
  | Some c => Ok c
  | None => Err (ErrNew ("credential not found with id: " ++ id))
  end.

(** Modelled from the spec: the subject DID and the schema id by which a
    stored record is indexed (section 3) are the [id] property of the subject
    and the id of the [credentialSchema], empty when there is none. *)
Definition subjectID (cred : VerifiableCredential) : string :=
  match vc_CredentialSubject cred !! VerifiableCredentialIDProperty with
  | Some (AStr s) => s
  | _ => ""
  end.

Definition schemaID (cred : VerifiableCredential) : string :=
  match vc_CredentialSchema cred with
  | Some cs => cs_ID cs
  | None => ""
  end.

(** Modelled from the spec: [buildStoredCredential], whose source file is not
    available.  The stored record carries the container's local id,
    verification method, VC document, JWT and flags, and the issuer, subject
    and schema id by which the secondary indices are derived (section 3). *)
Definition buildStoredCredential (c : Container) : StoredCredential :=
  {| sc_LocalCredentialID := c_ID c;
     sc_Credential := c_Credential c;
     sc_CredentialJWT := c_CredentialJWT c;
     sc_Issuer := vc_Issuer (c_Credential c);
     sc_Subject := subjectID (c_Credential c);
     sc_Schema := schemaID (c_Credential c);
     sc_FullyQualifiedVerificationMethodID := c_FullyQualifiedVerificationMethodID c;
     sc_Revoked := c_Revoked c;
     sc_Suspended := c_Suspended c |}.

Definition putCredential (c : Container) (s : Store) : Store :=
  {| credentials := <[c_ID c := buildStoredCredential c]> (credentials s);
     statusListCredentials := statusListCredentials s;
     statusListIndexPool := statusListIndexPool s;
     statusListCurrentIndex := statusListCurrentIndex s |}.

(** Modelled from the spec: [Storage.StoreCredentialTx], whose source file is
    not available.  It persists the record under its local id, through the
    transaction. *)
Definition StoreCredentialTx (c : Container) : Body unit :=
  writePending (putCredential c).

(** Modelled from the spec: [Storage.GetCredentialsByIssuerAndSchema], whose
    source file is not available.  It returns all stored credentials sharing
    the issuer and the schema (section 4.4, step 4). *)
Definition GetCredentialsByIssuerAndSchema (s : Store) (issuer schema : string)
  : list StoredCredential :=
  filter (λ c, sc_Issuer c = issuer ∧ sc_Schema c = schema)
         (map_to_list (credentials s)).*2.

(** Modelled from the spec: the storage key of a status triple, and the watch
    keys built on it by [Storage.GetStatusList...WatchKey], whose source file
    is not available.  The key is the three components joined with fixed
    separators and labels; each of the three namespaces of a triple has its
    watch key (section 6). *)
Definition statusListKey (issuer schema purpose : string) : string :=
  "is/" ++ issuer ++ "/sc/" ++ schema ++ "/sp/" ++ purpose.

Definition GetStatusListCredentialWatchKey (issuer schema purpose : string) : WatchKey :=
  {| wk_Namespace := "status-list-credential";
     wk_Key := statusListKey issuer schema purpose |}.
Definition GetStatusListIndexPoolWatchKey (issuer schema purpose : string) : WatchKey :=
  {| wk_Namespace := "status-list-index-pool";
     wk_Key := statusListKey issuer schema purpose |}.
Definition GetStatusListCurrentIndexWatchKey (issuer schema purpose : string) : WatchKey :=
  {| wk_Namespace := "status-list-current-index";
     wk_Key := statusListKey issuer schema purpose |}.

(** Modelled from the spec: [Storage.GetStatusListCredentialKeyData], whose
    source file is not available.  The status credential of a triple is stored
    under the key of the triple; there is none until the triple is first
    used. *)
Definition GetStatusListCredentialKeyData (s : Store) (issuer schema purpose : string)
  : option StoredCredential :=
  statusListCredentials s !! statusListKey issuer schema purpose.

Definition putStatusListCredential (key : string) (c : Container) (s : Store) : Store :=
  {| credentials := credentials s;
     statusListCredentials := <[key := buildStoredCredential c]> (statusListCredentials s);
     statusListIndexPool := statusListIndexPool s;
     statusListCurrentIndex := statusListCurrentIndex s |}.

(** Modelled from the spec: [Storage.StoreStatusListCredentialTx], whose
    source file is not available.  It replaces the status credential stored
    for the triple whose watch key the metadata carries. *)
Definition StoreStatusListCredentialTx (c : Container)
    (slcMetadata : StatusListCredentialMetadata) : Body unit :=
  writePending (putStatusListCredential (wk_Key (md_statusListCredentialWatchKey slcMetadata)) c).

(** Modelled from the spec: [Storage.GetStatusListCredential], whose source
    file is not available.  It finds the stored status credential that has the
    given local id. *)
Definition GetStatusListCredential (s : Store) (id : string) : result StoredCredential :=
  match list_find (λ c, sc_LocalCredentialID c = id)
                  (map_to_list (statusListCredentials s)).*2 with
  | Some (_, c) => Ok c
  | None => Err (ErrNew ("status list credential not found with id: " ++ id))
  end.

(** ** The status-list generator of the SDK *)

(** Modelled from the spec: [statussdk.GenerateStatusList2021Credential], a
    function of the SDK.  A credential whose status entry has another purpose
    than the list is refused with [different status purpose] (section 4.4,
    step 3, and the rejection matrix of section 8); otherwise the list has the
    bit of every given credential set, and no other (section 3). *)
Fixpoint prepareCredentialsForStatusList (purpose : string)
    (creds : list VerifiableCredential) : result (list N) :=
  match creds with
  | [] => Ok []
  | cred :: rest =>
    match vc_CredentialStatus cred with
    | None => Err (ErrNew "could not get credential status entry")
    | Some entry =>
      if bool_decide (sle_StatusPurpose entry = purpose) then
        match prepareCredentialsForStatusList purpose rest with
        | Ok indices => Ok (sle_StatusListIndex entry :: indices)
        | Err e => Err e
        end
      else
        Err (ErrNew ("credential<" ++ vc_ID cred ++ "> has a different status purpose<"
                     ++ sle_StatusPurpose entry ++ "> value than the status credential<"
                     ++ purpose ++ ">"))
    end
  end.

Definition statusListSubject (id purpose : string) (indices : list N) : gmap string Any :=
  <["id" := AStr id]>
  (<["type" := AStr "StatusList2021"]>
  (<["statusPurpose" := AStr purpose]>
  (<["encodedList" := AEncodedList (list_to_set indices)]> ∅))).

Definition GenerateStatusList2021Credential (id issuer purpose issuanceDate : string)
    (issuedCredentials : list VerifiableCredential) : result VerifiableCredential :=
  match prepareCredentialsForStatusList purpose issuedCredentials with
  | Err e => Err (ErrWrap e "could not generate status list credential")
  | Ok indices =>
    Ok {| vc_Context := ["https://www.w3.org/2018/credentials/v1";
                         "https://w3id.org/vc/status-list/2021/v1"];
          vc_ID := id;
          vc_Issuer := issuer;
          vc_IssuanceDate := issuanceDate;
          vc_ExpirationDate := "";
          vc_CredentialStatus := None;
          vc_CredentialSubject := statusListSubject id purpose indices;
          vc_CredentialSchema := None;
          vc_Evidence := [] |}
  end.

(** The decoded bitstring of a status list credential. *)
Definition encodedBits (cred : VerifiableCredential) : gset N :=
  match vc_CredentialSubject cred !! "encodedList" with
  | Some (AEncodedList bits) => bits
  | _ => ∅
  end.

(** ** Request predicates *)

(** Modelled from the spec: the methods [hasStatus], [isStatusValid],
    [hasEvidence] and [validateEvidence] of [CreateCredentialRequest], whose
    source file is not available.  A request has a status when it is revocable
    or suspendable, and the status is valid unless it is both; evidence
    elements are objects with [id] and [type] (section 4.2). *)
Definition hasStatus (request : CreateCredentialRequest) : bool :=
  req_Suspendable request || req_Revocable request.

Definition isStatusValid (request : CreateCredentialRequest) : bool :=
  negb (req_Revocable request && req_Suspendable request).

Definition hasEvidence (request : CreateCredentialRequest) : bool :=
  negb (bool_decide (length (req_Evidence request) = 0)).

Definition hasKey (k : string) (kvs : list (string * Any)) : bool :=
  bool_decide (k ∈ kvs.*1).

Fixpoint validateEvidence (evidence : list Any) : option Error :=
  match evidence with
  | [] => None
  | AObject kvs :: rest =>
    if hasKey "id" kvs && hasKey "type" kvs then validateEvidence rest
    else Some (ErrNew "missing required 'id' or 'type'")
  | _ :: _ => Some (ErrNew "invalid evidence format")
  end.

(** Modelled from the spec: the methods [HasCredentialStatus] and
    [GetStatusPurpose] of [StoredCredential], whose source file is not
    available.  They read the [credentialStatus] of the VC document and its
    [statusPurpose] (section 6). *)
Definition HasCredentialStatus (c : StoredCredential) : bool :=
  match vc_CredentialStatus (sc_Credential c) with Some _ => true | None => false end.

Definition GetStatusPurpose (c : StoredCredential) : string :=
  match vc_CredentialStatus (sc_Credential c) with
  | Some entry => sle_StatusPurpose entry
  | None => ""
  end.

(** ** Signing *)

(** [signCredentialJWT] signs a credential and returns it as a vc-jwt. *)
Definition signCredentialJWT (verificationMethodID : string)
    (cred : VerifiableCredential) : result JWT :=
  let keyStoreID := fullyQualifiedVerificationMethodID (vc_Issuer cred) verificationMethodID in
  match getKey keyStoreID with
  | Err e => Err (ErrWrap e ("getting key for signing credential<" ++ verificationMethodID ++ ">"))
  | Ok gotKey =>
    if negb (bool_decide (k_Controller gotKey = vc_Issuer cred)) then
      Err (ErrNew ("key controller<" ++ k_Controller gotKey
                   ++ "> does not match credential issuer<" ++ vc_Issuer cred
                   ++ "> for key<" ++ verificationMethodID ++ ">"))
    else if k_Revoked gotKey then
      Err (ErrNew ("cannot use revoked key<" ++ k_ID gotKey ++ ">"))
    else
      match newJWKKeyAccess verificationMethodID (k_ID gotKey) (k_Key gotKey) with
      | Err e => Err (ErrWrap e ("creating key access for signing credential with key<"
                                 ++ k_ID gotKey ++ ">"))
      | Ok keyAccess =>
        match signVerifiableCredential keyAccess cred with
        | Err e => Err (ErrWrap e ("could not sign credential with key<" ++ k_ID gotKey ++ ">"))
        | Ok credToken => Ok credToken
        end
      end
  end.

(** ** Allocation of a status entry *)

(** Modelled from the spec: the writes to the index pool and to the cursor of
    a triple, whose storage functions are not available.  The pool is the set
    of indices already assigned, the cursor a hint that advances (section 3). *)
Definition putIndexPool (key : string) (pool : gset N) (s : Store) : Store :=
  {| credentials := credentials s;
     statusListCredentials := statusListCredentials s;
     statusListIndexPool := <[key := pool]> (statusListIndexPool s);
     statusListCurrentIndex := statusListCurrentIndex s |}.

Definition putCurrentIndex (key : string) (cursor : N) (s : Store) : Store :=
  {| credentials := credentials s;
     statusListCredentials := statusListCredentials s;
     statusListIndexPool := statusListIndexPool s;
     statusListCurrentIndex := <[key := cursor]> (statusListCurrentIndex s) |}.

(** Modelled from the spec: the random draw of section 4.3, step 2.  A
    candidate in [0, 2^17) is drawn and redrawn while it is in the pool;
    [fuel] bounds the number of redraws. *)
Fixpoint drawFreeIndex (fuel : nat) (pool : gset N) : Body N :=
  match fuel with
  | O => fail (ErrNew "no available index in status list")
  | S fuel' =>
    n ← draw;
    let candidate := (randomIndexOf n `mod` 2 ^ 17)%N in
    if bool_decide (candidate ∈ pool) then drawFreeIndex fuel' pool
    else mret candidate
  end.

Definition maxRedraws : nat := 64.

(** Modelled from the spec: [createStatusListEntryForCredential], whose
    source file is not available.  Section 4.3: when the triple has no status
    credential yet, a fresh one over the empty bitstring is generated, signed
    with the issuer's key and stored together with an empty pool and a fresh
    cursor; then an index absent from the pool is drawn and inserted, the
    cursor advances, and the entry for the caller is returned. *)
Definition createStatusListEntryForCredential (credID : string)
    (request : CreateCredentialRequest)
    (statusMetadata : StatusListCredentialMetadata) : Body StatusList2021Entry :=
  let statusPurpose :=
    if req_Suspendable request then StatusSuspension else StatusRevocation in
  let poolKey := wk_Key (md_statusListIndexPoolWatchKey statusMetadata) in
  let cursorKey := wk_Key (md_statusListCurrentIndexWatchKey statusMetadata) in
  view ← readPending;
  statusListCredentialURI ←
    match GetStatusListCredentialKeyData view (req_Issuer request)
                                         (req_SchemaID request) statusPurpose with
    | Some slc => mret (vc_ID (sc_Credential slc))
    | None =>
      n ← draw;
      let statusListID := uuidOf n in
      let uri := servicePath ++ "/status/" ++ statusListID in
      d ← draw;
      generated ← wrap "could not generate status list"
        (lift (GenerateStatusList2021Credential uri (req_Issuer request) statusPurpose
                                                (timeOf d) []));
      statusListCredJWT ← wrap "could not sign status list credential"
        (lift (signCredentialJWT (req_FullyQualifiedVerificationMethodID request) generated));
      StoreStatusListCredentialTx
        {| c_ID := statusListID;
           c_FullyQualifiedVerificationMethodID := req_FullyQualifiedVerificationMethodID request;
           c_Credential := generated;
           c_CredentialJWT := statusListCredJWT;
           c_Revoked := false;
           c_Suspended := false |} statusMetadata;;
      writePending (putIndexPool poolKey ∅);;
      writePending (putCurrentIndex cursorKey 0%N);;
      mret uri
    end;
  view ← readPending;
  let pool := default ∅ (statusListIndexPool view !! poolKey) in
  let cursor := default 0%N (statusListCurrentIndex view !! cursorKey) in
  index ← drawFreeIndex maxRedraws pool;
  writePending (putIndexPool poolKey ({[index]} ∪ pool));;
  writePending (putCurrentIndex cursorKey (cursor + 1)%N);;
  mret {| sle_ID := credID ++ "/status";
          sle_Type := "StatusList2021Entry";
          sle_StatusPurpose := statusPurpose;
          sle_StatusListIndex := index;
          sle_StatusListCredential := statusListCredentialURI |}.

(** ** The transaction primitive *)

(** Modelled from the spec: [Execute] of the storage layer, whose source file
    is not available.  Section 4.1: the body reads and writes through the
    transaction; when it fails the write set is discarded, when it succeeds
    the write set is committed.  With one caller no watched key changes under
    the body, so no retry happens and the watch keys do not influence the
    outcome. *)
Definition Execute {A} (fn : Body A) (watchKeys : list WatchKey) : Op A := λ w,
  match fn {| snapshot := db w; pending := db w; tick := entropy w |} with
  | (Ok a, t) => (Ok a, {| db := pending t; entropy := tick t |})
  | (Err e, t) => (Err e, {| db := db w; entropy := tick t |})
  end.

(** The service is written against whatever [db.Execute] the storage gives
    it. *)
Variable exec : ∀ A, Body A → list WatchKey → Op A.

(** ** CreateCredential *)

Definition newBuilder : VerifiableCredential :=
  {| vc_Context := ["https://www.w3.org/2018/credentials/v1"];
     vc_ID := ""; vc_Issuer := ""; vc_IssuanceDate := ""; vc_ExpirationDate := "";
     vc_CredentialStatus := None; vc_CredentialSubject := ∅;
     vc_CredentialSchema := None; vc_Evidence := [] |}.

(** A call on the builder: the SDK validates the argument, then the field is
    set; an error is wrapped with the message of the call site. *)
Definition builderStep (step : BuilderStep) (msg : string) : Body unit :=
  wrap msg (check (builderCheck step)).

Definition statusWatchKeys (request : CreateCredentialRequest)
  : list WatchKey * StatusListCredentialMetadata :=
  if hasStatus request && isStatusValid request then
    let statusPurpose :=
      if req_Suspendable request then StatusSuspension else StatusRevocation in
    let k1 := GetStatusListCredentialWatchKey (req_Issuer request) (req_SchemaID request) statusPurpose in
    let k2 := GetStatusListIndexPoolWatchKey (req_Issuer request) (req_SchemaID request) statusPurpose in
    let k3 := GetStatusListCurrentIndexWatchKey (req_Issuer request) (req_SchemaID request) statusPurpose in
    ([k1; k2; k3],
     {| md_statusListCredentialWatchKey := k1;
        md_statusListIndexPoolWatchKey := k2;
        md_statusListCurrentIndexWatchKey := k3 |})
  else ([], zeroMetadata).

(** [id == subject] for an [any] and a string: equal only when the dynamic
    type is string and the strings are equal. *)
Definition anyIsString (id : Any) (subject : string) : bool :=
  match id with
  | AStr s => bool_decide (s = subject)
  | _ => false
  end.

Definition createCredential (request : CreateCredentialRequest)
    (statusMetadata : StatusListCredentialMetadata) : Body Container :=
  if negb (isStatusValid request) then
    fail (ErrNew "credential may have at most one status")
  else
  n ← draw;
  let credentialID := uuidOf n in
  let credentialURI := servicePath ++ "/" ++ credentialID in
  builderStep (StepSetID credentialURI)
    ("could not build credential when setting id: " ++ credentialURI);;
  builderStep (StepSetIssuer (req_Issuer request))
    ("could not build credential when setting issuer: " ++ req_Issuer request);;
  (* check if there's a conflict with subject ID *)
  match req_Data request !! VerifiableCredentialIDProperty with
  | Some id =>
    if anyIsString id (req_Subject request) then mret tt
    else fail (ErrNew ("cannot set subject<" ++ req_Subject request
                       ++ ">, data already contains a different ID value: " ++ fmtS id))
  | None => mret tt
  end;;
  (* set subject value *)
  let subject := <[VerifiableCredentialIDProperty := AStr (req_Subject request)]> (req_Data request) in
  builderStep (StepSetCredentialSubject subject) ("could not set subject: " ++ fmtV subject);;
  (* if a context value exists, set it *)
  context ←
    (if bool_decide (req_Context request = "") then mret (vc_Context newBuilder)
     else
       builderStep (StepAddContext (req_Context request))
         ("could not add context to credential: " ++ req_Context request);;
       mret (vc_Context newBuilder ++ [req_Context request])%list);
  (* if a schema value exists, verify we can access it, then set it *)
  schema ←
    (if bool_decide (req_SchemaID request = "") then mret None
     else
       '(gotSchema, schemaType) ← wrap
         ("failed to create credential; could not get schema: " ++ req_SchemaID request)
         (lift (schemaResolve (req_SchemaID request)));
       let credSchema := {| cs_ID := req_SchemaID request; cs_Type := schemaType |} in
       builderStep (StepSetCredentialSchema credSchema)
         ("could not set JSON Schema for credential: " ++ req_SchemaID request);;
       mret (Some (gotSchema, credSchema)));
  (* if an expiry value exists, set it *)
  (if bool_decide (req_Expiry request = "") then mret tt
   else builderStep (StepSetExpirationDate (req_Expiry request))
          ("could not set expiry for credential: " ++ req_Expiry request));;
  d ← draw;
  let issuanceDate := timeOf d in
  builderStep (StepSetIssuanceDate issuanceDate) "could not set credential issuance date";;
  status ←
    (if hasStatus request then
       statusEntry ← wrap "could not create status list entry for credential"
         (createStatusListEntryForCredential credentialURI request statusMetadata);
       builderStep (StepSetCredentialStatus statusEntry) "could not set credential status";;
       mret (Some statusEntry)
     else mret None);
  evidence ←
    (if hasEvidence request then
       wrap "validating evidence" (check (validateEvidence (req_Evidence request)));;
       builderStep (StepSetEvidence (req_Evidence request)) "could not set evidence";;
       mret (req_Evidence request)
     else mret []);
  let cred :=
    {| vc_Context := context;
       vc_ID := credentialURI;
       vc_Issuer := req_Issuer request;
       vc_IssuanceDate := issuanceDate;
       vc_ExpirationDate := req_Expiry request;
       vc_CredentialStatus := status;
       vc_CredentialSubject := subject;
       vc_CredentialSchema := snd <$> schema;
       vc_Evidence := evidence |} in
  builderStep (StepBuild cred) "could not build credential";;
  (* verify the built schema complies with the schema we've set *)
  match schema with
  | Some (knownSchema, _) =>
    wrap ("credential data does not comply with the provided schema: " ++ req_SchemaID request)
         (check (isCredentialValidForJSONSchema cred knownSchema))
  | None => mret tt
  end;;
  wrap "could not copy credential" (check (copyCheck cred));;
  let credCopy := cred in
  credJWT ← wrap "signing credential"
    (lift (signCredentialJWT (req_FullyQualifiedVerificationMethodID request) credCopy));
  let container :=
    {| c_ID := credentialID;
       c_FullyQualifiedVerificationMethodID := req_FullyQualifiedVerificationMethodID request;
       c_Credential := cred;
       c_CredentialJWT := credJWT;
       c_Revoked := false;
       c_Suspended := false |} in
  wrap "saving credential" (StoreCredentialTx container);;
  mret container.

Definition createCredentialFunc (request : CreateCredentialRequest)
    (slcMetadata : StatusListCredentialMetadata) : Body Container :=
  createCredential request slcMetadata.

(** Run a transaction and wrap its error as the callers of [Execute] do. *)
Definition executeWrapped {A} (fn : Body A) (watchKeys : list WatchKey) : Op A := λ w,
  match exec A fn watchKeys w with
  | (Ok a, w') => (Ok a, w')
  | (Err e, w') => (Err (ErrWrap e "execute"), w')
  end.

Definition CreateCredential (request : CreateCredentialRequest) : Op Container := λ w,
  match requestIsValid request with
  | Some e => (Err (ErrWrap e "validating request"), w)
  | None =>
    let '(watchKeys, statusMetadata) := statusWatchKeys request in
    executeWrapped (createCredentialFunc request statusMetadata) watchKeys w
  end.

(** ** Reading credentials *)

Definition GetCredential (id : string) : Op Container := λ w,
  match storage_GetCredential (db w) id with
  | Err e => (Err (ErrWrap e ("could not get credential: " ++ id)), w)
  | Ok gotCred =>
    if negb (storedIsValid gotCred) then
      (Err (ErrNew ("credential returned is not valid: " ++ id)), w)
    else
      (Ok {| c_ID := sc_LocalCredentialID gotCred;
             c_FullyQualifiedVerificationMethodID := "";
             c_Credential := sc_Credential gotCred;
             c_CredentialJWT := sc_CredentialJWT gotCred;
             c_Revoked := sc_Revoked gotCred;
             c_Suspended := sc_Suspended gotCred |}, w)
  end.

Definition GetCredentialStatus (id : string) : Op Status := λ w,
  match storage_GetCredential (db w) id with
  | Err e => (Err (ErrWrap e ("could not get credential: " ++ id)), w)
  | Ok gotCred =>
    if negb (storedIsValid gotCred) then
      (Err (ErrNew ("credential returned is not valid: " ++ id)), w)
    else
      (Ok {| st_ID := ""; st_Revoked := sc_Revoked gotCred;
             st_Suspended := sc_Suspended gotCred |}, w)
  end.

Definition GetCredentialStatusList (id : string) : Op Container := λ w,
  match GetStatusListCredential (db w) id with
  | Err e => (Err (ErrWrap e ("could not get credential: " ++ id)), w)
  | Ok gotCred =>
    if negb (storedIsValid gotCred) then
      (Err (ErrNew ("credential returned is not valid: " ++ id)), w)
    else
      (Ok {| c_ID := sc_LocalCredentialID gotCred;
             c_FullyQualifiedVerificationMethodID := "";
             c_Credential := sc_Credential gotCred;
             c_CredentialJWT := sc_CredentialJWT gotCred;
             c_Revoked := false;   (* Credential Status List cannot be revoked *)
             c_Suspended := false  (* Credential Status List cannot be suspended *) |}, w)
  end.

(** ** UpdateCredentialStatus *)

Definition uuidStandardFormLen : nat := 36.

Definition parseIDFromURI (uri : string) : result string :=
  if bool_decide (String.length uri < uuidStandardFormLen) then
    Err (ErrNew ("cannot infer status list credential id from " ++ fmtQ uri))
  else
    Ok (String.substring (String.length uri - uuidStandardFormLen) uuidStandardFormLen uri).

(** The loop of [updateCredentialStatus] over the credentials of the issuer
    and schema, appending to [revokedOrSuspendedStatusCreds]. *)
Fixpoint statusCredsLoop (request : UpdateCredentialStatusRequest)
    (gotCred : StoredCredential) (creds : list StoredCredential)
    (acc : list VerifiableCredential) : list VerifiableCredential :=
  match creds with
  | [] => acc
  | cred :: rest =>
    if bool_decide (vc_ID (sc_Credential cred) = vc_ID (sc_Credential gotCred)) then
      statusCredsLoop request gotCred rest acc
    else if upd_Revoked request && HasCredentialStatus cred && sc_Revoked cred then
      statusCredsLoop request gotCred rest (acc ++ [sc_Credential cred])%list
    else if upd_Suspended request && HasCredentialStatus cred && sc_Suspended cred then
      statusCredsLoop request gotCred rest (acc ++ [sc_Credential cred])%list
    else
      statusCredsLoop request gotCred rest acc
  end.

(** The credentials handed to the status-list generator. *)
Definition revokedOrSuspendedStatusCreds (request : UpdateCredentialStatusRequest)
    (gotCred : StoredCredential) (creds : list StoredCredential)
  : list VerifiableCredential :=
  let collected := statusCredsLoop request gotCred creds [] in
  (* add current one since it has not been saved yet *)
  if upd_Revoked request || upd_Suspended request then
    (collected ++ [sc_Credential gotCred])%list
  else collected.

Definition withCredentialSchema (cred : VerifiableCredential)
    (schema : option CredentialSchema) : VerifiableCredential :=
  {| vc_Context := vc_Context cred; vc_ID := vc_ID cred; vc_Issuer := vc_Issuer cred;
     vc_IssuanceDate := vc_IssuanceDate cred; vc_ExpirationDate := vc_ExpirationDate cred;
     vc_CredentialStatus := vc_CredentialStatus cred;
     vc_CredentialSubject := vc_CredentialSubject cred;
     vc_CredentialSchema := schema; vc_Evidence := vc_Evidence cred |}.

Definition updateCredentialStatus (gotCred : StoredCredential)
    (request : UpdateCredentialStatusRequest)
    (slcMetadata : StatusListCredentialMetadata) : Body Container :=
  (* store the credential with updated status *)
  let container :=
    {| c_ID := sc_LocalCredentialID gotCred;
       c_FullyQualifiedVerificationMethodID := sc_FullyQualifiedVerificationMethodID gotCred;
       c_Credential := sc_Credential gotCred;
       c_CredentialJWT := sc_CredentialJWT gotCred;
       c_Revoked := upd_Revoked request;
       c_Suspended := upd_Suspended request |} in
  wrap "could not store credential" (StoreCredentialTx container);;
  match vc_CredentialStatus (sc_Credential gotCred) with
  | None => fail (ErrPanic "interface conversion: interface {} is nil")
  | Some entry =>
    let statusListCredentialURI := sle_StatusListCredential entry in
    if bool_decide (String.length statusListCredentialURI = 0) then
      fail (ErrNew "problem with getting status list credential id")
    else
    statusListCredentialID ← lift (parseIDFromURI statusListCredentialURI);
    view ← readSnapshot;
    let creds := GetCredentialsByIssuerAndSchema view (sc_Issuer gotCred) (sc_Schema gotCred) in
    let statusCreds := revokedOrSuspendedStatusCreds request gotCred creds in
    let statusPurpose :=
      if upd_Suspended request then StatusSuspension else StatusRevocation in
    d ← draw;
    generated ← wrap "could not generate status list"
      (lift (GenerateStatusList2021Credential statusListCredentialURI (sc_Issuer gotCred)
                                              statusPurpose (timeOf d) statusCreds));
    let generatedStatusListCredential :=
      withCredentialSchema generated (vc_CredentialSchema (sc_Credential gotCred)) in
    statusListCredJWT ← wrap "could not sign status list credential"
      (lift (signCredentialJWT (sc_FullyQualifiedVerificationMethodID gotCred)
                               generatedStatusListCredential));
    (* store the status list credential *)
    let statusListContainer :=
      {| c_ID := statusListCredentialID;
         c_FullyQualifiedVerificationMethodID := sc_FullyQualifiedVerificationMethodID gotCred;
         c_Credential := generatedStatusListCredential;
         c_CredentialJWT := statusListCredJWT;
         c_Revoked := false;
         c_Suspended := false |} in
    wrap "could not store credential status list"
      (StoreStatusListCredentialTx statusListContainer slcMetadata);;
    mret container
  end.

Definition updateCredentialStatusBusinessLogic (request : UpdateCredentialStatusRequest)
    (slcMetadata : StatusListCredentialMetadata) : Body Status :=
  if upd_Suspended request && upd_Revoked request then
    fail (ErrNew "cannot update both suspended and revoked status")
  else
  view ← readSnapshot;
  gotCred ← wrap ("could not get credential: " ++ upd_ID request)
    (lift (storage_GetCredential view (upd_ID request)));
  if negb (storedIsValid gotCred) then
    fail (ErrNew ("credential returned is not valid: " ++ upd_ID request))
  else
  (* if the request is the same as what the current credential is there is no action *)
  if bool_decide (sc_Revoked gotCred = upd_Revoked request)
     && bool_decide (sc_Suspended gotCred = upd_Suspended request) then
    mret {| st_ID := ""; st_Revoked := sc_Revoked gotCred;
            st_Suspended := sc_Suspended gotCred |}
  else
  container ← wrap "updating credential" (updateCredentialStatus gotCred request slcMetadata);
  mret {| st_ID := ""; st_Revoked := c_Revoked container;
          st_Suspended := c_Suspended container |}.

Definition updateCredentialStatusFunc (request : UpdateCredentialStatusRequest)
    (slcMetadata : StatusListCredentialMetadata) : Body Status :=
  updateCredentialStatusBusinessLogic request slcMetadata.

(** The watch key is returned through a pointer: [errors.Wrap] of a nil error
    is nil, so a triple without status credential yields a nil pointer and no
    error. *)
Definition statusListCredentialWatchKey (s : Store) (id : string) : result (option WatchKey) :=
  match storage_GetCredential s id with
  | Err e => Err (ErrWrap e "reading credential")
  | Ok gotCred =>
    if negb (HasCredentialStatus gotCred) then
      Err (ErrNew ("credential " ++ fmtQ (sc_LocalCredentialID gotCred)
                   ++ " has no credentialStatus field"))
    else
      let statusPurpose := GetStatusPurpose gotCred in
      if bool_decide (String.length statusPurpose = 0) then
        Err (ErrNew "status purpose could not be derived from credential status")
      else
        match GetStatusListCredentialKeyData s (sc_Issuer gotCred) (sc_Schema gotCred)
                                             statusPurpose with
        | None => Ok None
        | Some _ =>
          Ok (Some (GetStatusListCredentialWatchKey (sc_Issuer gotCred) (sc_Schema gotCred)
                                                    statusPurpose))
        end
  end.

Definition metadataOf (k : WatchKey) : StatusListCredentialMetadata :=
  {| md_statusListCredentialWatchKey := k;
     md_statusListIndexPoolWatchKey := zeroWatchKey;
     md_statusListCurrentIndexWatchKey := zeroWatchKey |}.

Definition UpdateCredentialStatus (request : UpdateCredentialStatusRequest) : Op Status := λ w,
  match statusListCredentialWatchKey (db w) (upd_ID request) with
  | Err e => (Err e, w)
  | Ok None => (Err (ErrPanic "invalid memory address or nil pointer dereference"), w)
  | Ok (Some statusListCredentialWatchKey) =>
    let slcMetadata := metadataOf statusListCredentialWatchKey in
    let watchKeys := [statusListCredentialWatchKey] in
    executeWrapped (updateCredentialStatusFunc request slcMetadata) watchKeys w
  end.

(** ** Batches *)

Definition zeroCredential : VerifiableCredential :=
  {| vc_Context := []; vc_ID := ""; vc_Issuer := ""; vc_IssuanceDate := "";
     vc_ExpirationDate := ""; vc_CredentialStatus := None; vc_CredentialSubject := ∅;
     vc_CredentialSchema := None; vc_Evidence := [] |}.

Definition zeroContainer : Container :=
  {| c_ID := ""; c_FullyQualifiedVerificationMethodID := "";
     c_Credential := zeroCredential; c_CredentialJWT := "";
     c_Revoked := false; c_Suspended := false |}.

(** The first loop of [BatchCreateCredentials]: the watch keys and the
    closure of every request, in request order. *)
Definition batchWatchKeys (requests : list CreateCredentialRequest) : list WatchKey :=
  concat (map (λ request, fst (statusWatchKeys request)) requests).

Definition batchFuncs (requests : list CreateCredentialRequest) : list (Body Container) :=
  map (λ request, createCredentialFunc request (snd (statusWatchKeys request))) requests.

(** The loop of the batch closure: [resp.Credentials[i] = credResp.Container]. *)
Fixpoint batchCreateLoop (i : nat) (funcs : list (Body Container))
    (credentials : list Container) : Body (list Container) :=
  match funcs with
  | [] => mret credentials
  | f :: rest =>
    credResp ← f;
    batchCreateLoop (S i) rest (<[i := credResp]> credentials)
  end.

Definition batchCreateFunc (requests : list CreateCredentialRequest) : Body (list Container) :=
  batchCreateLoop 0 (batchFuncs requests) (replicate (length requests) zeroContainer).

Definition BatchCreateCredentials (requests : list CreateCredentialRequest)
  : Op (list Container) :=
  executeWrapped (batchCreateFunc requests) (batchWatchKeys requests).

End Service.

(** * Notions used by the properties *)

(** ** A program logic for transaction bodies

    [triple P m Q R]: run from a state satisfying [P], the body [m] ends in a
    state satisfying [Q a] when it returns [a] and in one satisfying [R e]
    when it fails with [e]. *)
Definition triple {A} (P : TxState → Prop) (m : Body A)
    (Q : A → TxState → Prop) (R : Error → TxState → Prop) : Prop :=
  ∀ t, P t → match m t with
             | (Ok a, t') => Q a t'
             | (Err e, t') => R e t'
             end.

(** Steps that leave the pending credential records alone. *)
Definition credentialsAre (cr : gmap string StoredCredential) (t : TxState) : Prop :=
  credentials (pending t) = cr.

(** [quiet cr m]: [m] keeps the pending credential records equal to [cr],
    whether it succeeds or fails. *)
Definition quiet {A} (cr : gmap string StoredCredential) (m : Body A) : Prop :=
  triple (credentialsAre cr) m (λ _, credentialsAre cr) (λ _, credentialsAre cr).

Section Notions.
Context `{Environment}.

(** The error of [signCredentialJWT] when the key of the request cannot be
    used; [None] when the key is found, controlled by the issuer and not
    revoked. *)
Definition keyError (issuer verificationMethodID : string) : option Error :=
  match getKey (fullyQualifiedVerificationMethodID issuer verificationMethodID) with
  | Err e =>
    Some (ErrWrap e ("getting key for signing credential<" ++ verificationMethodID ++ ">"))
  | Ok gotKey =>
    if negb (bool_decide (k_Controller gotKey = issuer)) then
      Some (ErrNew ("key controller<" ++ k_Controller gotKey
                    ++ "> does not match credential issuer<" ++ issuer
                    ++ "> for key<" ++ verificationMethodID ++ ">"))
    else if k_Revoked gotKey then
      Some (ErrNew ("cannot use revoked key<" ++ k_ID gotKey ++ ">"))
    else None
  end.

(** An error of the signing step of [createCredential] has cause [signErr]. *)
Definition signingFailsWith (signErr e : Error) : Prop :=
  ∀ e0, e = ErrWrap e0 "signing credential" → e0 = signErr.

(** Outcome of a failed step of [createCredential]: the pending credential
    records are still [cr], and a signing error has cause [signErr]. *)
Definition keepsCredentials (cr : gmap string StoredCredential) (signErr e : Error)
    (t : TxState) : Prop :=
  credentialsAre cr t ∧ signingFailsWith signErr e.

(** The error of the SDK for a credential whose status entry has another
    purpose than the list. *)
Definition differentPurposeError (credID entryPurpose purpose : string) : Error :=
  ErrNew ("credential<" ++ credID ++ "> has a different status purpose<"
          ++ entryPurpose ++ "> value than the status credential<" ++ purpose ++ ">").

(** The purpose a status update determines from its flags. *)
Definition requestedPurpose (request : UpdateCredentialStatusRequest) : string :=
  if upd_Suspended request then StatusSuspension else StatusRevocation.

(** The requests of a batch, issued one after the other in one transaction:
    [Issued t requests containers t'] when running the closures of [requests]
    in order from [t] returns [containers] and ends in [t']. *)
Inductive Issued : TxState → list CreateCredentialRequest → list Container → TxState → Prop :=
| Issued_nil (t : TxState) : Issued t [] [] t
| Issued_cons (t t1 t2 : TxState) (request : CreateCredentialRequest) (c : Container)
    (requests : list CreateCredentialRequest) (containers : list Container) :
    createCredential request (snd (statusWatchKeys request)) t = (Ok c, t1) →
    Issued t1 requests containers t2 →
    Issued t (request :: requests) (c :: containers) t2.

(** [FailsAt t requests e]: some request of the batch fails with [e] after
    the requests before it were issued. *)
Definition FailsAt (t : TxState) (requests : list CreateCredentialRequest) (e : Error) : Prop :=
  ∃ before request rest containers t1 t2,
    requests = (before ++ request :: rest)%list
    ∧ Issued t before containers t1
    ∧ createCredential request (snd (statusWatchKeys request)) t1 = (Err e, t2).

(** A stored credential counts for the purpose a request asserts. *)
Definition flagged (request : UpdateCredentialStatusRequest) (cred : StoredCredential) : bool :=
  (upd_Revoked request && HasCredentialStatus cred && sc_Revoked cred)
  || (upd_Suspended request && HasCredentialStatus cred && sc_Suspended cred).

Definition others (request : UpdateCredentialStatusRequest) (gotCred : StoredCredential)
    (creds : list StoredCredential) : list VerifiableCredential :=
  sc_Credential <$>
    filter (λ cred, vc_ID (sc_Credential cred) ≠ vc_ID (sc_Credential gotCred)
                    ∧ flagged request cred = true) creds.

End Notions.

(** ** The watch keys of a batch, in the words of the specification *)

(** The watch keys of a triple: its status list credential, its index pool
    and its cursor. *)
Definition tripleWatchKeys (issuer schema purpose : string) : list WatchKey :=
  [GetStatusListCredentialWatchKey issuer schema purpose;
   GetStatusListIndexPoolWatchKey issuer schema purpose;
   GetStatusListCurrentIndexWatchKey issuer schema purpose].

(** The purpose of the status a request asks for. *)
Definition statusPurposeOf (request : CreateCredentialRequest) : string :=
  if req_Suspendable request then StatusSuspension else StatusRevocation.

(** The watch keys and the metadata of an item of a batch: those of the
    triple of its issuer, schema and purpose when it asks for one status,
    none otherwise. *)
Definition itemWatchKeys (request : CreateCredentialRequest) : list WatchKey :=
  if xorb (req_Revocable request) (req_Suspendable request) then
    tripleWatchKeys (req_Issuer request) (req_SchemaID request) (statusPurposeOf request)
  else [].

Definition itemMetadata (request : CreateCredentialRequest) : StatusListCredentialMetadata :=
  if xorb (req_Revocable request) (req_Suspendable request) then
    {| md_statusListCredentialWatchKey :=
         GetStatusListCredentialWatchKey (req_Issuer request) (req_SchemaID request)
                                         (statusPurposeOf request);
       md_statusListIndexPoolWatchKey :=
         GetStatusListIndexPoolWatchKey (req_Issuer request) (req_SchemaID request)
                                        (statusPurposeOf request);
       md_statusListCurrentIndexWatchKey :=
         GetStatusListCurrentIndexWatchKey (req_Issuer request) (req_SchemaID request)
                                           (statusPurposeOf request) |}
  else zeroMetadata.

(** ** A concrete service, for running the operations *)

Module Demo.

Definition quote : string := String (Ascii.ascii_of_nat 34) "".

Definition digit (n : nat) : string :=
  String (Ascii.ascii_of_nat (48 + n `mod` 10)) "".

(** UUID-shaped strings of 36 characters, distinct for draws below 100. *)
Definition uuid (n : nat) : string :=
  "00000000-0000-4000-8000-0000000000" ++ digit (n `div` 10) ++ digit n.

Definition issuerA : string := "did:key:A".
Definition keyA : string := "did:key:A#key-1".
Definition issuerR : string := "did:key:R".
Definition keyR : string := "did:key:R#key-1".

Definition keys (id : string) : result KeyDetails :=
  if bool_decide (id = keyA) then
    Ok {| k_ID := keyA; k_Controller := issuerA; k_Revoked := false; k_Key := "secret-a" |}
  else if bool_decide (id = keyR) then
    Ok {| k_ID := keyR; k_Controller := issuerR; k_Revoked := true; k_Key := "secret-r" |}
  else Err (ErrNew ("key not found with id: " ++ id)).

#[export] Instance env : Environment := {|
  fmtS := λ a, match a with AStr s => s | _ => "%!s(any)" end;
  fmtQ := λ s, quote ++ s ++ quote;
  fmtV := λ _, "map[]";
  servicePath := "https://ssi-service.com/v1/credentials";
  requestIsValid := λ r,
    if bool_decide (req_Issuer r = "") then Some (ErrNew "Issuer is required") else None;
  storedIsValid := λ c,
    negb (bool_decide (sc_LocalCredentialID c = "")) && negb (bool_decide (sc_CredentialJWT c = ""));
  builderCheck := λ _, None;
  schemaResolve := λ id,
    if bool_decide (id = "schema-1") then Ok (ANil, "JsonSchema")
    else Err (ErrNew ("schema not found with id: " ++ id));
  isCredentialValidForJSONSchema := λ _ _, None;
  copyCheck := λ _, None;
  getKey := keys;
  fullyQualifiedVerificationMethodID := λ did vm,
    if String.prefix "#" vm then did ++ vm else vm;
  newJWKKeyAccess := λ vm kid key, Ok {| ka_ID := vm; ka_KID := kid; ka_Key := key |};
  signVerifiableCredential := λ ka cred, Ok ("jwt." ++ ka_KID ka ++ "." ++ vc_ID cred);
  uuidOf := uuid;
  timeOf := λ _, "2023-06-01T00:00:00Z";
  randomIndexOf := N.of_nat
|}.

Definition emptyWorld : World := {| db := emptyStore; entropy := 0 |}.

Definition Create := CreateCredential (H := env) (@Execute).
Definition Update := UpdateCredentialStatus (H := env) (@Execute).

Definition request (issuer key subject : string) (revocable suspendable : bool)
  : CreateCredentialRequest :=
  {| req_Issuer := issuer;
     req_FullyQualifiedVerificationMethodID := key;
     req_Subject := subject;
     req_Context := "";
     req_SchemaID := "";
     req_Data := {[ "email" := AStr "satoshi@nakamoto.btc" ]};
     req_Expiry := "2024-06-01T00:00:00Z";
     req_Revocable := revocable;
     req_Suspendable := suspendable;
     req_Evidence := [] |}.

(** The world after issuing one credential without status; its local id is
    the first UUID drawn. *)
Definition plainWorld : World :=
  snd (Create (request issuerA keyA "did:test:1" false false) emptyWorld).

(** The world after issuing one suspendable credential. *)
Definition suspendableWorld : World :=
  snd (Create (request issuerA keyA "did:test:1" false true) emptyWorld).

(** Two suspendable credentials of one triple, both suspended. *)
Definition issueAndSuspendTwo : Op (Container * Container) :=
  a ← Create (request issuerA keyA "did:test:1" false true);
  b ← Create (request issuerA keyA "did:test:2" false true);
  Update {| upd_ID := c_ID a; upd_Revoked := false; upd_Suspended := true |};;
  Update {| upd_ID := c_ID b; upd_Revoked := false; upd_Suspended := true |};;
  mret (a, b).

Definition twoSuspendedWorld : World := snd (issueAndSuspendTwo emptyWorld).

End Demo.

Module Scenario.
Import Demo.

Definition zeroStored : StoredCredential := buildStoredCredential zeroContainer.

Definition storedOf (w : World) (id : string) : StoredCredential :=
  default zeroStored (credentials (db w) !! id).

Definition zeroEntry : StatusList2021Entry :=
  {| sle_ID := ""; sle_Type := ""; sle_StatusPurpose := "";
     sle_StatusListIndex := 0; sle_StatusListCredential := "" |}.

Definition entryOf (c : StoredCredential) : StatusList2021Entry :=
  default zeroEntry (vc_CredentialStatus (sc_Credential c)).

(** The status list credential stored for the triple of a credential. *)
Definition statusListOf (w : World) (c : StoredCredential) : StoredCredential :=
  default zeroStored
    (GetStatusListCredentialKeyData (db w) (sc_Issuer c) (sc_Schema c) (GetStatusPurpose c)).

Definition containerOf {A} (zero : A) (r : result A * World) : A :=
  match fst r with Ok a => a | Err _ => zero end.

(** The ids of the two credentials of [twoSuspendedWorld]. *)
Definition idA : string := c_ID (fst (containerOf (zeroContainer, zeroContainer)
                                                  (issueAndSuspendTwo emptyWorld))).
Definition idB : string := c_ID (snd (containerOf (zeroContainer, zeroContainer)
                                                  (issueAndSuspendTwo emptyWorld))).

Definition unsuspendA : UpdateCredentialStatusRequest :=
  {| upd_ID := idA; upd_Revoked := false; upd_Suspended := false |}.

End Scenario.

Module Witnesses.
Import Demo Scenario.

Definition plain : CreateCredentialRequest := request issuerA keyA "did:test:1" false false.
Definition revocable : CreateCredentialRequest := request issuerA keyA "did:test:1" true false.
Definition suspendable : CreateCredentialRequest := request issuerA keyA "did:test:1" false true.
Definition twoStatuses : CreateCredentialRequest := request issuerA keyA "did:test:1" true true.
Definition revokedKey : CreateCredentialRequest := request issuerR keyR "did:test:1" false false.

(** A request whose data names another subject. *)
Definition otherSubject : CreateCredentialRequest :=
  {| req_Issuer := issuerA;
     req_FullyQualifiedVerificationMethodID := keyA;
     req_Subject := "did:test:1";
     req_Context := "";
     req_SchemaID := "";
     req_Data := {[ "id" := AStr "did:test:2" ]};
     req_Expiry := "";
     req_Revocable := false;
     req_Suspendable := false;
     req_Evidence := [] |}.

(** A revoked key, used by an issuer who does not control it. *)
Definition revokedKeyOfAnother : CreateCredentialRequest :=
  request issuerA keyR "did:test:1" false false.

(** Both statuses requested, and data that names another subject. *)
Definition twoStatusesOtherSubject : CreateCredentialRequest :=
  {| req_Issuer := issuerA;
     req_FullyQualifiedVerificationMethodID := keyA;
     req_Subject := "did:test:1";
     req_Context := "";
     req_SchemaID := "";
     req_Data := {[ "id" := AStr "did:test:2" ]};
     req_Expiry := "";
     req_Revocable := true;
     req_Suspendable := true;
     req_Evidence := [] |}.

Definition revocableWorld : World := snd (Create revocable emptyWorld).

(** The local id of the first credential issued in an empty world. *)
Definition firstID : string := uuid 0.

End Witnesses.

(** * Further operations

    The remaining operations of [service.go], the handlers of the schema
    router, and the notions their properties are stated with. *)

(** [still m]: the body [m] writes nothing through the transaction. *)
Definition still {A} (m : Body A) : Prop :=
  ∀ t, pending (snd (m t)) = pending t.

(** A stored record is in order under an id when that id is its local id and
    it is indexed by the issuer and the schema of its own document. *)
Definition inOrder (id : string) (c : StoredCredential) : Prop :=
  sc_LocalCredentialID c = id
  ∧ sc_Issuer c = vc_Issuer (sc_Credential c)
  ∧ sc_Schema c = schemaID (sc_Credential c).

(** Every stored credential is filed under its own local id. *)
Definition filedByID (s : Store) : Prop :=
  map_Forall (λ id c, sc_LocalCredentialID c = id) (credentials s).

(** [c'] is the credential [c], its flags apart: the same local id,
    verification method, document and JWT. *)
Definition sameCredential (c c' : StoredCredential) : Prop :=
  sc_LocalCredentialID c' = sc_LocalCredentialID c
  ∧ sc_FullyQualifiedVerificationMethodID c' = sc_FullyQualifiedVerificationMethodID c
  ∧ sc_Credential c' = sc_Credential c
  ∧ sc_CredentialJWT c' = sc_CredentialJWT c.

(** [s'] holds the credentials of [s], under the same ids, their flags
    apart. *)
Definition flagsOnly (s s' : Store) : Prop :=
  ∀ id, option_Forall2 sameCredential (credentials s !! id) (credentials s' !! id).

(** A transaction body that, when it succeeds, leaves what is read through
    the context as it was and the pending credentials those of the
    context, their flags apart. *)
Definition touchesFlagsOnly {A} (m : Body A) : Prop :=
  ∀ t a t', m t = (Ok a, t') →
    filedByID (snapshot t) → flagsOnly (snapshot t) (pending t) →
    snapshot t' = snapshot t ∧ flagsOnly (snapshot t) (pending t').

(** The state in which a transaction body starts. *)
Definition start (w : World) : TxState :=
  {| snapshot := db w; pending := db w; tick := entropy w |}.

(** ** Verification requests *)

(** [credential.VerifiableCredential] as a verification request carries it:
    the document, and its [Proof] field, nil when the credential bears no
    data-integrity proof. *)
Record ProvableCredential := {
  pc_Credential : VerifiableCredential;
  pc_Proof : option Any
}.

Record VerifyCredentialRequest := {
  vr_DataIntegrityCredential : option ProvableCredential;
  vr_CredentialJWT : option JWT
}.

Record VerifyCredentialResponse := {
  vresp_Verified : bool;
  vresp_Reason : string
}.

(** [IsValid] checks if the request is valid, meaning there is at least one
    data integrity (with proof) OR jwt credential, but not both. *)
Definition VerifyCredentialRequest_IsValid (vcr : VerifyCredentialRequest) : option Error :=
  if bool_decide (vr_DataIntegrityCredential vcr = None)
     && bool_decide (vr_CredentialJWT vcr = None) then
    Some (ErrNew "either a credential or a credential JWT must be provided")
  else if match vr_DataIntegrityCredential vcr with
          | Some credential => bool_decide (is_Some (pc_Proof credential))
          | None => false
          end
          && bool_decide (is_Some (vr_CredentialJWT vcr)) then
    Some (ErrNew "only one of credential or credential JWT can be provided")
  else None.

(** [verification.Verifier], the collaborator that verifies signatures,
    expiry, the data model and the schema. *)
Class Verifier := {
  VerifyJWTCredential : JWT → option Error;
  VerifyDataIntegrityCredential : ProvableCredential → option Error
}.

Definition VerifyCredential `{Verifier} (request : VerifyCredentialRequest)
  : result VerifyCredentialResponse :=
  match VerifyCredentialRequest_IsValid request with
  | Some e => Err (ErrWrap e "invalid verify credential request")
  | None =>
    match vr_CredentialJWT request with
    | Some credentialJWT =>
      match VerifyJWTCredential credentialJWT with
      | Some e => Ok {| vresp_Verified := false; vresp_Reason := Error_string e |}
      | None => Ok {| vresp_Verified := true; vresp_Reason := "" |}
      end
    | None =>
      match vr_DataIntegrityCredential request with
      | None => Err (ErrPanic "invalid memory address or nil pointer dereference")
      | Some credential =>
        match VerifyDataIntegrityCredential credential with
        | Some e => Ok {| vresp_Verified := false; vresp_Reason := Error_string e |}
        | None => Ok {| vresp_Verified := true; vresp_Reason := "" |}
        end
      end
    end
  end.

(** [idFromURI] of the router tests: the last 36 bytes of the id of a
    credential; the slice expression panics on a shorter string. *)
Definition idFromURI (cred : string) : result string :=
  if bool_decide (String.length cred < 36) then
    Err (ErrPanic "slice bounds out of range")
  else Ok (String.substring (String.length cred - 36) 36 cred).

(** The response for the answer of the verifier. *)
Definition verdict (answer : option Error) : VerifyCredentialResponse :=
  match answer with
  | Some e => {| vresp_Verified := false; vresp_Reason := Error_string e |}
  | None => {| vresp_Verified := true; vresp_Reason := "" |}
  end.

Section Further.
Context `{Environment}.
Variable exec : ∀ A, Body A → list WatchKey → Op A.

(** The record [updateCredentialStatus] stores for a credential: the stored
    one with the flags of the request. *)
Definition updatedRecord (gotCred : StoredCredential)
    (request : UpdateCredentialStatusRequest) : StoredCredential :=
  buildStoredCredential
    {| c_ID := sc_LocalCredentialID gotCred;
       c_FullyQualifiedVerificationMethodID := sc_FullyQualifiedVerificationMethodID gotCred;
       c_Credential := sc_Credential gotCred;
       c_CredentialJWT := sc_CredentialJWT gotCred;
       c_Revoked := upd_Revoked request;
       c_Suspended := upd_Suspended request |}.

(** The status a request asks for, as a response reports it. *)
Definition requestedStatus (id : string) (request : UpdateCredentialStatusRequest) : Status :=
  {| st_ID := id; st_Revoked := upd_Revoked request; st_Suspended := upd_Suspended request |}.

(** ** BatchUpdateCredentialStatus *)

Definition withStatusID (id : string) (st : Status) : Status :=
  {| st_ID := id; st_Revoked := st_Revoked st; st_Suspended := st_Suspended st |}.

(** The first loop: the watch key and the closure of every request, in
    request order; it returns at the first request whose watch key cannot be
    derived. *)
Fixpoint batchUpdatePrepare (s : Store) (requests : list UpdateCredentialStatusRequest)
  : result (list WatchKey * list (Body Status)) :=
  match requests with
  | [] => Ok ([], [])
  | request :: rest =>
    match statusListCredentialWatchKey s (upd_ID request) with
    | Err e => Err e
    | Ok None => Err (ErrPanic "invalid memory address or nil pointer dereference")
    | Ok (Some key) =>
      match batchUpdatePrepare s rest with
      | Err e => Err e
      | Ok (watchKeys, updateFuncs) =>
        Ok (key :: watchKeys,
            updateCredentialStatusFunc request (metadataOf key) :: updateFuncs)
      end
    end
  end.

(** The loop of the batch closure: append the status of the update, then set
    [CredentialStatuses[i].ID] to the id of request [i]. *)
Fixpoint batchUpdateLoop (requests : list UpdateCredentialStatusRequest) (i : nat)
    (updateFuncs : list (Body Status)) (statuses : list Status) : Body (list Status) :=
  match updateFuncs with
  | [] => mret statuses
  | updateFunc :: rest =>
    updateResp ← updateFunc;
    let appended := (statuses ++ [updateResp])%list in
    match appended !! i, requests !! i with
    | Some _, Some request =>
      batchUpdateLoop requests (S i) rest (alter (withStatusID (upd_ID request)) i appended)
    | _, _ => fail (ErrPanic "index out of range")
    end
  end.

Definition BatchUpdateCredentialStatus (requests : list UpdateCredentialStatusRequest)
  : Op (list Status) := λ w,
  match batchUpdatePrepare (db w) requests with
  | Err e => (Err e, w)
  | Ok (watchKeys, updateFuncs) =>
    executeWrapped exec (batchUpdateLoop requests 0 updateFuncs []) watchKeys w
  end.

End Further.

(** ** The schema router

    The handlers of [pkg/server/router/schema.go].  A handler answers by one
    call of the response helpers of the server framework; the call is kept as
    it is made, with its message and status code. *)

Definition StatusOK : nat := 200.
Definition StatusCreated : nat := 201.
Definition StatusNoContent : nat := 204.
Definition StatusBadRequest : nat := 400.
Definition StatusInternalServerError : nat := 500.

(** [CredentialSchemaRequest], the optional request to sign the schema. *)
Record CredentialSchemaRequest := {
  csr_Issuer : string;
  csr_VerificationMethodID : string
}.

(** [CreateSchemaRequest] of the router. *)
Record CreateSchemaRequest := {
  csq_Name : string;
  csq_Description : string;
  csq_Schema : Any;
  csq_CredentialSchemaRequest : option CredentialSchemaRequest
}.

(** [schema.CreateSchemaRequest], the request of the schema service. *)
Record ServiceCreateSchemaRequest := {
  scs_Name : string;
  scs_Description : string;
  scs_Schema : Any;
  scs_Issuer : string;
  scs_FullyQualifiedVerificationMethodID : string
}.

(** What the schema service returns for a schema. *)
Record ServiceSchemaResponse := {
  ssr_ID : string;
  ssr_Type : string;
  ssr_Schema : option Any;
  ssr_CredentialSchema : option JWT
}.

(** [SchemaResponse] of the router. *)
Record SchemaResponse := {
  sr_ID : string;
  sr_Type : string;
  sr_Schema : option Any;
  sr_CredentialSchema : option JWT
}.

(** The calls by which a handler answers. *)
Inductive Reply :=
| LoggingRespondErrWithMsg (err : Error) (msg : string) (statusCode : nat)
| LoggingRespondErrMsg (msg : string) (statusCode : nat)
| Respond (data : option SchemaResponse) (statusCode : nat).

Definition statusCode (reply : Reply) : nat :=
  match reply with
  | LoggingRespondErrWithMsg _ _ code => code
  | LoggingRespondErrMsg _ code => code
  | Respond _ code => code
  end.

Definition CredentialSchemaRequest_IsValid (csr : option CredentialSchemaRequest) : bool :=
  match csr with
  | None => false
  | Some csr =>
    negb (bool_decide (csr_Issuer csr = ""))
    && negb (bool_decide (csr_VerificationMethodID csr = ""))
  end.

Section SchemaRouter.
Context `{Environment}.

(** The schema service behind the router, with the state it keeps, and the
    struct validator of the framework. *)
Variable ServiceState : Type.
Variable service_CreateSchema :
  ServiceCreateSchemaRequest → ServiceState → result ServiceSchemaResponse * ServiceState.
Variable service_GetSchema : string → ServiceState → result ServiceSchemaResponse * ServiceState.
Variable service_DeleteSchema : string → ServiceState → option Error * ServiceState.
Variable ValidateRequest : CreateSchemaRequest → option Error.

Definition schemaResponseOf (s : ServiceSchemaResponse) : SchemaResponse :=
  {| sr_ID := ssr_ID s;
     sr_Type := ssr_Type s;
     sr_Schema := ssr_Schema s;
     sr_CredentialSchema := ssr_CredentialSchema s |}.

(** [CreateSchema]; [decoded] is the outcome of [framework.Decode] on the
    body of the HTTP request. *)
Definition CreateSchema (decoded : result CreateSchemaRequest)
  : ServiceState → Reply * ServiceState := λ st,
  let invalidCreateSchemaRequest := "invalid create schema request" in
  match decoded with
  | Err err => (LoggingRespondErrWithMsg err invalidCreateSchemaRequest StatusBadRequest, st)
  | Ok request =>
    match ValidateRequest request with
    | Some err => (LoggingRespondErrWithMsg err invalidCreateSchemaRequest StatusBadRequest, st)
    | None =>
      let req :=
        {| scs_Name := csq_Name request;
           scs_Description := csq_Description request;
           scs_Schema := csq_Schema request;
           scs_Issuer := "";
           scs_FullyQualifiedVerificationMethodID := "" |} in
      let call (req : ServiceCreateSchemaRequest) :=
        match service_CreateSchema req st with
        | (Err err, st') =>
          (LoggingRespondErrWithMsg err "could not create schema" StatusInternalServerError, st')
        | (Ok createSchemaResponse, st') =>
          (Respond (Some (schemaResponseOf createSchemaResponse)) StatusCreated, st')
        end in
      match csq_CredentialSchemaRequest request with
      | Some csr =>
        if negb (CredentialSchemaRequest_IsValid (Some csr)) then
          (LoggingRespondErrMsg "cannot sign schema without an issuer DID and KID"
                                StatusBadRequest, st)
        else
          (* if we have a valid credential schema request, set the issuer and kid *)
          call {| scs_Name := scs_Name req;
                  scs_Description := scs_Description req;
                  scs_Schema := scs_Schema req;
                  scs_Issuer := csr_Issuer csr;
                  scs_FullyQualifiedVerificationMethodID :=
                    fullyQualifiedVerificationMethodID (csr_Issuer csr)
                                                       (csr_VerificationMethodID csr) |}
      | None => call req
      end
    end
  end.

(** [GetSchema]; [id] is the outcome of [framework.GetParam] for the id
    parameter, nil when the route carries none. *)
Definition GetSchema (id : option string) : ServiceState → Reply * ServiceState := λ st,
  match id with
  | None => (LoggingRespondErrMsg "cannot get schema without ID parameter" StatusBadRequest, st)
  | Some id =>
    match service_GetSchema id st with
    | (Err err, st') =>
      (LoggingRespondErrWithMsg err ("could not get schema with id: " ++ id)
                                StatusInternalServerError, st')
    | (Ok gotSchema, st') => (Respond (Some (schemaResponseOf gotSchema)) StatusOK, st')
    end
  end.

Definition DeleteSchema (id : option string) : ServiceState → Reply * ServiceState := λ st,
  match id with
  | None =>
    (LoggingRespondErrMsg "cannot delete a schema without an ID parameter" StatusBadRequest, st)
  | Some id =>
    match service_DeleteSchema id st with
    | (Some err, st') =>
      (LoggingRespondErrWithMsg err ("deleting schema with id: " ++ id)
                                StatusInternalServerError, st')
    | (None, st') => (Respond None StatusNoContent, st')
    end
  end.

(** The request the schema service is to receive for an HTTP request: its
    name, description and schema, and the issuer and the fully qualified
    verification method id of its signing request, empty when it has none. *)
Definition serviceRequestFor (request : CreateSchemaRequest) : ServiceCreateSchemaRequest :=
  {| scs_Name := csq_Name request;
     scs_Description := csq_Description request;
     scs_Schema := csq_Schema request;
     scs_Issuer :=
       match csq_CredentialSchemaRequest request with
       | Some csr => csr_Issuer csr
       | None => ""
       end;
     scs_FullyQualifiedVerificationMethodID :=
       match csq_CredentialSchemaRequest request with
       | Some csr =>
         fullyQualifiedVerificationMethodID (csr_Issuer csr) (csr_VerificationMethodID csr)
       | None => ""
       end |}.

(** An HTTP request that asks for no signature, or names both the issuer and
    the verification method of the signature. *)
Definition signingComplete (request : CreateSchemaRequest) : Prop :=
  match csq_CredentialSchemaRequest request with
  | Some csr => csr_Issuer csr ≠ "" ∧ csr_VerificationMethodID csr ≠ ""
  | None => True
  end.

End SchemaRouter.

(** ** Further cases for the concrete service *)

Module Cases.
Import Demo Scenario Witnesses.

Definition suspendFirst : UpdateCredentialStatusRequest :=
  {| upd_ID := firstID; upd_Revoked := false; upd_Suspended := true |}.

(** Two suspendable credentials of one triple, the first of them suspended. *)
Definition issueTwoSuspendOne : Op (Container * Container) :=
  a ← Create (request issuerA keyA "did:test:1" false true);
  b ← Create (request issuerA keyA "did:test:2" false true);
  Update {| upd_ID := c_ID a; upd_Revoked := false; upd_Suspended := true |};;
  mret (a, b).

Definition oneSuspendedWorld : World := snd (issueTwoSuspendOne emptyWorld).

Definition suspendB : UpdateCredentialStatusRequest :=
  {| upd_ID := idB; upd_Revoked := false; upd_Suspended := true |}.

(** The world of one suspendable credential, its status list credential
    lost. *)
Definition orphanWorld : World :=
  {| db := {| credentials := credentials (db suspendableWorld);
              statusListCredentials := ∅;
              statusListIndexPool := statusListIndexPool (db suspendableWorld);
              statusListCurrentIndex := statusListCurrentIndex (db suspendableWorld) |};
     entropy := entropy suspendableWorld |}.

(** A request for a credential of a schema the schema service knows. *)
Definition withSchema : CreateCredentialRequest :=
  {| req_Issuer := issuerA;
     req_FullyQualifiedVerificationMethodID := keyA;
     req_Subject := "did:test:1";
     req_Context := "";
     req_SchemaID := "schema-1";
     req_Data := {[ "email" := AStr "satoshi@nakamoto.btc" ]};
     req_Expiry := "";
     req_Revocable := false;
     req_Suspendable := false;
     req_Evidence := [] |}.

(** A verifier that accepts the JWTs of the concrete signer and refuses
    credentials without proof. *)
#[export] Instance verifier : Verifier := {|
  VerifyJWTCredential := λ credentialJWT,
    if String.prefix "jwt." credentialJWT then None
    else Some (ErrNew "could not verify signature");
  VerifyDataIntegrityCredential := λ credential,
    match pc_Proof credential with
    | Some _ => None
    | None => Some (ErrNew "credential must have a proof")
    end
|}.

(** A schema service that keeps the names of the schemas it has created. *)
Definition schemaService_Create (req : ServiceCreateSchemaRequest) (st : list string)
  : result ServiceSchemaResponse * list string :=
  if bool_decide (scs_Name req ∈ st) then (Err (ErrNew "schema already exists"), st)
  else (Ok {| ssr_ID := scs_Name req; ssr_Type := "JsonSchema";
              ssr_Schema := Some (scs_Schema req); ssr_CredentialSchema := None |},
        scs_Name req :: st).

Definition schemaService_Get (id : string) (st : list string)
  : result ServiceSchemaResponse * list string :=
  if bool_decide (id ∈ st) then
    (Ok {| ssr_ID := id; ssr_Type := "JsonSchema"; ssr_Schema := None;
           ssr_CredentialSchema := None |}, st)
  else (Err (ErrNew "schema not found"), st).

Definition schemaService_Delete (id : string) (st : list string)
  : option Error * list string :=
  if bool_decide (id ∈ st) then (None, filter (λ name, name ≠ id) st)
  else (Some (ErrNew "schema not found"), st).

Definition acceptAll (request : CreateSchemaRequest) : option Error := None.

Definition unsignedSchema : CreateSchemaRequest :=
  {| csq_Name := "email"; csq_Description := ""; csq_Schema := AObject [];
     csq_CredentialSchemaRequest := None |}.

Definition signedWithoutKey : CreateSchemaRequest :=
  {| csq_Name := "email"; csq_Description := ""; csq_Schema := AObject [];
     csq_CredentialSchemaRequest :=
       Some {| csr_Issuer := issuerA; csr_VerificationMethodID := "" |} |}.

End Cases.

(** * Properties *)

Section Properties.
Context `{Environment}.

Lemma world_eta (w : World) : {| db := db w; entropy := entropy w |} = w.
Proof. by destruct w. Qed.

Lemma string_length_0 (s : string) : String.length s = 0 ↔ s = "".
Proof. destruct s; simpl; split; intros; congruence. Qed.

Lemma append_assoc (a b c : string) : (a ++ b) ++ c = a ++ b ++ c.
Proof.
  induction a as [|ch a IH]; [done|].
  change (String ch ((a ++ b) ++ c) = String ch (a ++ b ++ c)). by rewrite IH.
Qed.

Lemma append_nil_r (a : string) : a ++ "" = a.
Proof.
  induction a as [|ch a IH]; [done|].
  change (String ch (a ++ "") = String ch a). by rewrite IH.
Qed.

(** ** Reading a status list credential *)

Lemma GetStatusListCredential_stored (s : Store) (key : string) (sc : StoredCredential) :
  statusListCredentials s !! key = Some sc →
  ∃ sc', GetStatusListCredential s (sc_LocalCredentialID sc) = Ok sc'
         ∧ sc_LocalCredentialID sc' = sc_LocalCredentialID sc.
Proof.
  intros Hsc. unfold GetStatusListCredential.
  destruct (list_find_elem_of
              (λ c, sc_LocalCredentialID c = sc_LocalCredentialID sc)
              (map_to_list (statusListCredentials s)).*2 sc) as [[i sc'] Hfind].
  - apply list_elem_of_fmap. exists (key, sc). split; [done|].
    by apply elem_of_map_to_list.
  - done.
  - rewrite Hfind. exists sc'. split; [done|].
    by apply list_find_Some in Hfind as (_ & ? & _).
Qed.

(** C10. A stored status list credential is found by its local id, and
    [GetCredentialStatusList] reports it with [Revoked] and [Suspended] both
    false whatever flags the record carries: every response the operation
    returns has both fields false, and it returns one for every record that
    passes the validity check. *)
Theorem GetCredentialStatusList_flags_false (w : World) (key : string) (sc : StoredCredential) :
  statusListCredentials (db w) !! key = Some sc →
  ∃ sc', GetStatusListCredential (db w) (sc_LocalCredentialID sc) = Ok sc'
    ∧ (storedIsValid sc' = true →
       GetCredentialStatusList (sc_LocalCredentialID sc) w =
         (Ok {| c_ID := sc_LocalCredentialID sc';
                c_FullyQualifiedVerificationMethodID := "";
                c_Credential := sc_Credential sc';
                c_CredentialJWT := sc_CredentialJWT sc';
                c_Revoked := false;
                c_Suspended := false |}, w))
    ∧ (∀ c w', GetCredentialStatusList (sc_LocalCredentialID sc) w = (Ok c, w') →
               c_Revoked c = false ∧ c_Suspended c = false).
Proof.
  intros Hsc.
  destruct (GetStatusListCredential_stored _ _ _ Hsc) as (sc' & Hget & _).
  exists sc'. split; [done|].
  unfold GetCredentialStatusList. rewrite Hget. split.
  - intros ->. done.
  - intros c w'. destruct (storedIsValid sc'); simpl; intros [= <- _]; done.
Qed.

(** ** The preamble of UpdateCredentialStatus *)

(** C6. Updating the status of a stored credential that has no
    [credentialStatus] fails with [credential "<id>" has no credentialStatus
    field], raised while the watch key is derived: the outcome is the same for
    every transaction primitive the service could be given, so no transaction
    body runs, and the world is left as it was. *)
Theorem UpdateCredentialStatus_no_credentialStatus
    (exec : ∀ A, Body A → list WatchKey → Op A)
    (request : UpdateCredentialStatusRequest) (w : World) (c : StoredCredential) :
  credentials (db w) !! upd_ID request = Some c →
  vc_CredentialStatus (sc_Credential c) = None →
  ∃ e, UpdateCredentialStatus exec request w = (Err e, w)
       ∧ e = ErrNew ("credential " ++ fmtQ (sc_LocalCredentialID c)
                     ++ " has no credentialStatus field")
       ∧ Contains (Error_string e) "has no credentialStatus field".
Proof.
  intros Hc Hstatus. eexists. split; [|split; [reflexivity|]].
  - unfold UpdateCredentialStatus, statusListCredentialWatchKey, storage_GetCredential,
      HasCredentialStatus.
    by rewrite Hc, Hstatus.
  - simpl. exists ("credential " ++ fmtQ (sc_LocalCredentialID c) ++ " "), "".
    by rewrite append_nil_r, !append_assoc.
Qed.

(** ** Reasoning about transaction bodies *)

Lemma bind_Ok {A B} (m : Body A) (f : A → Body B) (t t' : TxState) (b : B) :
  (m ≫= f) t = (Ok b, t') → ∃ a t1, m t = (Ok a, t1) ∧ f a t1 = (Ok b, t').
Proof.
  unfold mbind, Body_bind. destruct (m t) as [[a|e] t1]; [eauto|discriminate].
Qed.

Lemma bind_Err_l {A B} (m : Body A) (f : A → Body B) (t t' : TxState) (e : Error) :
  m t = (Err e, t') → (m ≫= f) t = (Err e, t').
Proof. unfold mbind, Body_bind. by intros ->. Qed.

Lemma wrap_Ok {A} (msg : string) (m : Body A) (t t' : TxState) (a : A) :
  wrap msg m t = (Ok a, t') → m t = (Ok a, t').
Proof. unfold wrap. destruct (m t) as [[a'|e] t1]; [done|discriminate]. Qed.

Lemma lift_Ok {A} (r : result A) (t t' : TxState) (a : A) :
  lift r t = (Ok a, t') → r = Ok a ∧ t' = t.
Proof. unfold lift. by intros [= -> ->]. Qed.

Lemma mret_Ok {A} (a b : A) (t t' : TxState) :
  (mret a : Body A) t = (Ok b, t') → b = a ∧ t' = t.
Proof. unfold mret, Body_ret. by intros [= -> ->]. Qed.

Lemma fail_Ok {A} (e : Error) (t t' : TxState) (a : A) :
  fail e t = (Ok a, t') → False.
Proof. unfold fail. discriminate. Qed.

(** Split the first step off a successful run. *)
Ltac body_step H :=
  let a := fresh "a" in
  let t := fresh "t" in
  let Hm := fresh "Hm" in
  cbv zeta in H; apply bind_Ok in H as (a & t & Hm & H).

(** What [Execute] does with the outcome of the body. *)
Lemma Execute_Ok {A} (fn : Body A) (watchKeys : list WatchKey) (w : World)
    (a : A) (t : TxState) :
  fn {| snapshot := db w; pending := db w; tick := entropy w |} = (Ok a, t) →
  Execute fn watchKeys w = (Ok a, {| db := pending t; entropy := tick t |}).
Proof. unfold Execute. by intros ->. Qed.

Lemma Execute_Err {A} (fn : Body A) (watchKeys : list WatchKey) (w : World)
    (e : Error) (t : TxState) :
  fn {| snapshot := db w; pending := db w; tick := entropy w |} = (Err e, t) →
  Execute fn watchKeys w = (Err e, {| db := db w; entropy := tick t |}).
Proof. unfold Execute. by intros ->. Qed.

Lemma executeWrapped_inv {A} (fn : Body A) (watchKeys : list WatchKey) (w w' : World)
    (r : result A) :
  executeWrapped (@Execute) fn watchKeys w = (r, w') →
  ∃ t, (∃ a, fn {| snapshot := db w; pending := db w; tick := entropy w |} = (Ok a, t)
             ∧ r = Ok a ∧ db w' = pending t)
       ∨ (∃ e, fn {| snapshot := db w; pending := db w; tick := entropy w |} = (Err e, t)
               ∧ r = Err (ErrWrap e "execute") ∧ db w' = db w).
Proof.
  unfold executeWrapped, Execute.
  destruct (fn _) as [[a|e] t]; intros [= <- <-]; exists t; [left|right]; eauto.
Qed.

(** ** Rejection of a request with two statuses *)

Lemma createCredential_rejects_two_statuses (request : CreateCredentialRequest)
    (statusMetadata : StatusListCredentialMetadata) (t : TxState) :
  isStatusValid request = false →
  createCredential request statusMetadata t
  = (Err (ErrNew "credential may have at most one status"), t).
Proof. intros Hv. unfold createCredential. by rewrite Hv. Qed.

(** C3. A request that is both revocable and suspendable is refused: the
    transaction body returns [credential may have at most one status] without
    having drawn an id or written anything, [CreateCredential] fails and
    leaves the world (credentials, status list credentials, index pools,
    cursors) as it was; when the request passes the struct validator the error
    returned is that message wrapped by [execute]. *)
Theorem CreateCredential_two_statuses (request : CreateCredentialRequest) (w : World) :
  req_Revocable request = true →
  req_Suspendable request = true →
  (∀ statusMetadata t,
     createCredential request statusMetadata t
     = (Err (ErrNew "credential may have at most one status"), t))
  ∧ (∃ e, CreateCredential (@Execute) request w = (Err e, w))
  ∧ (requestIsValid request = None →
     CreateCredential (@Execute) request w
     = (Err (ErrWrap (ErrNew "credential may have at most one status") "execute"), w)).
Proof.
  intros Hr Hs.
  assert (Hv : isStatusValid request = false) by (unfold isStatusValid; by rewrite Hr, Hs).
  assert (Hrun : ∀ e, requestIsValid request = e →
    CreateCredential (@Execute) request w
    = (Err match e with
           | Some e' => ErrWrap e' "validating request"
           | None => ErrWrap (ErrNew "credential may have at most one status") "execute"
           end, w)).
  { intros e He. unfold CreateCredential. rewrite He. destruct e as [e'|]; [done|].
    unfold statusWatchKeys. rewrite Hv, andb_false_r.
    unfold executeWrapped, createCredentialFunc.
    rewrite (Execute_Err _ _ _ _ _ (createCredential_rejects_two_statuses _ _ _ Hv)).
    simpl. by rewrite world_eta. }
  split; [|split].
  - intros md t. by apply createCredential_rejects_two_statuses.
  - eexists. by apply Hrun.
  - intros Hvalid. by rewrite (Hrun _ Hvalid).
Qed.

(** ** Rules of the program logic *)

Lemma triple_bind {A B} (P : TxState → Prop) (m : Body A) (f : A → Body B)
    (Q : A → TxState → Prop) (Q' : B → TxState → Prop) (R : Error → TxState → Prop) :
  triple P m Q R → (∀ a, triple (Q a) (f a) Q' R) → triple P (m ≫= f) Q' R.
Proof.
  intros Hm Hf t HP. specialize (Hm t HP). unfold mbind, Body_bind.
  destruct (m t) as [[a|e] t1]; [by apply Hf|done].
Qed.

Lemma triple_ret {A} (P : TxState → Prop) (a : A) (R : Error → TxState → Prop) :
  triple P (mret a) (λ _, P) R.
Proof. by intros t HP. Qed.

Lemma triple_fail {A} (P : TxState → Prop) (e : Error) (Q : A → TxState → Prop)
    (R : Error → TxState → Prop) :
  (∀ t, P t → R e t) → triple P (fail e) Q R.
Proof. intros HR t HP. by apply HR. Qed.

Lemma triple_lift {A} (P : TxState → Prop) (r : result A) (R : Error → TxState → Prop) :
  (∀ e t, r = Err e → P t → R e t) → triple P (lift r) (λ _, P) R.
Proof. intros HR t HP. unfold lift. destruct r; [done|by apply HR]. Qed.

Lemma triple_check (P : TxState → Prop) (o : option Error) (R : Error → TxState → Prop) :
  (∀ e t, o = Some e → P t → R e t) → triple P (check o) (λ _, P) R.
Proof. intros HR t HP. unfold check. destruct o; [by apply HR|done]. Qed.

Lemma triple_wrap {A} (P : TxState → Prop) (msg : string) (m : Body A)
    (Q : A → TxState → Prop) (R R' : Error → TxState → Prop) :
  triple P m Q R' → (∀ e t, R' e t → R (ErrWrap e msg) t) → triple P (wrap msg m) Q R.
Proof.
  intros Hm HR t HP. specialize (Hm t HP). unfold wrap.
  destruct (m t) as [[a|e] t1]; [done|by apply HR].
Qed.

Lemma quiet_bind {A B} cr (m : Body A) (f : A → Body B) :
  quiet cr m → (∀ a, quiet cr (f a)) → quiet cr (m ≫= f).
Proof. intros Hm Hf. by eapply triple_bind. Qed.

Lemma quiet_ret {A} cr (a : A) : quiet cr (mret a).
Proof. apply triple_ret. Qed.

Lemma quiet_fail {A} cr (e : Error) : quiet cr (fail e : Body A).
Proof. by apply triple_fail. Qed.

Lemma quiet_lift {A} cr (r : result A) : quiet cr (lift r).
Proof. by apply triple_lift. Qed.

Lemma quiet_check cr (o : option Error) : quiet cr (check o).
Proof. by apply triple_check. Qed.

Lemma quiet_wrap {A} cr (msg : string) (m : Body A) : quiet cr m → quiet cr (wrap msg m).
Proof. intros Hm. by eapply triple_wrap. Qed.

Lemma quiet_draw cr : quiet cr draw.
Proof. by intros t Ht. Qed.

Lemma quiet_readPending cr : quiet cr readPending.
Proof. by intros t Ht. Qed.

Lemma quiet_readSnapshot cr : quiet cr readSnapshot.
Proof. by intros t Ht. Qed.

Lemma quiet_write cr (f : Store → Store) :
  (∀ s, credentials (f s) = credentials s) → quiet cr (writePending f).
Proof. intros Hf t Ht. unfold credentialsAre in *. simpl. by rewrite Hf. Qed.

Lemma quiet_builderStep cr (step : BuilderStep) (msg : string) :
  quiet cr (builderStep step msg).
Proof. apply quiet_wrap, quiet_check. Qed.

Lemma quiet_drawFreeIndex cr (fuel : nat) (pool : gset N) :
  quiet cr (drawFreeIndex fuel pool).
Proof.
  induction fuel as [|fuel IH]; simpl; [apply quiet_fail|].
  apply quiet_bind; [apply quiet_draw|]. intros n.
  case_bool_decide; [apply IH|apply quiet_ret].
Qed.

Create HintDb quiet.
#[local] Hint Resolve quiet_ret quiet_fail quiet_lift quiet_check quiet_wrap quiet_draw
  quiet_readPending quiet_readSnapshot quiet_builderStep quiet_drawFreeIndex : quiet.

Lemma quiet_createStatusListEntryForCredential cr (credID : string)
    (request : CreateCredentialRequest) (statusMetadata : StatusListCredentialMetadata) :
  quiet cr (createStatusListEntryForCredential credID request statusMetadata).
Proof.
  unfold createStatusListEntryForCredential, StoreStatusListCredentialTx.
  repeat first
    [ solve [auto with quiet]
    | apply quiet_write; by intros []
    | apply quiet_bind; [|intros ?]
    | match goal with |- quiet _ (match ?x with _ => _ end) => destruct x end ].
Qed.

(** ** Signing with a key that cannot be used *)

Lemma signCredentialJWT_keyError (verificationMethodID : string)
    (cred : VerifiableCredential) (e : Error) :
  keyError (vc_Issuer cred) verificationMethodID = Some e →
  signCredentialJWT verificationMethodID cred = Err e.
Proof.
  unfold keyError, signCredentialJWT.
  destruct (getKey _) as [gotKey|e']; [|by intros [= <-]].
  destruct (negb _); [by intros [= <-]|].
  destruct (k_Revoked gotKey); [by intros [= <-]|discriminate].
Qed.

Lemma signingFailsWith_new (signErr : Error) (msg : string) :
  signingFailsWith signErr (ErrNew msg).
Proof. intros e0. discriminate. Qed.

Ltac other_message :=
  let Hmsg := fresh in
  unfold signingFailsWith; intros ? ? Hmsg; discriminate Hmsg.

Section CreateWithBadKey.
Variable cr : gmap string StoredCredential.
Variable signErr : Error.

Lemma step_wrap {A} (msg : string) (m : Body A) :
  quiet cr m → (∀ e, signingFailsWith signErr (ErrWrap e msg)) →
  triple (credentialsAre cr) (wrap msg m) (λ _, credentialsAre cr)
         (keepsCredentials cr signErr).
Proof.
  intros Hm HE. eapply triple_wrap; [exact Hm|]. intros e t Ht. split; [done|apply HE].
Qed.

Lemma step_builder (step : BuilderStep) (msg : string) :
  (∀ e, signingFailsWith signErr (ErrWrap e msg)) →
  triple (credentialsAre cr) (builderStep step msg) (λ _, credentialsAre cr)
         (keepsCredentials cr signErr).
Proof. intros HE. apply step_wrap; [apply quiet_check|done]. Qed.

Lemma step_draw : triple (credentialsAre cr) draw (λ _, credentialsAre cr)
         (keepsCredentials cr signErr).
Proof. by intros t Ht. Qed.

Lemma step_fail {A} (msg : string) :
  triple (credentialsAre cr) (fail (ErrNew msg) : Body A) (λ _, credentialsAre cr)
         (keepsCredentials cr signErr).
Proof. apply triple_fail. intros t Ht. split; [done|apply signingFailsWith_new]. Qed.

Lemma createCredential_bad_key (request : CreateCredentialRequest)
    (statusMetadata : StatusListCredentialMetadata) :
  keyError (req_Issuer request) (req_FullyQualifiedVerificationMethodID request) = Some signErr →
  triple (credentialsAre cr) (createCredential request statusMetadata) (λ _ _, False)
         (keepsCredentials cr signErr).
Proof.
  intros Hkey. unfold createCredential.
  destruct (negb (isStatusValid request)).
  { apply triple_fail. intros t Ht. split; [done|apply signingFailsWith_new]. }
  repeat first
    [ apply triple_ret
    | apply step_draw
    | apply step_fail
    | apply step_builder; other_message
    | apply step_wrap;
      [ auto using quiet_createStatusListEntryForCredential with quiet | other_message ]
    | lazymatch goal with
      | |- triple _ (wrap "signing credential" _ ≫= _) _ _ => fail
      | |- triple _ (_ ≫= _) _ _ =>
        apply (triple_bind _ _ _ (λ _, credentialsAre cr)); [|intros ?]
      end
    | match goal with
      | |- triple _ (match ?x with _ => _ end) _ _ => destruct x
      | |- triple _ (let '(_, _) := ?x in _) _ _ => destruct x
      end ].
  intros t Ht.
  erewrite bind_Err_l;
    [|unfold wrap, lift;
      match goal with
      | |- context [signCredentialJWT ?vm ?c] =>
        by rewrite (signCredentialJWT_keyError vm c signErr Hkey)
      end].
  split; [done|]. by intros e0 [= ->].
Qed.

End CreateWithBadKey.

(** C4, as the code has it.  When the signing key of a request is not found,
    is controlled by someone else than the issuer, or is revoked, the
    transaction body of [CreateCredential] fails whatever else the request
    holds, and it fails with the pending credential records as they were: no
    step before the signature stores a credential.  [CreateCredential] then
    returns an error and leaves the database unchanged.  For a revoked key
    controlled by the issuer the signing step answers [cannot use revoked
    key<id>], and that is the cause of every error [CreateCredential] reports
    from the signing step. *)
Theorem CreateCredential_unusable_key (request : CreateCredentialRequest) (w : World) :
  let issuer := req_Issuer request in
  let verificationMethodID := req_FullyQualifiedVerificationMethodID request in
  let keyStoreID := fullyQualifiedVerificationMethodID issuer verificationMethodID in
  (isErr (getKey keyStoreID) = true
   ∨ ∃ gotKey, getKey keyStoreID = Ok gotKey
               ∧ (k_Controller gotKey ≠ issuer ∨ k_Revoked gotKey = true)) →
  (∀ statusMetadata t, ∃ e t',
     createCredential request statusMetadata t = (Err e, t')
     ∧ credentials (pending t') = credentials (pending t))
  ∧ ∃ e w',
      CreateCredential (@Execute) request w = (Err e, w')
      ∧ db w' = db w
      ∧ ∀ gotKey, getKey keyStoreID = Ok gotKey →
                  k_Controller gotKey = issuer →
                  k_Revoked gotKey = true →
          (∀ cred, vc_Issuer cred = issuer →
                   signCredentialJWT verificationMethodID cred
                   = Err (ErrNew ("cannot use revoked key<" ++ k_ID gotKey ++ ">")))
          ∧ (∀ e0, e = ErrWrap (ErrWrap e0 "signing credential") "execute" →
                   e0 = ErrNew ("cannot use revoked key<" ++ k_ID gotKey ++ ">")).
Proof.
  intros issuer verificationMethodID keyStoreID Hbad.
  assert (∃ signErr, keyError issuer verificationMethodID = Some signErr) as [signErr Hkey].
  { unfold keyError. fold keyStoreID.
    destruct Hbad as [Hnone | (gotKey & -> & [Hc | Hr])].
    - destruct (getKey keyStoreID); [discriminate|eauto].
    - rewrite bool_decide_false by done. simpl. eauto.
    - rewrite Hr. destruct (negb _); eauto. }
  assert (Hbody : ∀ statusMetadata t,
    ∃ e t', createCredential request statusMetadata t = (Err e, t')
            ∧ credentials (pending t') = credentials (pending t)
            ∧ signingFailsWith signErr e).
  { intros md t.
    pose proof (createCredential_bad_key (credentials (pending t)) signErr request md Hkey t
                  eq_refl) as Hrun.
    destruct (createCredential request md t) as [[c|e] t']; [done|].
    destruct Hrun as [Hcr Hsign]. by exists e, t'. }
  split.
  { intros md t. destruct (Hbody md t) as (e & t' & ? & ? & _). eauto. }
  unfold CreateCredential.
  destruct (requestIsValid request) as [e|].
  { exists (ErrWrap e "validating request"), w. split; [done|]. split; [done|].
    intros gotKey Hget Hc Hr. split; [|intros e0; discriminate].
    intros cred Hissuer. apply signCredentialJWT_keyError. rewrite Hissuer.
    unfold keyError. fold keyStoreID. rewrite Hget, bool_decide_true by done.
    simpl. by rewrite Hr. }
  destruct (statusWatchKeys request) as [watchKeys md].
  destruct (Hbody md {| snapshot := db w; pending := db w; tick := entropy w |})
    as (e & t' & Hrun & _ & Hsign).
  unfold executeWrapped, createCredentialFunc. rewrite (Execute_Err _ _ _ _ _ Hrun).
  eexists _, _. split; [reflexivity|]. split; [done|].
  intros gotKey Hget Hc Hr.
  assert (signErr = ErrNew ("cannot use revoked key<" ++ k_ID gotKey ++ ">")) as ->.
  { revert Hkey. unfold keyError. fold keyStoreID.
    rewrite Hget, bool_decide_true by done. simpl. rewrite Hr. by intros [= <-]. }
  split.
  - intros cred Hissuer. apply signCredentialJWT_keyError. by rewrite Hissuer.
  - intros e0 [= ->]. by apply Hsign.
Qed.

(** ** What a successful issuance has done *)

Lemma anyIsString_true (id : Any) (subject : string) :
  anyIsString id subject = true ↔ id = AStr subject.
Proof.
  destruct id; simpl; try (split; [discriminate|by intros [=]]).
  rewrite bool_decide_eq_true. split; [by intros ->|by intros [= ->]].
Qed.

Lemma createCredential_Ok (request : CreateCredentialRequest)
    (statusMetadata : StatusListCredentialMetadata) (t t' : TxState) (c : Container) :
  createCredential request statusMetadata t = (Ok c, t') →
  ∃ t0,
    isStatusValid request = true
    ∧ (∀ id, req_Data request !! VerifiableCredentialIDProperty = Some id →
             id = AStr (req_Subject request))
    ∧ c_ID c = uuidOf (tick t)
    ∧ vc_Issuer (c_Credential c) = req_Issuer request
    ∧ vc_CredentialSubject (c_Credential c)
      = <[VerifiableCredentialIDProperty := AStr (req_Subject request)]> (req_Data request)
    ∧ signCredentialJWT (req_FullyQualifiedVerificationMethodID request) (c_Credential c)
      = Ok (c_CredentialJWT c)
    ∧ c_Revoked c = false
    ∧ c_Suspended c = false
    ∧ pending t' = putCredential c (pending t0).
Proof.
  intros Hrun. unfold createCredential in Hrun.
  destruct (isStatusValid request) eqn:Hvalid; simpl in Hrun; [|by apply fail_Ok in Hrun].
  repeat body_step Hrun.
  apply mret_Ok in Hrun as [-> ->].
  match goal with Hd : draw t = _ |- _ => injection Hd as <- _ end.
  match goal with
  | Hs : wrap "signing credential" _ _ = _ |- _ =>
    apply wrap_Ok, lift_Ok in Hs as [Hsign _]
  end.
  match goal with
  | Hs : wrap "saving credential" _ ?t1 = (_, ?t2) |- _ =>
    exists t1; assert (pending t2 = putCredential
      (ltac:(match type of Hs with context [StoreCredentialTx ?c] => exact c end))
      (pending t1)) as Hpending by (by injection Hs as _ <-)
  end.
  repeat split; try done.
  intros id Hid.
  match goal with
  | Hc : match req_Data request !! _ with _ => _ end _ = _ |- _ =>
    rewrite Hid in Hc; destruct (anyIsString id (req_Subject request)) eqn:Heq;
      [by apply anyIsString_true|by apply fail_Ok in Hc]
  end.
Qed.

Lemma CreateCredential_Ok (request : CreateCredentialRequest) (w w' : World) (c : Container) :
  CreateCredential (@Execute) request w = (Ok c, w') →
  ∃ statusMetadata t t',
    createCredential request statusMetadata t = (Ok c, t') ∧ db w' = pending t'.
Proof.
  unfold CreateCredential. destruct (requestIsValid request); [discriminate|].
  destruct (statusWatchKeys request) as [watchKeys md]. intros Hrun.
  apply executeWrapped_inv in Hrun as (t' & [(a & Hbody & [= <-] & Hdb) | (e & _ & ? & _)]);
    [|discriminate].
  eexists md, _, t'. split; [exact Hbody|done].
Qed.

(** C8. After a successful [CreateCredential], [GetCredential] with the local
    id of the returned container reads back the same VC document and the same
    JWT, with [Revoked] and [Suspended] false.  The stored record has to pass
    the validity check of [GetCredential], as the records of issued
    credentials do. *)
Theorem CreateCredential_then_GetCredential (request : CreateCredentialRequest)
    (w w' : World) (c : Container) :
  CreateCredential (@Execute) request w = (Ok c, w') →
  storedIsValid (buildStoredCredential c) = true →
  ∃ got, GetCredential (c_ID c) w' = (Ok got, w')
         ∧ c_ID got = c_ID c
         ∧ c_Credential got = c_Credential c
         ∧ c_CredentialJWT got = c_CredentialJWT c
         ∧ c_Revoked got = false
         ∧ c_Suspended got = false.
Proof.
  intros Hcreate Hvalid.
  apply CreateCredential_Ok in Hcreate as (md & t & t' & Hbody & Hdb).
  apply createCredential_Ok in Hbody as (t0 & _ & _ & _ & _ & _ & _ & Hr & Hs & Hpending).
  unfold GetCredential, storage_GetCredential.
  rewrite Hdb, Hpending. simpl. rewrite lookup_insert_eq, Hvalid. simpl.
  eexists. split; [reflexivity|]. by simpl.
Qed.

(** ** The subject of an issued credential *)

(** C9, as the code has it.  When the data of a request holds an [id] that is
    not the requested subject, creation fails and the database is unchanged;
    for a request that
    reaches the check (one status at most, id and issuer accepted by the
    builder) the error is [cannot set subject<S>, data already contains a
    different ID value: ...], wrapped by [execute].  Otherwise, whenever a
    credential is issued, its [credentialSubject] is the data map with [id]
    set to the requested subject. *)
Theorem CreateCredential_subject (request : CreateCredentialRequest) (w : World) :
  (∀ id, req_Data request !! VerifiableCredentialIDProperty = Some id →
         id ≠ AStr (req_Subject request) →
     (∃ e w', CreateCredential (@Execute) request w = (Err e, w') ∧ db w' = db w)
     ∧ (requestIsValid request = None →
        isStatusValid request = true →
        builderCheck (StepSetID (servicePath ++ "/" ++ uuidOf (entropy w))) = None →
        builderCheck (StepSetIssuer (req_Issuer request)) = None →
        ∃ w', CreateCredential (@Execute) request w
              = (Err (ErrWrap
                        (ErrNew ("cannot set subject<" ++ req_Subject request
                                 ++ ">, data already contains a different ID value: "
                                 ++ fmtS id)) "execute"), w')
              ∧ db w' = db w))
  ∧ (∀ c w', CreateCredential (@Execute) request w = (Ok c, w') →
             vc_CredentialSubject (c_Credential c)
             = <[VerifiableCredentialIDProperty := AStr (req_Subject request)]>
                 (req_Data request)).
Proof.
  split.
  - intros id Hid Hne. split.
    + destruct (CreateCredential (@Execute) request w) as [[c|e] w'] eqn:Hrun.
      * apply CreateCredential_Ok in Hrun as (md & t & t' & Hbody & _).
        apply createCredential_Ok in Hbody as (_ & _ & Hsame & _).
        by destruct Hne; apply Hsame.
      * exists e, w'. split; [done|].
        unfold CreateCredential in Hrun.
        destruct (requestIsValid request); [by injection Hrun as _ <-|].
        destruct (statusWatchKeys request) as [watchKeys md].
        apply executeWrapped_inv in Hrun as (t' & [(a & _ & ? & _) | (e' & _ & _ & Hdb)]);
          [discriminate|done].
    + intros Hreq Hvalid HsetID Hissuer. unfold CreateCredential. rewrite Hreq.
      destruct (statusWatchKeys request) as [watchKeys md].
      unfold executeWrapped, createCredentialFunc.
      erewrite Execute_Err; [eexists; split; [reflexivity|done]|].
      unfold createCredential. rewrite Hvalid. simpl.
      unfold mbind, Body_bind, draw, builderStep, wrap, check. simpl.
      rewrite HsetID, Hissuer, Hid.
      assert (anyIsString id (req_Subject request) = false) as ->; [|done].
      destruct (anyIsString id (req_Subject request)) eqn:Heq; [|done].
      by apply anyIsString_true in Heq.
  - intros c w' Hrun.
    apply CreateCredential_Ok in Hrun as (md & t & t' & Hbody & _).
    by apply createCredential_Ok in Hbody as (_ & _ & _ & _ & _ & Hsubject & _).
Qed.

(** ** Status updates that change nothing *)

Lemma statusListCredentialWatchKey_Ok (s : Store) (id : string) (c : StoredCredential)
    (entry : StatusList2021Entry) (slc : StoredCredential) :
  credentials s !! id = Some c →
  vc_CredentialStatus (sc_Credential c) = Some entry →
  sle_StatusPurpose entry ≠ "" →
  GetStatusListCredentialKeyData s (sc_Issuer c) (sc_Schema c) (sle_StatusPurpose entry)
  = Some slc →
  statusListCredentialWatchKey s id
  = Ok (Some (GetStatusListCredentialWatchKey (sc_Issuer c) (sc_Schema c)
                                              (sle_StatusPurpose entry))).
Proof.
  intros Hc Hentry Hpurpose Hslc.
  unfold statusListCredentialWatchKey, storage_GetCredential, HasCredentialStatus,
    GetStatusPurpose.
  rewrite Hc, Hentry. simpl.
  rewrite bool_decide_false by (by rewrite string_length_0).
  by rewrite Hslc.
Qed.

(** C2, as the code has it.  For a stored credential that passes the preamble
    (it has a [credentialStatus] with a purpose, and its triple has a status
    list credential) and the validity check, a request that does not assert
    both flags and whose flags equal the stored ones returns the current
    status and leaves the world as it was: the stored record and the status
    list credential are not rewritten, and the clock is not read, so no status
    list is generated or signed. *)
Theorem UpdateCredentialStatus_same_flags (request : UpdateCredentialStatusRequest)
    (w : World) (c : StoredCredential) (entry : StatusList2021Entry)
    (slc : StoredCredential) :
  credentials (db w) !! upd_ID request = Some c →
  storedIsValid c = true →
  vc_CredentialStatus (sc_Credential c) = Some entry →
  sle_StatusPurpose entry ≠ "" →
  GetStatusListCredentialKeyData (db w) (sc_Issuer c) (sc_Schema c) (sle_StatusPurpose entry)
  = Some slc →
  upd_Suspended request && upd_Revoked request = false →
  sc_Revoked c = upd_Revoked request →
  sc_Suspended c = upd_Suspended request →
  UpdateCredentialStatus (@Execute) request w
  = (Ok {| st_ID := ""; st_Revoked := sc_Revoked c; st_Suspended := sc_Suspended c |}, w).
Proof.
  intros Hc Hvalid Hentry Hpurpose Hslc Hboth Hr Hs.
  unfold UpdateCredentialStatus.
  rewrite (statusListCredentialWatchKey_Ok _ _ _ _ _ Hc Hentry Hpurpose Hslc).
  unfold executeWrapped, updateCredentialStatusFunc.
  erewrite Execute_Ok; cycle 1.
  { unfold updateCredentialStatusBusinessLogic. rewrite Hboth.
    unfold mbind, Body_bind, readSnapshot, wrap, lift, storage_GetCredential. simpl.
    rewrite Hc, Hvalid. simpl.
    rewrite !bool_decide_true by done. reflexivity. }
  simpl. by rewrite world_eta.
Qed.

(** ** Status updates for the wrong purpose *)

Lemma prepareCredentialsForStatusList_mismatch (purpose : string)
    (creds : list VerifiableCredential) (cred : VerifiableCredential)
    (entry : StatusList2021Entry) :
  Forall (λ c, is_Some (vc_CredentialStatus c)) creds →
  vc_CredentialStatus cred = Some entry →
  sle_StatusPurpose entry ≠ purpose →
  ∃ credID entryPurpose,
    entryPurpose ≠ purpose
    ∧ prepareCredentialsForStatusList purpose (creds ++ [cred])%list
      = Err (differentPurposeError credID entryPurpose purpose).
Proof.
  intros Hall Hentry Hne. induction Hall as [|c creds [e He] _ IH]; simpl.
  - rewrite Hentry, bool_decide_false by done. by exists (vc_ID cred), (sle_StatusPurpose entry).
  - rewrite He. case_bool_decide as Hp.
    + destruct IH as (credID & p & Hpne & ->). by exists credID, p.
    + by exists (vc_ID c), (sle_StatusPurpose e).
Qed.

Lemma statusCredsLoop_have_status (request : UpdateCredentialStatusRequest)
    (gotCred : StoredCredential) (creds : list StoredCredential)
    (acc : list VerifiableCredential) :
  Forall (λ c, is_Some (vc_CredentialStatus c)) acc →
  Forall (λ c, is_Some (vc_CredentialStatus c)) (statusCredsLoop request gotCred creds acc).
Proof.
  revert acc. induction creds as [|cred creds IH]; intros acc Hacc; simpl; [done|].
  assert (HasCredentialStatus cred = true →
          Forall (λ c, is_Some (vc_CredentialStatus c)) (acc ++ [sc_Credential cred])%list)
    as Hsnoc.
  { intros Hs. apply Forall_app. split; [done|]. apply Forall_singleton.
    unfold HasCredentialStatus in Hs. by destruct (vc_CredentialStatus _). }
  case_bool_decide; [by apply IH|].
  destruct (upd_Revoked request && HasCredentialStatus cred && sc_Revoked cred) eqn:Hr.
  { apply IH, Hsnoc. by destruct (upd_Revoked request), (HasCredentialStatus cred). }
  destruct (upd_Suspended request && HasCredentialStatus cred && sc_Suspended cred) eqn:Hsu.
  { apply IH, Hsnoc. by destruct (upd_Suspended request), (HasCredentialStatus cred). }
  by apply IH.
Qed.

Lemma parseIDFromURI_long (uri : string) :
  (uuidStandardFormLen ≤ String.length uri)%nat → ∃ id, parseIDFromURI uri = Ok id.
Proof.
  intros Hlen. unfold parseIDFromURI. rewrite bool_decide_false by lia. eauto.
Qed.

(** C5, as the code has it.  A request that asserts exactly one flag, on a
    stored credential whose status entry has the other purpose, fails with
    [credential<..> has a different status purpose<X> value than the status
    credential<Y>], where [Y] is the purpose of the request and [X] differs
    from it; the database, and with it the stored flags of the credential, is
    unchanged.  The credential passes the preamble and the validity check, its
    status entry names a status list URI that ends in a UUID, and its stored
    flags are not already those of the request. *)
Theorem UpdateCredentialStatus_other_purpose (request : UpdateCredentialStatusRequest)
    (w : World) (c : StoredCredential) (entry : StatusList2021Entry)
    (slc : StoredCredential) :
  credentials (db w) !! upd_ID request = Some c →
  storedIsValid c = true →
  vc_CredentialStatus (sc_Credential c) = Some entry →
  sle_StatusPurpose entry ≠ "" →
  GetStatusListCredentialKeyData (db w) (sc_Issuer c) (sc_Schema c) (sle_StatusPurpose entry)
  = Some slc →
  (uuidStandardFormLen ≤ String.length (sle_StatusListCredential entry))%nat →
  upd_Revoked request ≠ upd_Suspended request →
  requestedPurpose request ≠ sle_StatusPurpose entry →
  (sc_Revoked c, sc_Suspended c) ≠ (upd_Revoked request, upd_Suspended request) →
  ∃ credID entryPurpose e w',
    UpdateCredentialStatus (@Execute) request w = (Err e, w')
    ∧ entryPurpose ≠ requestedPurpose request
    ∧ Cause e = differentPurposeError credID entryPurpose (requestedPurpose request)
    ∧ e = ErrWrap (ErrWrap (ErrWrap (ErrWrap (Cause e)
            "could not generate status list credential")
            "could not generate status list") "updating credential") "execute"
    ∧ db w' = db w
    ∧ credentials (db w') !! upd_ID request = Some c.
Proof.
  intros Hc Hvalid Hentry Hpurpose Hslc Hlen Hone Hother Hflags.
  assert (upd_Suspended request && upd_Revoked request = false) as Hboth
    by (by destruct (upd_Suspended request), (upd_Revoked request)).
  assert (upd_Revoked request || upd_Suspended request = true) as Hany
    by (by destruct (upd_Suspended request), (upd_Revoked request)).
  destruct (parseIDFromURI_long _ Hlen) as [slcID Hparse].
  set (creds := GetCredentialsByIssuerAndSchema (db w) (sc_Issuer c) (sc_Schema c)).
  destruct (prepareCredentialsForStatusList_mismatch (requestedPurpose request)
              (statusCredsLoop request c creds []) (sc_Credential c) entry)
    as (credID & entryPurpose & Hne & Hprepare); [|done|done|].
  { by apply statusCredsLoop_have_status. }
  exists credID, entryPurpose.
  unfold UpdateCredentialStatus.
  rewrite (statusListCredentialWatchKey_Ok _ _ _ _ _ Hc Hentry Hpurpose Hslc).
  unfold executeWrapped, updateCredentialStatusFunc.
  erewrite Execute_Err; cycle 1.
  { unfold updateCredentialStatusBusinessLogic. rewrite Hboth.
    unfold mbind at 1 2, Body_bind, readSnapshot, wrap at 1, lift at 1, storage_GetCredential.
    simpl. rewrite Hc, Hvalid. simpl.
    assert (bool_decide (sc_Revoked c = upd_Revoked request)
    && bool_decide (sc_Suspended c = upd_Suspended request) = false) as ->.
    { apply andb_false_iff. rewrite !bool_decide_eq_false.
    destruct (decide (sc_Revoked c = upd_Revoked request)) as [Hr|]; [|by left].
    right. intros Hs. apply Hflags. by rewrite Hr, Hs. }
    unfold updateCredentialStatus. rewrite Hentry.
    rewrite bool_decide_false by (unfold uuidStandardFormLen in Hlen; lia).
    unfold mbind, Body_bind, wrap, lift, StoreCredentialTx, writePending, readSnapshot, draw.
    simpl. rewrite Hparse. simpl.
    unfold GenerateStatusList2021Credential, revokedOrSuspendedStatusCreds.
    rewrite Hany. fold creds. fold (requestedPurpose request). by rewrite Hprepare. }
  eexists _, _. split; [reflexivity|]. simpl. by repeat split.
Qed.

(** ** Batches of issuances *)

Lemma Issued_length (t t' : TxState) (requests : list CreateCredentialRequest)
    (containers : list Container) :
  Issued t requests containers t' → length containers = length requests.
Proof. induction 1; simpl; congruence. Qed.

Lemma Issued_each (t t' : TxState) (requests : list CreateCredentialRequest)
    (containers : list Container) :
  Issued t requests containers t' →
  Forall2 (λ request c, ∃ t1 t2,
             createCredential request (snd (statusWatchKeys request)) t1 = (Ok c, t2))
          requests containers.
Proof. induction 1; constructor; eauto. Qed.

Lemma batchCreateLoop_outcome (requests : list CreateCredentialRequest) (i : nat)
    (credentials : list Container) (t : TxState) :
  (i + length requests ≤ length credentials)%nat →
  match batchCreateLoop i (batchFuncs requests) credentials t with
  | (Ok out, t') =>
    ∃ containers, Issued t requests containers t'
      ∧ out = (take i credentials ++ containers
               ++ drop (i + length requests) credentials)%list
  | (Err e, _) => FailsAt t requests e
  end.
Proof.
  revert i credentials t.
  induction requests as [|request requests IH]; intros i credentials t Hlen; simpl.
  - exists []. split; [constructor|]. simpl. by rewrite Nat.add_0_r, take_drop.
  - unfold mbind, Body_bind, createCredentialFunc.
    destruct (createCredential request _ t) as [[c|e] t1] eqn:Hrun.
    + simpl in Hlen.
      specialize (IH (S i) (<[i := c]> credentials) t1).
      rewrite length_insert in IH. specialize (IH ltac:(lia)).
      destruct (batchCreateLoop _ _ _ t1) as [[out|e] t2].
      * destruct IH as (containers & Hissued & ->).
        exists (c :: containers). split; [by econstructor|].
        rewrite (take_S_r _ _ c) by (apply list_lookup_insert_eq; lia).
        rewrite take_insert_ge by lia. rewrite drop_insert_lt by lia.
        rewrite <- app_assoc. simpl. by rewrite Nat.add_succ_r.
      * destruct IH as (before & r & rest & containers & ta & tb & -> & Hissued & Hfail).
        exists (request :: before), r, rest, (c :: containers), ta, tb.
        split; [done|]. split; [by econstructor|done].
    + exists [], request, requests, [], t, t1. split; [done|]. split; [constructor|done].
Qed.

Lemma FailsAt_batchCreateFunc (requests : list CreateCredentialRequest) (t : TxState)
    (e : Error) :
  FailsAt t requests e →
  ∀ i credentials, ∃ t', batchCreateLoop i (batchFuncs requests) credentials t = (Err e, t').
Proof.
  intros (before & request & rest & containers & t1 & t2 & -> & Hissued & Hfail).
  induction Hissued as [t|t ta tb r c requests containers Hrun _ IH]; intros i credentials;
    simpl; unfold mbind, Body_bind, createCredentialFunc.
  - rewrite Hfail. by eexists.
  - rewrite Hrun. by apply IH.
Qed.

Lemma statusWatchKeys_item (request : CreateCredentialRequest) :
  statusWatchKeys request = (itemWatchKeys request, itemMetadata request).
Proof.
  unfold statusWatchKeys, itemWatchKeys, itemMetadata, hasStatus, isStatusValid,
    statusPurposeOf, tripleWatchKeys.
  by destruct (req_Revocable request), (req_Suspendable request).
Qed.

Lemma batchWatchKeys_items (requests : list CreateCredentialRequest) :
  batchWatchKeys requests = concat (map itemWatchKeys requests).
Proof.
  unfold batchWatchKeys. f_equal. apply map_ext. intros request.
  by rewrite statusWatchKeys_item.
Qed.

(** C7. [BatchCreateCredentials] hands one closure, which runs the closure of
    every request in request order, to a single [Execute], whatever [Execute]
    the storage gives.  The watch keys of that call are, in request order,
    the three keys (status list credential, index pool, cursor) of the triple
    of issuer, schema and purpose of every request that asks for exactly one
    status, and no other key; the closure of a request is [createCredential]
    with the metadata of those same keys.  When a request fails after the
    ones before it were issued, the batch returns that error wrapped by
    [execute] and the database is unchanged, so that no credential of the
    batch is persisted; every error of the batch arises so.  When the batch
    succeeds, the response holds the container of each request, one per
    request and in request order, and the database is the write set of the
    whole run. *)
Theorem BatchCreateCredentials_all_or_nothing (requests : list CreateCredentialRequest)
    (w : World) :
  let start := {| snapshot := db w; pending := db w; tick := entropy w |} in
  let watchKeys := concat (map itemWatchKeys requests) in
  (∀ exec, BatchCreateCredentials exec requests
           = executeWrapped exec (batchCreateFunc requests) watchKeys)
  ∧ (∀ k, k ∈ watchKeys
          ↔ ∃ request, request ∈ requests
              ∧ req_Revocable request ≠ req_Suspendable request
              ∧ k ∈ tripleWatchKeys (req_Issuer request) (req_SchemaID request)
                                    (statusPurposeOf request))
  ∧ (batchFuncs requests
     = map (λ request, createCredential request (itemMetadata request)) requests
     ∧ ∀ request, snd (statusWatchKeys request) = itemMetadata request)
  ∧ (∀ e, FailsAt start requests e →
          ∃ w', BatchCreateCredentials (@Execute) requests w = (Err (ErrWrap e "execute"), w')
                ∧ db w' = db w)
  ∧ (∀ e w', BatchCreateCredentials (@Execute) requests w = (Err e, w') →
             db w' = db w ∧ ∃ e0, e = ErrWrap e0 "execute" ∧ FailsAt start requests e0)
  ∧ (∀ containers w',
       BatchCreateCredentials (@Execute) requests w = (Ok containers, w') →
       length containers = length requests
       ∧ ∃ t', Issued start requests containers t' ∧ db w' = pending t').
Proof.
  intros start watchKeys. split; [|split; [|split; [|split; [|split]]]].
  - intros exec. unfold BatchCreateCredentials, watchKeys. by rewrite batchWatchKeys_items.
  - intros k. unfold watchKeys. clear start watchKeys.
    assert (∀ request, k ∈ itemWatchKeys request
              ↔ req_Revocable request ≠ req_Suspendable request
                ∧ k ∈ tripleWatchKeys (req_Issuer request) (req_SchemaID request)
                                      (statusPurposeOf request)) as Hitem.
    { intros request. unfold itemWatchKeys.
      destruct (req_Revocable request), (req_Suspendable request); simpl;
        first [ by split; [intros ?%elem_of_nil|intros [? _]]
              | by split; [intros ?|intros [_ ?]] ]. }
    induction requests as [|request requests IH]; simpl.
    + split; [by intros ?%elem_of_nil|]. by intros (r & ?%elem_of_nil & _).
    + rewrite elem_of_app, IH, Hitem. split.
      * intros [[Hone Hk] | (r & Hin & Hk)]; [exists request|exists r];
          (split; [|done]); [left|by right].
      * intros (r & Hin & Hk). apply elem_of_cons in Hin as [-> | Hin]; [by left|].
        right. by exists r.
  - split; [|intros request; by rewrite statusWatchKeys_item].
    unfold batchFuncs. apply map_ext. intros request.
    unfold createCredentialFunc. by rewrite statusWatchKeys_item.
  - intros e Hfail.
    destruct (FailsAt_batchCreateFunc _ _ _ Hfail 0
                (replicate (length requests) zeroContainer)) as [t' Hrun].
    unfold BatchCreateCredentials, executeWrapped, batchCreateFunc.
    rewrite (Execute_Err _ _ _ _ _ Hrun). by eexists.
  - intros e w' Hrun. unfold BatchCreateCredentials in Hrun.
    apply executeWrapped_inv in Hrun as (t' & [(a & _ & ? & _) | (e0 & Hbody & [= ->] & Hdb)]);
      [discriminate|].
    split; [done|]. exists e0. split; [done|].
    pose proof (batchCreateLoop_outcome requests 0
                  (replicate (length requests) zeroContainer) start) as Hout.
    rewrite length_replicate in Hout. specialize (Hout ltac:(simpl; lia)).
    unfold batchCreateFunc in Hbody. fold start in Hbody. by rewrite Hbody in Hout.
  - intros containers w' Hrun. unfold BatchCreateCredentials in Hrun.
    apply executeWrapped_inv in Hrun as (t' & [(a & Hbody & [= <-] & Hdb) | (e0 & _ & ? & _)]);
      [|discriminate].
    pose proof (batchCreateLoop_outcome requests 0
                  (replicate (length requests) zeroContainer) start) as Hout.
    rewrite length_replicate in Hout. specialize (Hout ltac:(simpl; lia)).
    unfold batchCreateFunc in Hbody. fold start in Hbody. rewrite Hbody in Hout.
    destruct Hout as (issued & Hissued & Heq).
    simpl in Heq. rewrite drop_ge, app_nil_r in Heq by (rewrite length_replicate; lia).
    subst issued. split; [by eapply Issued_length|]. by exists t'.
Qed.

(** ** The credentials handed to the status-list generator *)

Lemma statusCredsLoop_others (request : UpdateCredentialStatusRequest)
    (gotCred : StoredCredential) (creds : list StoredCredential)
    (acc : list VerifiableCredential) :
  statusCredsLoop request gotCred creds acc = (acc ++ others request gotCred creds)%list.
Proof.
  revert acc. unfold others.
  induction creds as [|cred creds IH]; intros acc; simpl; [by rewrite app_nil_r|].
  rewrite filter_cons.
  case_bool_decide as Hid.
  { rewrite decide_False by (by intros [? _]). apply IH. }
  destruct (upd_Revoked request && HasCredentialStatus cred && sc_Revoked cred) eqn:Hr.
  { rewrite decide_True by (split; [done|unfold flagged; by rewrite Hr]).
    rewrite IH, fmap_cons. by rewrite <- app_assoc. }
  destruct (upd_Suspended request && HasCredentialStatus cred && sc_Suspended cred) eqn:Hs.
  { rewrite decide_True by (split; [done|unfold flagged; by rewrite Hr, Hs]).
    rewrite IH, fmap_cons. by rewrite <- app_assoc. }
  rewrite decide_False by (unfold flagged; rewrite Hr, Hs; by intros [_ ?]). apply IH.
Qed.

(** When the request asserts a flag, the generator receives every other
    stored credential of the issuer and schema that has a status and whose
    flag for that purpose is set, followed by the target. *)
Lemma revokedOrSuspendedStatusCreds_asserted (request : UpdateCredentialStatusRequest)
    (gotCred : StoredCredential) (creds : list StoredCredential) :
  upd_Revoked request || upd_Suspended request = true →
  revokedOrSuspendedStatusCreds request gotCred creds
  = (others request gotCred creds ++ [sc_Credential gotCred])%list.
Proof.
  intros Hany. unfold revokedOrSuspendedStatusCreds. by rewrite Hany, statusCredsLoop_others.
Qed.

(** When the request clears both flags, the generator receives no credential
    at all, whatever flags the other stored credentials carry. *)
Lemma revokedOrSuspendedStatusCreds_cleared (request : UpdateCredentialStatusRequest)
    (gotCred : StoredCredential) (creds : list StoredCredential) :
  upd_Revoked request = false →
  upd_Suspended request = false →
  revokedOrSuspendedStatusCreds request gotCred creds = [].
Proof.
  intros Hr Hs. unfold revokedOrSuspendedStatusCreds.
  rewrite Hr, Hs, statusCredsLoop_others. simpl. unfold others.
  induction creds as [|cred creds IH]; [done|].
  rewrite filter_cons, decide_False; [apply IH|].
  unfold flagged. rewrite Hr, Hs. by intros [_ ?].
Qed.

(** * Further properties *)

(** ** The id at the end of a URI *)

Lemma length_append (a b : string) :
  String.length (a ++ b) = String.length a + String.length b.
Proof.
  induction a as [|ch a IH]; [done|].
  change (S (String.length (a ++ b)) = S (String.length a + String.length b)). by rewrite IH.
Qed.

Lemma substring_all (s : string) : String.substring 0 (String.length s) s = s.
Proof. induction s as [|ch s IH]; [done|]. simpl. by rewrite IH. Qed.

Lemma substring_append (pre s : string) :
  String.substring (String.length pre) (String.length s) (pre ++ s) = s.
Proof.
  induction pre as [|ch pre IH]; [apply substring_all|].
  change (String.substring (String.length pre) (String.length s) (pre ++ s) = s). exact IH.
Qed.

Lemma substring_suffix (n : nat) (s : string) :
  (n ≤ String.length s)%nat →
  ∃ pre, s = pre ++ String.substring n (String.length s - n) s
         ∧ String.length (String.substring n (String.length s - n) s) = String.length s - n.
Proof.
  revert s. induction n as [|n IH]; intros s Hn.
  - exists "". rewrite Nat.sub_0_r, substring_all. done.
  - destruct s as [|ch s]; [simpl in Hn; lia|].
    destruct (IH s) as (pre & Hs & Hlen); [simpl in Hn; lia|].
    exists (String ch pre).
    change (String.substring (S n) (String.length (String ch s) - S n) (String ch s))
      with (String.substring n (String.length s - n) s).
    split; [|exact Hlen].
    change (String ch s = String ch (pre ++ String.substring n (String.length s - n) s)).
    by rewrite <-Hs.
Qed.

Lemma parseIDFromURI_cut (uri id : string) :
  parseIDFromURI uri = Ok id
  ↔ String.length id = uuidStandardFormLen ∧ ∃ pre, uri = pre ++ id.
Proof.
  unfold parseIDFromURI. split.
  - case_bool_decide as Hlen; [discriminate|]. intros [= <-].
    destruct (substring_suffix (String.length uri - uuidStandardFormLen) uri)
      as (pre & Huri & Hsub); [lia|].
    replace (String.length uri - (String.length uri - uuidStandardFormLen))
      with uuidStandardFormLen in * by lia.
    split; [exact Hsub|]. by exists pre.
  - intros (Hid & pre & ->).
    rewrite bool_decide_false by (rewrite length_append; lia).
    rewrite length_append, Hid, Nat.add_sub, <-Hid. by rewrite substring_append.
Qed.

(** X1. [parseIDFromURI] returns [id] exactly when [id] is the last 36 bytes
    of the URI, and fails exactly when the URI is shorter than 36 bytes, with
    [cannot infer status list credential id from "<uri>"]. *)
Theorem parseIDFromURI_suffix (uri : string) :
  (∀ id, parseIDFromURI uri = Ok id
         ↔ String.length id = uuidStandardFormLen ∧ ∃ pre, uri = pre ++ id)
  ∧ (∀ e, parseIDFromURI uri = Err e
          ↔ (String.length uri < uuidStandardFormLen)%nat
            ∧ e = ErrNew ("cannot infer status list credential id from " ++ fmtQ uri)).
Proof.
  split; [intros id; apply parseIDFromURI_cut|].
  unfold parseIDFromURI. intros e. case_bool_decide as Hlen.
  - split; [by intros [= <-]|by intros [_ ->]].
  - split; [discriminate|]. intros [? _]. lia.
Qed.

(** ** What a successful issuance returns *)

Lemma signCredentialJWT_Ok (verificationMethodID : string) (cred : VerifiableCredential)
    (credToken : JWT) :
  signCredentialJWT verificationMethodID cred = Ok credToken ↔
  ∃ gotKey keyAccess,
    getKey (fullyQualifiedVerificationMethodID (vc_Issuer cred) verificationMethodID) = Ok gotKey
    ∧ k_Controller gotKey = vc_Issuer cred
    ∧ k_Revoked gotKey = false
    ∧ newJWKKeyAccess verificationMethodID (k_ID gotKey) (k_Key gotKey) = Ok keyAccess
    ∧ signVerifiableCredential keyAccess cred = Ok credToken.
Proof.
  unfold signCredentialJWT. split.
  - destruct (getKey _) as [gotKey|]; [|discriminate].
    case_bool_decide as Hc; simpl; [|discriminate].
    destruct (k_Revoked gotKey) eqn:Hr; [discriminate|].
    destruct (newJWKKeyAccess _ _ _) as [keyAccess|] eqn:Hka; [|discriminate].
    destruct (signVerifiableCredential _ _) as [tok|] eqn:Hs; [|discriminate].
    intros [= <-]. by exists gotKey, keyAccess.
  - intros (gotKey & keyAccess & -> & Hc & -> & Hka & Hs).
    rewrite bool_decide_true by done. simpl. by rewrite Hka, Hs.
Qed.

(** X2. Every credential [CreateCredential] issues is signed with the key the
    request names: the key store holds that key for the issuer of the request,
    the issuer controls it, it is not revoked, and the JWT returned is the
    signature of the returned VC document under it. *)
Theorem CreateCredential_signed (request : CreateCredentialRequest) (w w' : World)
    (c : Container) :
  CreateCredential (@Execute) request w = (Ok c, w') →
  ∃ gotKey keyAccess,
    getKey (fullyQualifiedVerificationMethodID (req_Issuer request)
              (req_FullyQualifiedVerificationMethodID request)) = Ok gotKey
    ∧ k_Controller gotKey = req_Issuer request
    ∧ k_Revoked gotKey = false
    ∧ newJWKKeyAccess (req_FullyQualifiedVerificationMethodID request)
        (k_ID gotKey) (k_Key gotKey) = Ok keyAccess
    ∧ signVerifiableCredential keyAccess (c_Credential c) = Ok (c_CredentialJWT c).
Proof.
  intros Hrun.
  apply CreateCredential_Ok in Hrun as (md & t & t' & Hbody & _).
  apply createCredential_Ok in Hbody as (_ & _ & _ & _ & Hissuer & _ & Hsign & _).
  apply signCredentialJWT_Ok in Hsign as (gotKey & keyAccess & Hsign).
  rewrite Hissuer in Hsign. by exists gotKey, keyAccess.
Qed.

(** Steps that write nothing. *)
Lemma still_Ok {A} (m : Body A) (t t' : TxState) (r : result A) :
  still m → m t = (r, t') → pending t' = pending t.
Proof. intros Hs Hm. specialize (Hs t). by rewrite Hm in Hs. Qed.

Lemma still_bind {A B} (m : Body A) (f : A → Body B) :
  still m → (∀ a, still (f a)) → still (m ≫= f).
Proof.
  intros Hm Hf t. unfold mbind, Body_bind. specialize (Hm t).
  destruct (m t) as [[a|e] t1]; simpl in *; [|done].
  by rewrite (Hf a t1).
Qed.

Lemma still_ret {A} (a : A) : still (mret a : Body A).
Proof. by intros t. Qed.

Lemma still_fail {A} (e : Error) : still (fail e : Body A).
Proof. by intros t. Qed.

Lemma still_lift {A} (r : result A) : still (lift r).
Proof. by intros t. Qed.

Lemma still_check (o : option Error) : still (check o).
Proof. intros t. unfold check. by destruct o. Qed.

Lemma still_wrap {A} (msg : string) (m : Body A) : still m → still (wrap msg m).
Proof. intros Hm t. specialize (Hm t). unfold wrap. by destruct (m t) as [[a|e] t1]. Qed.

Lemma still_draw : still draw.
Proof. by intros t. Qed.

Lemma still_readSnapshot : still readSnapshot.
Proof. by intros t. Qed.

Lemma still_readPending : still readPending.
Proof. by intros t. Qed.

Lemma still_builderStep (step : BuilderStep) (msg : string) : still (builderStep step msg).
Proof. apply still_wrap, still_check. Qed.

Create HintDb still.
#[local] Hint Resolve still_ret still_fail still_lift still_check still_wrap still_draw
  still_readSnapshot still_readPending still_builderStep : still.

Ltac still_tac :=
  repeat first
    [ solve [auto with still]
    | apply still_bind; [|intros ?]
    | match goal with
      | |- still (match ?x with _ => _ end) => destruct x
      | |- still (let '(_, _) := ?x in _) => destruct x
      end ].

Ltac quiet_tac :=
  repeat first
    [ solve [auto using quiet_createStatusListEntryForCredential with quiet]
    | apply quiet_bind; [|intros ?]
    | match goal with
      | |- quiet _ (match ?x with _ => _ end) => destruct x
      | |- quiet _ (let '(_, _) := ?x in _) => destruct x
      end ].

(** From a run of a step that writes nothing, the equation of its states. *)
Ltac still_of H :=
  match type of H with
  | ?m ?t = (_, ?t') =>
    let Hp := fresh "Hp" in
    assert (pending t' = pending t) as Hp by (eapply (still_Ok m t t'); [still_tac|exact H])
  end.

Lemma quiet_Ok {A} (m : Body A) (t t' : TxState) (r : result A) :
  quiet (credentials (pending t)) m → m t = (r, t') →
  credentials (pending t') = credentials (pending t).
Proof.
  intros Hq Hm. specialize (Hq t eq_refl). rewrite Hm in Hq. by destruct r.
Qed.

Lemma builderStep_Ok (step : BuilderStep) (msg : string) (t t' : TxState) (a : unit) :
  builderStep step msg t = (Ok a, t') → builderCheck step = None.
Proof. unfold builderStep, wrap, check. by destruct (builderCheck step). Qed.

Lemma wrap_check_Ok (msg : string) (o : option Error) (t t' : TxState) (a : unit) :
  wrap msg (check o) t = (Ok a, t') → o = None.
Proof. unfold wrap, check. by destruct o. Qed.

(** What a successful run of [createCredential] has checked, built and
    written. *)
Lemma createCredential_inv (request : CreateCredentialRequest)
    (statusMetadata : StatusListCredentialMetadata) (t t' : TxState) (c : Container) :
  createCredential request statusMetadata t = (Ok c, t') →
  let cred := c_Credential c in
  c_ID c = uuidOf (tick t)
  ∧ c_FullyQualifiedVerificationMethodID c = req_FullyQualifiedVerificationMethodID request
  ∧ vc_ID cred = servicePath ++ "/" ++ c_ID c
  ∧ vc_Issuer cred = req_Issuer request
  ∧ vc_ExpirationDate cred = req_Expiry request
  ∧ vc_Evidence cred = req_Evidence request
  ∧ (is_Some (vc_CredentialStatus cred) ↔ hasStatus request = true)
  ∧ (req_SchemaID request = "" → vc_CredentialSchema cred = None)
  ∧ (req_SchemaID request ≠ "" →
     ∃ schema schemaType,
       schemaResolve (req_SchemaID request) = Ok (schema, schemaType)
       ∧ vc_CredentialSchema cred
         = Some {| cs_ID := req_SchemaID request; cs_Type := schemaType |}
       ∧ isCredentialValidForJSONSchema cred schema = None)
  ∧ (hasEvidence request = true → validateEvidence (req_Evidence request) = None)
  ∧ builderCheck (StepBuild cred) = None
  ∧ copyCheck cred = None
  ∧ ∃ s0, pending t' = putCredential c s0
          ∧ credentials s0 = credentials (pending t)
          ∧ (hasStatus request = false → s0 = pending t).
Proof.
  intros Hrun. unfold createCredential in Hrun.
  destruct (isStatusValid request) eqn:Hvalid; simpl in Hrun; [|by apply fail_Ok in Hrun].
  repeat body_step Hrun.
  apply mret_Ok in Hrun as [-> ->]. simpl.
  injection Hm as <- Ht0.
  assert (pending t0 = pending t) as Hp by (by rewrite <-Ht0).
  (* the steps before the status entry write nothing *)
  assert (pending t9 = pending t) as Hbefore.
  { still_of Hm0. still_of Hm1. still_of Hm2. still_of Hm3. still_of Hm4. still_of Hm5.
    still_of Hm6. still_of Hm7. still_of Hm8. congruence. }
  (* nor do the steps after it, up to the store *)
  assert (pending t15 = pending t10) as Hafter.
  { still_of Hm10. still_of Hm11. still_of Hm12. still_of Hm13. still_of Hm14. congruence. }
  assert (credentials (pending t10) = credentials (pending t9)) as Hstatus.
  { eapply quiet_Ok; [|exact Hm9]. quiet_tac. }
  assert (a10 = req_Evidence request
          ∧ (hasEvidence request = true → validateEvidence (req_Evidence request) = None))
    as [-> Hevidence].
  { unfold hasEvidence in *. destruct (bool_decide (length (req_Evidence request) = 0)) eqn:Hev;
      simpl in Hm10.
    - apply mret_Ok in Hm10 as [-> _]. apply bool_decide_eq_true in Hev.
      split; [by destruct (req_Evidence request)|discriminate].
    - repeat body_step Hm10. apply mret_Ok in Hm10 as [-> _].
      split; [done|]. intros _. by eapply wrap_check_Ok. }
  repeat split; try done.
  - destruct (hasStatus request); [done|]. apply mret_Ok in Hm9 as [-> _].
    by intros [? ?].
  - intros Hs. rewrite Hs in Hm9.
    repeat body_step Hm9. apply mret_Ok in Hm9 as [-> _]. done.
  - intros Hid. rewrite bool_decide_true in Hm5 by done.
    by apply mret_Ok in Hm5 as [-> _].
  - intros Hid. rewrite bool_decide_false in Hm5 by done.
    apply bind_Ok in Hm5 as ([gotSchema schemaType] & ts & Hresolve & Hm5).
    apply bind_Ok in Hm5 as (? & ? & _ & Hm5). apply mret_Ok in Hm5 as [-> _].
    apply wrap_Ok, lift_Ok in Hresolve as [Hresolve _].
    exists gotSchema, schemaType. split; [done|]. split; [done|].
    by eapply wrap_check_Ok.
  - by eapply builderStep_Ok.
  - by eapply wrap_check_Ok.
  - exists (pending t15). split; [by injection Hm15 as _ <-|]. split.
    + by rewrite Hafter, Hstatus, Hbefore.
    + intros Hno. rewrite Hno in Hm9. apply mret_Ok in Hm9 as [_ ->].
      by rewrite Hafter, Hbefore.
Qed.

(** ** What a successful status update has done *)

(** The state in which [Execute] starts a transaction body. *)
Lemma executeWrapped_Ok {A} (fn : Body A) (watchKeys : list WatchKey) (w w' : World) (a : A) :
  executeWrapped (@Execute) fn watchKeys w = (Ok a, w') →
  ∃ t', fn {| snapshot := db w; pending := db w; tick := entropy w |} = (Ok a, t')
        ∧ w' = {| db := pending t'; entropy := tick t' |}.
Proof.
  unfold executeWrapped, Execute.
  destruct (fn _) as [[a'|e] t']; [|discriminate]. intros [= <- <-]. by exists t'.
Qed.

Lemma executeWrapped_Err {A} (fn : Body A) (watchKeys : list WatchKey) (w w' : World)
    (e : Error) :
  executeWrapped (@Execute) fn watchKeys w = (Err e, w') →
  db w' = db w
  ∧ ∃ e0 t', fn {| snapshot := db w; pending := db w; tick := entropy w |} = (Err e0, t')
             ∧ e = ErrWrap e0 "execute".
Proof.
  unfold executeWrapped, Execute.
  destruct (fn _) as [[a'|e0] t'] eqn:Hfn; [discriminate|]. intros [= <- <-].
  split; [done|]. by exists e0, t'.
Qed.

Lemma statusListCredentialWatchKey_Some (s : Store) (id : string) (key : WatchKey) :
  statusListCredentialWatchKey s id = Ok (Some key) →
  ∃ c entry slc,
    credentials s !! id = Some c
    ∧ vc_CredentialStatus (sc_Credential c) = Some entry
    ∧ sle_StatusPurpose entry ≠ ""
    ∧ GetStatusListCredentialKeyData s (sc_Issuer c) (sc_Schema c) (sle_StatusPurpose entry)
      = Some slc
    ∧ key = GetStatusListCredentialWatchKey (sc_Issuer c) (sc_Schema c) (sle_StatusPurpose entry).
Proof.
  unfold statusListCredentialWatchKey, storage_GetCredential, HasCredentialStatus,
    GetStatusPurpose.
  destruct (credentials s !! id) as [c|]; [|discriminate].
  destruct (vc_CredentialStatus (sc_Credential c)) as [entry|] eqn:He; [|discriminate]. simpl.
  case_bool_decide as Hlen; [discriminate|].
  destruct (GetStatusListCredentialKeyData _ _ _ _) as [slc|] eqn:Hslc; [|discriminate].
  intros [= <-]. exists c, entry, slc. do 2 (split; [done|]). split; [|done].
  by intros ?%string_length_0.
Qed.

Lemma updateCredentialStatusBusinessLogic_Ok (request : UpdateCredentialStatusRequest)
    (slcMetadata : StatusListCredentialMetadata) (t t' : TxState) (st : Status) :
  updateCredentialStatusBusinessLogic request slcMetadata t = (Ok st, t') →
  ∃ gotCred,
    credentials (snapshot t) !! upd_ID request = Some gotCred
    ∧ storedIsValid gotCred = true
    ∧ upd_Suspended request && upd_Revoked request = false
    ∧ st = requestedStatus "" request
    ∧ ((sc_Revoked gotCred = upd_Revoked request
        ∧ sc_Suspended gotCred = upd_Suspended request ∧ t' = t)
       ∨ ((sc_Revoked gotCred, sc_Suspended gotCred)
          ≠ (upd_Revoked request, upd_Suspended request)
          ∧ ∃ entry statusListCredentialID generated statusListCredJWT,
              vc_CredentialStatus (sc_Credential gotCred) = Some entry
              ∧ parseIDFromURI (sle_StatusListCredential entry) = Ok statusListCredentialID
              ∧ GenerateStatusList2021Credential (sle_StatusListCredential entry)
                  (sc_Issuer gotCred) (requestedPurpose request) (timeOf (tick t))
                  (revokedOrSuspendedStatusCreds request gotCred
                     (GetCredentialsByIssuerAndSchema (snapshot t)
                        (sc_Issuer gotCred) (sc_Schema gotCred)))
                = Ok generated
              ∧ signCredentialJWT (sc_FullyQualifiedVerificationMethodID gotCred)
                  (withCredentialSchema generated
                     (vc_CredentialSchema (sc_Credential gotCred)))
                = Ok statusListCredJWT
              ∧ credentials (pending t')
                = <[sc_LocalCredentialID gotCred := updatedRecord gotCred request]>
                    (credentials (pending t))
              ∧ statusListCredentials (pending t')
                = <[wk_Key (md_statusListCredentialWatchKey slcMetadata) :=
                      buildStoredCredential
                        {| c_ID := statusListCredentialID;
                           c_FullyQualifiedVerificationMethodID :=
                             sc_FullyQualifiedVerificationMethodID gotCred;
                           c_Credential :=
                             withCredentialSchema generated
                               (vc_CredentialSchema (sc_Credential gotCred));
                           c_CredentialJWT := statusListCredJWT;
                           c_Revoked := false;
                           c_Suspended := false |}]>
                    (statusListCredentials (pending t))
              ∧ statusListIndexPool (pending t') = statusListIndexPool (pending t)
              ∧ statusListCurrentIndex (pending t') = statusListCurrentIndex (pending t))).
Proof.
  intros Hrun. unfold updateCredentialStatusBusinessLogic in Hrun.
  destruct (upd_Suspended request && upd_Revoked request) eqn:Hboth;
    [by apply fail_Ok in Hrun|].
  body_step Hrun. injection Hm as <- <-.
  apply bind_Ok in Hrun as (gotCred & ? & Hm & Hrun).
  apply wrap_Ok, lift_Ok in Hm as [Hget ->].
  unfold storage_GetCredential in Hget.
  destruct (credentials (snapshot t) !! upd_ID request) as [c|] eqn:Hc; [|discriminate].
  injection Hget as ->.
  destruct (storedIsValid gotCred) eqn:Hvalid; simpl in Hrun; [|by apply fail_Ok in Hrun].
  exists gotCred. do 3 (split; [done|]).
  destruct (bool_decide (sc_Revoked gotCred = upd_Revoked request)
            && bool_decide (sc_Suspended gotCred = upd_Suspended request)) eqn:Hsame.
  { apply andb_true_iff in Hsame as [Hr%bool_decide_eq_true Hs%bool_decide_eq_true].
    apply mret_Ok in Hrun as [-> ->]. split; [|by left].
    unfold requestedStatus. by rewrite Hr, Hs. }
  body_step Hrun. apply mret_Ok in Hrun as [-> ->].
  apply wrap_Ok in Hm. unfold updateCredentialStatus in Hm.
  body_step Hm.
  destruct (vc_CredentialStatus (sc_Credential gotCred)) as [entry|] eqn:Hentry;
    [|by apply fail_Ok in Hm].
  case_bool_decide as Hlen; [by apply fail_Ok in Hm|].
  repeat body_step Hm.
  apply mret_Ok in Hm as [-> ->]. split; [done|]. right. split.
  { intros [= Hr Hs]. by rewrite Hr, Hs, !bool_decide_true in Hsame. }
  apply lift_Ok in Hm1 as [Hparse ->].
  injection Hm2 as <- <-.
  injection Hm3 as <- <-.
  apply wrap_Ok, lift_Ok in Hm4 as [Hgen ->].
  apply wrap_Ok, lift_Ok in Hm5 as [Hsign ->].
  injection Hm0 as _ <-. injection Hm6 as _ <-. simpl in *.
  eexists entry, _, _, _. by repeat split.
Qed.

Lemma UpdateCredentialStatus_Ok (request : UpdateCredentialStatusRequest) (w w' : World)
    (st : Status) :
  UpdateCredentialStatus (@Execute) request w = (Ok st, w') →
  ∃ c entry slc t',
    credentials (db w) !! upd_ID request = Some c
    ∧ vc_CredentialStatus (sc_Credential c) = Some entry
    ∧ sle_StatusPurpose entry ≠ ""
    ∧ GetStatusListCredentialKeyData (db w) (sc_Issuer c) (sc_Schema c)
        (sle_StatusPurpose entry) = Some slc
    ∧ updateCredentialStatusBusinessLogic request
        (metadataOf (GetStatusListCredentialWatchKey (sc_Issuer c) (sc_Schema c)
                       (sle_StatusPurpose entry)))
        {| snapshot := db w; pending := db w; tick := entropy w |} = (Ok st, t')
    ∧ w' = {| db := pending t'; entropy := tick t' |}.
Proof.
  unfold UpdateCredentialStatus.
  destruct (statusListCredentialWatchKey _ _) as [[key|]|] eqn:Hkey; [|discriminate..].
  apply statusListCredentialWatchKey_Some in Hkey as (c & entry & slc & Hc & He & Hp & Hslc & ->).
  intros (t' & Hbody & ->)%executeWrapped_Ok.
  by exists c, entry, slc, t'.
Qed.

(** ** Issuance, end to end *)

Lemma CreateCredential_run (request : CreateCredentialRequest) (w w' : World) (c : Container) :
  CreateCredential (@Execute) request w = (Ok c, w') →
  requestIsValid request = None
  ∧ ∃ t', createCredential request (snd (statusWatchKeys request)) (start w) = (Ok c, t')
          ∧ w' = {| db := pending t'; entropy := tick t' |}.
Proof.
  unfold CreateCredential. destruct (requestIsValid request); [discriminate|].
  destruct (statusWatchKeys request) as [watchKeys md].
  intros (t' & Hbody & ->)%executeWrapped_Ok. split; [done|]. by exists t'.
Qed.

Lemma CreateCredential_Err (request : CreateCredentialRequest) (w w' : World) (e : Error) :
  CreateCredential (@Execute) request w = (Err e, w') → db w' = db w.
Proof.
  unfold CreateCredential. destruct (requestIsValid request); [by intros [= _ <-]|].
  destruct (statusWatchKeys request) as [watchKeys md].
  by intros [? _]%executeWrapped_Err.
Qed.

(** X3. A successful [CreateCredential] files exactly one credential record:
    the record of the returned container, under the id drawn first; every
    other credential record is as before, and when the request asks for no
    status the status list credentials, index pools and cursors are untouched
    as well.  A failed [CreateCredential] leaves the whole database as it
    was. *)
Theorem CreateCredential_adds_one_record (request : CreateCredentialRequest) (w : World) :
  (∀ c w', CreateCredential (@Execute) request w = (Ok c, w') →
     c_ID c = uuidOf (entropy w)
     ∧ credentials (db w') = <[c_ID c := buildStoredCredential c]> (credentials (db w))
     ∧ (hasStatus request = false → db w' = putCredential c (db w)))
  ∧ (∀ e w', CreateCredential (@Execute) request w = (Err e, w') → db w' = db w).
Proof.
  split; [|intros e w'; apply CreateCredential_Err].
  intros c w' (_ & t' & Hbody & ->)%CreateCredential_run.
  apply createCredential_inv in Hbody
    as (Hid & _ & _ & _ & _ & _ & _ & _ & _ & _ & _ & _ & s0 & Hpending & Hcr & Hno).
  simpl. split; [done|]. rewrite Hpending. split.
  - simpl. by rewrite Hcr.
  - intros Hs. by rewrite (Hno Hs).
Qed.

(** X4. The credential [CreateCredential] returns is the one the request
    describes: its id is the service path followed by the local id, its
    issuer, expiration date and evidence are those of the request, the
    container names the verification method of the request, and the document
    carries a [credentialStatus] exactly when the request asks for one of
    revocable and suspendable. *)
Theorem CreateCredential_fields (request : CreateCredentialRequest) (w w' : World)
    (c : Container) :
  CreateCredential (@Execute) request w = (Ok c, w') →
  vc_ID (c_Credential c) = servicePath ++ "/" ++ c_ID c
  ∧ vc_Issuer (c_Credential c) = req_Issuer request
  ∧ vc_ExpirationDate (c_Credential c) = req_Expiry request
  ∧ vc_Evidence (c_Credential c) = req_Evidence request
  ∧ c_FullyQualifiedVerificationMethodID c = req_FullyQualifiedVerificationMethodID request
  ∧ (is_Some (vc_CredentialStatus (c_Credential c))
     ↔ req_Revocable request ≠ req_Suspendable request).
Proof.
  intros (_ & t' & Hbody & _)%CreateCredential_run.
  pose proof (createCredential_Ok _ _ _ _ _ Hbody) as (_ & Hvalid & _).
  apply createCredential_inv in Hbody
    as (_ & Hvm & Hid & Hissuer & Hexpiry & Hevidence & Hstatus & _).
  do 5 (split; [done|]). rewrite Hstatus.
  unfold hasStatus. unfold isStatusValid in Hvalid.
  by destruct (req_Revocable request), (req_Suspendable request).
Qed.

(** X5. A credential issued for a schema has passed the schema: when the
    request names a schema, the schema service resolved it, the document
    refers to it under the type the service reports, and the built document
    was accepted by the JSON-schema check; when the request names none, the
    document has no [credentialSchema]. *)
Theorem CreateCredential_schema (request : CreateCredentialRequest) (w w' : World)
    (c : Container) :
  CreateCredential (@Execute) request w = (Ok c, w') →
  (req_SchemaID request = "" → vc_CredentialSchema (c_Credential c) = None)
  ∧ (req_SchemaID request ≠ "" →
     ∃ schema schemaType,
       schemaResolve (req_SchemaID request) = Ok (schema, schemaType)
       ∧ vc_CredentialSchema (c_Credential c)
         = Some {| cs_ID := req_SchemaID request; cs_Type := schemaType |}
       ∧ isCredentialValidForJSONSchema (c_Credential c) schema = None).
Proof.
  intros (_ & t' & Hbody & _)%CreateCredential_run.
  by apply createCredential_inv in Hbody as (_ & _ & _ & _ & _ & _ & _ & Hnone & Hsome & _).
Qed.

(** X6. A credential issued without status cannot have its status updated:
    after a [CreateCredential] for a request that is neither revocable nor
    suspendable, every status update of the new credential fails with
    [credential "<id>" has no credentialStatus field], before any transaction
    starts, and changes nothing. *)
Theorem CreateCredential_without_status_then_update
    (exec : ∀ A, Body A → list WatchKey → Op A)
    (request : CreateCredentialRequest) (w w' : World) (c : Container)
    (update : UpdateCredentialStatusRequest) :
  CreateCredential (@Execute) request w = (Ok c, w') →
  req_Revocable request = false →
  req_Suspendable request = false →
  upd_ID update = c_ID c →
  UpdateCredentialStatus exec update w'
  = (Err (ErrNew ("credential " ++ fmtQ (c_ID c) ++ " has no credentialStatus field")), w').
Proof.
  intros (_ & t' & Hbody & ->)%CreateCredential_run Hr Hs Hid.
  apply createCredential_inv in Hbody
    as (_ & _ & _ & _ & _ & _ & Hstatus & _ & _ & _ & _ & _ & s0 & Hpending & _).
  assert (vc_CredentialStatus (c_Credential c) = None) as Hnone.
  { destruct (vc_CredentialStatus (c_Credential c)) eqn:He; [|done].
    destruct Hstatus as [Hstatus _]. unfold hasStatus in Hstatus.
    rewrite Hr, Hs in Hstatus. by discriminate Hstatus. }
  unfold UpdateCredentialStatus, statusListCredentialWatchKey, storage_GetCredential,
    HasCredentialStatus.
  simpl. rewrite Hpending, Hid. simpl. rewrite lookup_insert_eq. simpl. by rewrite Hnone.
Qed.

(** ** Status updates, end to end *)

(** X7. A successful [UpdateCredentialStatus] answers with the flags of the
    request, and the credential reads back accordingly: for a record filed
    under its local id, whose updated form passes the validity check,
    [GetCredentialStatus] then returns those flags and [GetCredential] returns
    the same VC document and the same JWT as before, with those flags. *)
Theorem UpdateCredentialStatus_then_read (request : UpdateCredentialStatusRequest)
    (w w' : World) (st : Status) (c : StoredCredential) :
  UpdateCredentialStatus (@Execute) request w = (Ok st, w') →
  credentials (db w) !! upd_ID request = Some c →
  sc_LocalCredentialID c = upd_ID request →
  storedIsValid (updatedRecord c request) = true →
  st = requestedStatus "" request
  ∧ GetCredentialStatus (upd_ID request) w' = (Ok st, w')
  ∧ GetCredential (upd_ID request) w'
    = (Ok {| c_ID := upd_ID request;
             c_FullyQualifiedVerificationMethodID := "";
             c_Credential := sc_Credential c;
             c_CredentialJWT := sc_CredentialJWT c;
             c_Revoked := upd_Revoked request;
             c_Suspended := upd_Suspended request |}, w').
Proof.
  intros (c' & entry & slc & t' & Hc' & _ & _ & _ & Hbody & ->)%UpdateCredentialStatus_Ok
    Hc Hid Hvalid.
  rewrite Hc in Hc'. injection Hc' as <-.
  apply updateCredentialStatusBusinessLogic_Ok in Hbody
    as (c' & Hc' & Hvalid' & _ & -> & Hcases).
  simpl in Hc'. rewrite Hc in Hc'. injection Hc' as <-.
  split; [done|].
  unfold GetCredentialStatus, GetCredential, storage_GetCredential. simpl.
  destruct Hcases as [(Hr & Hs & ->) | (_ & _ & _ & _ & _ & _ & _ & _ & _ & Hcr & _)].
  - simpl. rewrite Hc, Hvalid'. simpl. unfold requestedStatus. by rewrite Hr, Hs, Hid.
  - rewrite Hcr. simpl. rewrite Hid, lookup_insert_eq, Hvalid. simpl. by rewrite Hid.
Qed.

(** X8. A successful [UpdateCredentialStatus] writes at most two records: the
    credential record filed under the local id of the credential, and the
    status list credential of its issuer, schema and status purpose.  Every
    other credential record, every other status list credential, the index
    pools and the cursors are as before. *)
Theorem UpdateCredentialStatus_frame (request : UpdateCredentialStatusRequest)
    (w w' : World) (st : Status) (c : StoredCredential) :
  UpdateCredentialStatus (@Execute) request w = (Ok st, w') →
  credentials (db w) !! upd_ID request = Some c →
  (∀ id, id ≠ sc_LocalCredentialID c →
         credentials (db w') !! id = credentials (db w) !! id)
  ∧ (∀ key, key ≠ statusListKey (sc_Issuer c) (sc_Schema c) (GetStatusPurpose c) →
            statusListCredentials (db w') !! key = statusListCredentials (db w) !! key)
  ∧ statusListIndexPool (db w') = statusListIndexPool (db w)
  ∧ statusListCurrentIndex (db w') = statusListCurrentIndex (db w).
Proof.
  intros (c' & entry & slc & t' & Hc' & Hentry & _ & _ & Hbody & ->)%UpdateCredentialStatus_Ok Hc.
  rewrite Hc in Hc'. injection Hc' as <-.
  apply updateCredentialStatusBusinessLogic_Ok in Hbody
    as (c' & Hc' & _ & _ & _ & Hcases).
  simpl in Hc'. rewrite Hc in Hc'. injection Hc' as <-. simpl.
  destruct Hcases
    as [(_ & _ & ->) | (_ & ? & ? & ? & ? & _ & _ & _ & _ & Hcr & Hsl & Hpool & Hcur)];
    [done|].
  rewrite Hcr, Hsl, Hpool, Hcur. simpl. repeat split.
  - intros id Hne. by rewrite lookup_insert_ne.
  - intros key Hne. rewrite lookup_insert_ne; [done|].
    unfold GetStatusPurpose in Hne. by rewrite Hentry in Hne.
Qed.

(** X9. A request that asserts both [revoked] and [suspended] never updates
    anything: the transaction body answers [cannot update both suspended and
    revoked status] before it reads the credential, [UpdateCredentialStatus]
    fails and leaves the database as it was, and when the watch key of the
    credential can be derived the error is that message wrapped by
    [execute]. *)
Theorem UpdateCredentialStatus_both_flags (request : UpdateCredentialStatusRequest)
    (w : World) :
  upd_Revoked request = true →
  upd_Suspended request = true →
  (∀ slcMetadata t,
     updateCredentialStatusBusinessLogic request slcMetadata t
     = (Err (ErrNew "cannot update both suspended and revoked status"), t))
  ∧ (∃ e w', UpdateCredentialStatus (@Execute) request w = (Err e, w') ∧ db w' = db w)
  ∧ (∀ key, statusListCredentialWatchKey (db w) (upd_ID request) = Ok (Some key) →
       UpdateCredentialStatus (@Execute) request w
       = (Err (ErrWrap (ErrNew "cannot update both suspended and revoked status") "execute"),
          w)).
Proof.
  intros Hr Hs.
  assert (∀ slcMetadata t,
     updateCredentialStatusBusinessLogic request slcMetadata t
     = (Err (ErrNew "cannot update both suspended and revoked status"), t)) as Hbody.
  { intros md t. unfold updateCredentialStatusBusinessLogic. by rewrite Hr, Hs. }
  split; [done|].
  assert (∀ key, statusListCredentialWatchKey (db w) (upd_ID request) = Ok (Some key) →
       UpdateCredentialStatus (@Execute) request w
       = (Err (ErrWrap (ErrNew "cannot update both suspended and revoked status") "execute"),
          w)) as Hrun.
  { intros key Hkey. unfold UpdateCredentialStatus. rewrite Hkey.
    unfold executeWrapped, updateCredentialStatusFunc.
    rewrite (Execute_Err _ _ _ _ _ (Hbody _ _)). simpl. by rewrite world_eta. }
  split; [|done].
  destruct (statusListCredentialWatchKey (db w) (upd_ID request)) as [[key|]|e] eqn:Hkey.
  - eexists _, _. split; [by apply (Hrun key)|done].
  - unfold UpdateCredentialStatus. rewrite Hkey. by eexists _, _.
  - unfold UpdateCredentialStatus. rewrite Hkey. by eexists _, _.
Qed.

(** X10. When the credential has a status entry but no status list credential
    is stored for its issuer, schema and purpose, the watch key comes back as
    a nil pointer without an error, and [UpdateCredentialStatus] dereferences
    it: the call panics before any transaction starts, whatever the request
    asks for. *)
Theorem UpdateCredentialStatus_without_status_list
    (exec : ∀ A, Body A → list WatchKey → Op A)
    (request : UpdateCredentialStatusRequest) (w : World) (c : StoredCredential)
    (entry : StatusList2021Entry) :
  credentials (db w) !! upd_ID request = Some c →
  vc_CredentialStatus (sc_Credential c) = Some entry →
  sle_StatusPurpose entry ≠ "" →
  GetStatusListCredentialKeyData (db w) (sc_Issuer c) (sc_Schema c) (sle_StatusPurpose entry)
  = None →
  statusListCredentialWatchKey (db w) (upd_ID request) = Ok None
  ∧ UpdateCredentialStatus exec request w
    = (Err (ErrPanic "invalid memory address or nil pointer dereference"), w).
Proof.
  intros Hc Hentry Hpurpose Hnone.
  assert (statusListCredentialWatchKey (db w) (upd_ID request) = Ok None) as Hkey.
  { unfold statusListCredentialWatchKey, storage_GetCredential, HasCredentialStatus,
      GetStatusPurpose.
    rewrite Hc, Hentry. simpl.
    rewrite bool_decide_false by (by rewrite string_length_0).
    by rewrite Hnone. }
  split; [done|]. unfold UpdateCredentialStatus. by rewrite Hkey.
Qed.

(** X11. The two reads agree: for every id, [GetCredentialStatus] fails
    exactly when [GetCredential] fails, with the same error, and otherwise
    reports the [Revoked] and [Suspended] of the container [GetCredential]
    returns; neither changes the world. *)
Theorem GetCredentialStatus_agrees_with_GetCredential (id : string) (w : World) :
  GetCredentialStatus id w
  = match GetCredential id w with
    | (Ok c, w') =>
      (Ok {| st_ID := ""; st_Revoked := c_Revoked c; st_Suspended := c_Suspended c |}, w')
    | (Err e, w') => (Err e, w')
    end
  ∧ snd (GetCredential id w) = w
  ∧ snd (GetCredentialStatus id w) = w.
Proof.
  unfold GetCredentialStatus, GetCredential.
  destruct (storage_GetCredential (db w) id) as [gotCred|e]; [|done].
  by destruct (storedIsValid gotCred).
Qed.

(** ** The status list after a flag is set *)

Lemma prepareCredentialsForStatusList_Ok (purpose : string)
    (creds : list VerifiableCredential) (indices : list N) :
  prepareCredentialsForStatusList purpose creds = Ok indices →
  Forall2 (λ cred n, ∃ entry, vc_CredentialStatus cred = Some entry
                              ∧ sle_StatusPurpose entry = purpose
                              ∧ sle_StatusListIndex entry = n) creds indices.
Proof.
  revert indices. induction creds as [|cred creds IH]; intros indices; simpl.
  - intros [= <-]. constructor.
  - destruct (vc_CredentialStatus cred) as [entry|] eqn:He; [|discriminate].
    case_bool_decide as Hp; [|discriminate].
    destruct (prepareCredentialsForStatusList purpose creds) as [rest|]; [|discriminate].
    intros [= <-]. constructor; [by exists entry|by apply IH].
Qed.

Lemma GenerateStatusList2021Credential_Ok (id issuer purpose issuanceDate : string)
    (creds : list VerifiableCredential) (generated : VerifiableCredential)
    (schema : option CredentialSchema) :
  GenerateStatusList2021Credential id issuer purpose issuanceDate creds = Ok generated →
  ∃ indices,
    prepareCredentialsForStatusList purpose creds = Ok indices
    ∧ vc_ID generated = id
    ∧ vc_Issuer generated = issuer
    ∧ encodedBits (withCredentialSchema generated schema) = list_to_set indices.
Proof.
  unfold GenerateStatusList2021Credential.
  destruct (prepareCredentialsForStatusList purpose creds) as [indices|]; [|discriminate].
  intros [= <-]. exists indices. by repeat split.
Qed.

Lemma elem_of_GetCredentialsByIssuerAndSchema (s : Store) (issuer schema : string)
    (c : StoredCredential) :
  c ∈ GetCredentialsByIssuerAndSchema s issuer schema
  ↔ (∃ id, credentials s !! id = Some c) ∧ sc_Issuer c = issuer ∧ sc_Schema c = schema.
Proof.
  unfold GetCredentialsByIssuerAndSchema. rewrite list_elem_of_filter, list_elem_of_fmap.
  split.
  - intros [[? ?] ([id c'] & -> & Hin%elem_of_map_to_list)]. split; [by exists id|done].
  - intros [[id Hid] [? ?]]. split; [done|]. exists (id, c). split; [done|].
    by apply elem_of_map_to_list.
Qed.

(** X12. Setting a flag rebuilds the status list from the flags on record.
    After a successful [UpdateCredentialStatus] that asserts [revoked] or
    [suspended] and changes the stored flags, the status entry of the
    credential has the purpose of the request, and the status list credential
    stored for the issuer, schema and purpose carries the URI named by the
    entry and has a bit set exactly at the index of the credential and at the
    indices of the other stored credentials of that issuer and schema that
    have a status and are on record with the asserted flag. *)
Theorem UpdateCredentialStatus_status_list (request : UpdateCredentialStatusRequest)
    (w w' : World) (st : Status) (c : StoredCredential) :
  UpdateCredentialStatus (@Execute) request w = (Ok st, w') →
  credentials (db w) !! upd_ID request = Some c →
  (sc_Revoked c, sc_Suspended c) ≠ (upd_Revoked request, upd_Suspended request) →
  upd_Revoked request || upd_Suspended request = true →
  ∃ slc entry,
    vc_CredentialStatus (sc_Credential c) = Some entry
    ∧ sle_StatusPurpose entry = requestedPurpose request
    ∧ GetStatusListCredentialKeyData (db w') (sc_Issuer c) (sc_Schema c)
        (requestedPurpose request) = Some slc
    ∧ vc_ID (sc_Credential slc) = sle_StatusListCredential entry
    ∧ vc_Issuer (sc_Credential slc) = sc_Issuer c
    ∧ ∀ n, n ∈ encodedBits (sc_Credential slc)
           ↔ n = sle_StatusListIndex entry
             ∨ ∃ id other e,
                 credentials (db w) !! id = Some other
                 ∧ sc_Issuer other = sc_Issuer c
                 ∧ sc_Schema other = sc_Schema c
                 ∧ vc_ID (sc_Credential other) ≠ vc_ID (sc_Credential c)
                 ∧ flagged request other = true
                 ∧ vc_CredentialStatus (sc_Credential other) = Some e
                 ∧ sle_StatusListIndex e = n.
Proof.
  intros (c' & entry & slc0 & t' & Hc' & Hentry & _ & _ & Hbody & ->)%UpdateCredentialStatus_Ok
    Hc Hflags Hany.
  rewrite Hc in Hc'. injection Hc' as <-.
  apply updateCredentialStatusBusinessLogic_Ok in Hbody
    as (c' & Hc' & _ & _ & _ & Hcases).
  simpl in Hc'. rewrite Hc in Hc'. injection Hc' as <-.
  destruct Hcases
    as [(Hr & Hs & _)
       | (_ & entry' & slcID & generated & jwt & Hentry' & _ & Hgen & _ & _ & Hsl & _)].
  { destruct Hflags. by rewrite Hr, Hs. }
  rewrite Hentry in Hentry'. injection Hentry' as <-.
  apply (GenerateStatusList2021Credential_Ok _ _ _ _ _ _
           (vc_CredentialSchema (sc_Credential c))) in Hgen
    as (indices & Hprepare & Hid & Hissuer & Hbits).
  apply prepareCredentialsForStatusList_Ok in Hprepare. simpl in Hprepare.
  rewrite (revokedOrSuspendedStatusCreds_asserted _ _ _ Hany) in Hprepare.
  (* the credential itself is among those handed to the generator *)
  assert (sle_StatusPurpose entry = requestedPurpose request) as Hpurpose.
  { apply Forall2_app_inv_l in Hprepare as (? & ? & _ & Hown & _).
    apply Forall2_cons_inv_l in Hown as (? & ? & (e & He & Hp & _) & _ & _).
    rewrite Hentry in He. by injection He as <-. }
  eexists _, entry. split; [done|]. split; [done|]. split.
  { unfold GetStatusListCredentialKeyData. simpl. rewrite Hsl. simpl.
    rewrite Hpurpose. apply lookup_insert_eq. }
  simpl. split; [done|]. split; [done|].
  intros n. rewrite Hbits, elem_of_list_to_set. split.
  - intros Hn. apply list_elem_of_lookup in Hn as [i Hi].
    destruct (Forall2_lookup_r _ _ _ _ _ Hprepare Hi) as (cred & Hcred & e & He & _ & Hindex).
    apply list_elem_of_lookup_2, elem_of_app in Hcred as [Hother | Hown].
    + right. unfold others in Hother.
      apply list_elem_of_fmap in Hother as (other & -> & Hother).
      apply list_elem_of_filter in Hother as [[Hne Hf] Hin].
      apply elem_of_GetCredentialsByIssuerAndSchema in Hin as ([id Hstored] & Hi1 & Hi2).
      by exists id, other, e.
    + left. apply list_elem_of_singleton in Hown as ->.
      rewrite Hentry in He. by injection He as <-.
  - assert (∀ cred e, cred ∈ (others request c
                (GetCredentialsByIssuerAndSchema (db w) (sc_Issuer c) (sc_Schema c))
                ++ [sc_Credential c])%list →
              vc_CredentialStatus cred = Some e → sle_StatusListIndex e ∈ indices) as Hin.
    { intros cred e Hcred He. apply list_elem_of_lookup in Hcred as [i Hi].
      destruct (Forall2_lookup_l _ _ _ _ _ Hprepare Hi) as (m & Hm & e' & He' & _ & <-).
      rewrite He in He'. injection He' as <-. by eapply list_elem_of_lookup_2. }
    intros [-> | (id & other & e & Hstored & Hi1 & Hi2 & Hne & Hf & He & <-)].
    + apply (Hin (sc_Credential c)); [|done]. apply elem_of_app. right.
      by apply list_elem_of_singleton.
    + apply (Hin (sc_Credential other)); [|done]. apply elem_of_app. left.
      unfold others. apply list_elem_of_fmap. exists other. split; [done|].
      apply list_elem_of_filter. split; [done|].
      apply elem_of_GetCredentialsByIssuerAndSchema. split; [by exists id|done].
Qed.

(** ** Batches of status updates *)

Lemma batchUpdatePrepare_Ok (s : Store) (requests : list UpdateCredentialStatusRequest)
    (watchKeys : list WatchKey) (updateFuncs : list (Body Status)) :
  batchUpdatePrepare s requests = Ok (watchKeys, updateFuncs) →
  Forall2 (λ request updateFunc,
             ∃ slcMetadata, updateFunc = updateCredentialStatusFunc request slcMetadata)
          requests updateFuncs.
Proof.
  revert watchKeys updateFuncs.
  induction requests as [|request requests IH]; intros watchKeys updateFuncs; simpl.
  - intros [= <- <-]. constructor.
  - destruct (statusListCredentialWatchKey s (upd_ID request)) as [[key|]|]; [|discriminate..].
    destruct (batchUpdatePrepare s requests) as [[ks fs]|]; [|discriminate].
    intros [= <- <-]. constructor; [by eexists|by eapply IH].
Qed.

Lemma batchUpdatePrepare_Err (s : Store)
    (before rest : list UpdateCredentialStatusRequest)
    (request : UpdateCredentialStatusRequest) (e : Error) :
  Forall (λ r, ∃ key, statusListCredentialWatchKey s (upd_ID r) = Ok (Some key)) before →
  statusListCredentialWatchKey s (upd_ID request) = Err e →
  batchUpdatePrepare s (before ++ request :: rest) = Err e.
Proof.
  intros Hbefore Hfail. induction Hbefore as [|r before [key Hkey] _ IH]; simpl.
  - by rewrite Hfail.
  - by rewrite Hkey, IH.
Qed.

(** X13. [BatchUpdateCredentialStatus] derives the watch key of every request
    before it starts its transaction.  When the watch key of a request cannot
    be derived (the credential is not stored, or has no [credentialStatus])
    and those of the requests before it can, the batch returns the error of
    that request, unwrapped, whatever transaction primitive the service has:
    no transaction body runs, no request of the batch is applied, and the
    world is as it was. *)
Theorem BatchUpdateCredentialStatus_preamble
    (exec : ∀ A, Body A → list WatchKey → Op A)
    (before rest : list UpdateCredentialStatusRequest)
    (request : UpdateCredentialStatusRequest) (w : World) (e : Error) :
  Forall (λ r, ∃ key, statusListCredentialWatchKey (db w) (upd_ID r) = Ok (Some key)) before →
  statusListCredentialWatchKey (db w) (upd_ID request) = Err e →
  BatchUpdateCredentialStatus exec (before ++ request :: rest) w = (Err e, w).
Proof.
  intros Hbefore Hfail. unfold BatchUpdateCredentialStatus.
  by rewrite (batchUpdatePrepare_Err _ _ _ _ _ Hbefore Hfail).
Qed.

Lemma batchUpdateLoop_Ok (requests : list UpdateCredentialStatusRequest) (i : nat)
    (updateFuncs : list (Body Status)) (statuses out : list Status) (t t' : TxState) :
  length statuses = i →
  Forall2 (λ request updateFunc,
             ∃ slcMetadata, updateFunc = updateCredentialStatusFunc request slcMetadata)
          (drop i requests) updateFuncs →
  batchUpdateLoop requests i updateFuncs statuses t = (Ok out, t') →
  out = (statuses ++ ((λ r, requestedStatus (upd_ID r) r) <$> drop i requests))%list.
Proof.
  revert i statuses t.
  induction updateFuncs as [|updateFunc updateFuncs IH]; intros i statuses t Hlen Hfuncs; simpl.
  - apply Forall2_nil_inv_r in Hfuncs as ->. intros [-> _]%mret_Ok. by rewrite app_nil_r.
  - apply Forall2_cons_inv_r in Hfuncs as (request & rest & [md ->] & Hrest & Hdrop).
    assert (requests !! i = Some request) as Hi.
    { by rewrite <-(Nat.add_0_r i), <-lookup_drop, Hdrop. }
    rewrite (drop_S _ _ _ Hi) in Hdrop. injection Hdrop as <-.
    intros Hrun. apply bind_Ok in Hrun as (updateResp & t1 & Hupdate & Hrun).
    apply updateCredentialStatusBusinessLogic_Ok in Hupdate as (_ & _ & _ & _ & -> & _).
    rewrite Hi in Hrun.
    rewrite lookup_app_r, Hlen, Nat.sub_diag in Hrun by lia. simpl in Hrun.
    replace i with (length statuses + 0) in Hrun at 2 by lia.
    rewrite alter_app_r in Hrun. simpl in Hrun.
    apply IH in Hrun; [|rewrite length_app; simpl; lia|done].
    rewrite Hrun, (drop_S _ _ _ Hi), fmap_cons, <-app_assoc. done.
Qed.

(** X14. When [BatchUpdateCredentialStatus] succeeds, its response holds one
    status per request, in request order, each with the id and the flags of
    its request.  When it fails, the database is as it was: the updates of
    the requests that ran before the failing one are not persisted. *)
Theorem BatchUpdateCredentialStatus_statuses
    (requests : list UpdateCredentialStatusRequest) (w : World) :
  (∀ statuses w',
     BatchUpdateCredentialStatus (@Execute) requests w = (Ok statuses, w') →
     statuses = (λ r, requestedStatus (upd_ID r) r) <$> requests)
  ∧ (∀ e w', BatchUpdateCredentialStatus (@Execute) requests w = (Err e, w') → db w' = db w).
Proof.
  unfold BatchUpdateCredentialStatus.
  destruct (batchUpdatePrepare (db w) requests) as [[watchKeys updateFuncs]|e0] eqn:Hprepare.
  - apply batchUpdatePrepare_Ok in Hprepare. split.
    + intros statuses w' (t' & Hbody & _)%executeWrapped_Ok.
      by apply batchUpdateLoop_Ok in Hbody.
    + intros e w' [Hdb _]%executeWrapped_Err. done.
  - split; [discriminate|]. by intros e w' [= _ <-].
Qed.

(** ** A batch of one issuance *)

(** X15. A batch of one request issues what [CreateCredential] issues: the
    batch runs the transaction body of the request under the watch keys of
    the request and returns its container as a list of one, with the same
    error and the same world otherwise.  [CreateCredential] does the same
    once the request has passed its validation, which the batch does not
    run. *)
Theorem BatchCreateCredentials_single (request : CreateCredentialRequest) (w : World) :
  let body :=
    executeWrapped (@Execute)
      (createCredentialFunc request (snd (statusWatchKeys request)))
      (fst (statusWatchKeys request)) w in
  BatchCreateCredentials (@Execute) [request] w
  = match body with
    | (Ok c, w') => (Ok [c], w')
    | (Err e, w') => (Err e, w')
    end
  ∧ (requestIsValid request = None → CreateCredential (@Execute) request w = body).
Proof.
  intros body. subst body. split.
  - unfold BatchCreateCredentials, batchCreateFunc, batchFuncs, executeWrapped, Execute.
    simpl. unfold mbind, Body_bind.
    by destruct (createCredentialFunc request _ _) as [[c|e] t'].
  - intros Hvalid. unfold CreateCredential. rewrite Hvalid.
    by destruct (statusWatchKeys request).
Qed.

(** ** Verification requests *)

(** X16. [VerifyCredential] fails exactly on the requests [IsValid] refuses:
    neither a credential nor a JWT, or a JWT together with a credential that
    carries a proof.  On every other request it returns a response and
    dereferences no nil pointer: when a JWT is given the response is the
    verdict of the verifier on the JWT alone, whatever credential comes with
    it; otherwise it is the verdict on the credential, which is handed to the
    verifier even when it carries no proof. *)
Theorem VerifyCredential_outcome {V : Verifier} (request : VerifyCredentialRequest) :
  (∀ e, VerifyCredential request = Err e
        ↔ (vr_DataIntegrityCredential request = None ∧ vr_CredentialJWT request = None
           ∧ e = ErrWrap (ErrNew "either a credential or a credential JWT must be provided")
                         "invalid verify credential request")
          ∨ ((∃ credential, vr_DataIntegrityCredential request = Some credential
                            ∧ is_Some (pc_Proof credential))
             ∧ is_Some (vr_CredentialJWT request)
             ∧ e = ErrWrap (ErrNew "only one of credential or credential JWT can be provided")
                           "invalid verify credential request"))
  ∧ (∀ credentialJWT,
       vr_CredentialJWT request = Some credentialJWT →
       (∀ credential, vr_DataIntegrityCredential request = Some credential →
                      pc_Proof credential = None) →
       VerifyCredential request = Ok (verdict (VerifyJWTCredential credentialJWT)))
  ∧ (∀ credential,
       vr_CredentialJWT request = None →
       vr_DataIntegrityCredential request = Some credential →
       VerifyCredential request = Ok (verdict (VerifyDataIntegrityCredential credential))).
Proof.
  unfold VerifyCredential, VerifyCredentialRequest_IsValid, verdict.
  assert (∀ e e', (Err e : result VerifyCredentialResponse) = Err e' ↔ e' = e) as Herr
    by (intros e e'; split; [by intros [= ->]|by intros ->]).
  destruct request as [[[cred [proof|]]|] [jwt|]]; simpl; (split; [intros e|split]).
  - (* a credential with a proof, and a JWT *)
    rewrite Herr. split.
    + intros ->. right. split; [by eexists|]. by split.
    + by intros [(? & _) | (_ & _ & ->)].
  - intros ? _ Hproof. by specialize (Hproof _ eq_refl).
  - by intros ? [=].
  - (* a credential with a proof, no JWT *)
    split; [by destruct (VerifyDataIntegrityCredential _)|].
    by intros [(? & _) | (_ & [? ?] & _)].
  - by intros ? [=].
  - intros ? _ [= <-]. by destruct (VerifyDataIntegrityCredential _).
  - (* a credential without proof, and a JWT *)
    split; [by destruct (VerifyJWTCredential _)|].
    intros [(? & _) | ((c & [= <-] & [? ?]) & _)]; done.
  - intros ? [= <-] _. by destruct (VerifyJWTCredential _).
  - by intros ? [=].
  - (* a credential without proof, no JWT *)
    split; [by destruct (VerifyDataIntegrityCredential _)|].
    by intros [(? & _) | (_ & [? ?] & _)].
  - by intros ? [=].
  - intros ? _ [= <-]. by destruct (VerifyDataIntegrityCredential _).
  - (* a JWT alone *)
    split; [by destruct (VerifyJWTCredential _)|].
    by intros [(_ & ? & _) | ((? & ? & _) & _)].
  - intros ? [= <-] _. by destruct (VerifyJWTCredential _).
  - by intros ? [=].
  - (* nothing *)
    rewrite Herr. split.
    + intros ->. by left.
    + by intros [(_ & _ & ->) | ((? & ? & _) & _)].
  - by intros ? [=].
  - by intros ? _ [=].
Qed.

(** ** The schema router *)

(** X17. [CreateSchema] never hands an incomplete signing request to the
    schema service: when the decoded request asks for a signed schema and
    names no issuer or no verification method, the handler answers 400 and
    the state of the service is untouched, for every schema service and every
    validator; once the validator has accepted the request the answer is
    [cannot sign schema without an issuer DID and KID]. *)
Theorem CreateSchema_incomplete_signing_request (ServiceState : Type)
    (service_CreateSchema :
       ServiceCreateSchemaRequest → ServiceState → result ServiceSchemaResponse * ServiceState)
    (ValidateRequest : CreateSchemaRequest → option Error)
    (request : CreateSchemaRequest) (csr : CredentialSchemaRequest) (st : ServiceState) :
  csq_CredentialSchemaRequest request = Some csr →
  csr_Issuer csr = "" ∨ csr_VerificationMethodID csr = "" →
  ∃ reply,
    CreateSchema ServiceState service_CreateSchema ValidateRequest (Ok request) st = (reply, st)
    ∧ statusCode reply = StatusBadRequest
    ∧ (ValidateRequest request = None →
       reply = LoggingRespondErrMsg "cannot sign schema without an issuer DID and KID"
                                    StatusBadRequest).
Proof.
  intros Hcsr Hempty. unfold CreateSchema.
  destruct (ValidateRequest request) as [err|]; [by eexists|].
  rewrite Hcsr.
  assert (CredentialSchemaRequest_IsValid (Some csr) = false) as ->.
  { unfold CredentialSchemaRequest_IsValid.
    destruct Hempty as [-> | ->]; [done|]. by rewrite andb_false_r. }
  by eexists.
Qed.

(** X18. What [CreateSchema] answers is settled by the schema service once
    the request is accepted, that is decoded, validated, and either asking
    for no signature or naming both issuer and verification method.  The
    service then receives the name, description and schema of the HTTP
    request, with the issuer and the fully qualified verification method id
    of the signing request, both empty when there is none.  When the service
    creates the schema the handler answers 201 with the id, type, schema and
    credential schema the service returned, and passes on the state of the
    service; when the service fails it answers 500 with [could not create
    schema].  So the answer is 201 exactly when the request is accepted and
    the service creates the schema, 500 exactly when it is accepted and the
    service fails, and 400 otherwise, with the state of the service
    untouched. *)
Theorem CreateSchema_created (ServiceState : Type)
    (service_CreateSchema :
       ServiceCreateSchemaRequest → ServiceState → result ServiceSchemaResponse * ServiceState)
    (ValidateRequest : CreateSchemaRequest → option Error)
    (decoded : result CreateSchemaRequest) (st : ServiceState) :
  let answer := CreateSchema ServiceState service_CreateSchema ValidateRequest decoded st in
  let accepted request :=
    decoded = Ok request ∧ ValidateRequest request = None ∧ signingComplete request in
  (∀ request created st',
     accepted request →
     service_CreateSchema (serviceRequestFor request) st = (Ok created, st') →
     answer = (Respond (Some (schemaResponseOf created)) StatusCreated, st'))
  ∧ (∀ request err st',
       accepted request →
       service_CreateSchema (serviceRequestFor request) st = (Err err, st') →
       answer = (LoggingRespondErrWithMsg err "could not create schema"
                                          StatusInternalServerError, st'))
  ∧ (statusCode (fst answer) = StatusCreated
     ↔ ∃ request created st',
         accepted request
         ∧ service_CreateSchema (serviceRequestFor request) st = (Ok created, st'))
  ∧ (statusCode (fst answer) = StatusInternalServerError
     ↔ ∃ request err st',
         accepted request
         ∧ service_CreateSchema (serviceRequestFor request) st = (Err err, st'))
  ∧ (statusCode (fst answer) = StatusCreated ∨ statusCode (fst answer) = StatusBadRequest
     ∨ statusCode (fst answer) = StatusInternalServerError)
  ∧ (statusCode (fst answer) = StatusBadRequest → snd answer = st).
Proof.
  intros answer accepted.
  (* the handler on an accepted request *)
  assert (∀ request, accepted request →
    answer = match service_CreateSchema (serviceRequestFor request) st with
             | (Err err, st') =>
               (LoggingRespondErrWithMsg err "could not create schema"
                                         StatusInternalServerError, st')
             | (Ok created, st') =>
               (Respond (Some (schemaResponseOf created)) StatusCreated, st')
             end) as Haccepted.
  { intros request (-> & Hvalidate & Hcomplete). unfold answer, CreateSchema.
    rewrite Hvalidate. unfold signingComplete in Hcomplete. unfold serviceRequestFor.
    destruct (csq_CredentialSchemaRequest request) as [csr|]; [|done].
    destruct Hcomplete as [Hi Hv]. unfold CredentialSchemaRequest_IsValid.
    by rewrite !bool_decide_false by done. }
  (* and on any other *)
  assert ((∃ request, accepted request)
          ∨ (statusCode (fst answer) = StatusBadRequest ∧ snd answer = st
             ∧ ∀ request, ¬ accepted request)) as Hcases.
  { unfold answer, CreateSchema, accepted. destruct decoded as [request|err].
    2: { right. split; [done|]. split; [done|]. by intros ? ([=] & _). }
    destruct (ValidateRequest request) as [err|] eqn:Hvalidate.
    { right. split; [done|]. split; [done|]. intros ? ([= <-] & Hv & _). congruence. }
    destruct (csq_CredentialSchemaRequest request) as [csr|] eqn:Hcsr.
    - destruct (CredentialSchemaRequest_IsValid (Some csr)) eqn:Hvalid; simpl.
      + left. exists request. split; [done|]. split; [done|].
        unfold signingComplete. rewrite Hcsr.
        apply andb_true_iff in Hvalid as [Hi%negb_true_iff%bool_decide_eq_false
                                          Hv%negb_true_iff%bool_decide_eq_false].
        done.
      + right. split; [done|]. split; [done|]. intros ? ([= <-] & _ & Hcomplete).
        unfold signingComplete in Hcomplete. rewrite Hcsr in Hcomplete.
        destruct Hcomplete as [Hi Hv]. unfold CredentialSchemaRequest_IsValid in Hvalid.
        by rewrite !bool_decide_false in Hvalid.
    - left. exists request. split; [done|]. split; [done|].
      unfold signingComplete. by rewrite Hcsr. }
  split; [|split; [|split; [|split; [|split]]]].
  - intros request created st' Ha Hservice. by rewrite (Haccepted _ Ha), Hservice.
  - intros request err st' Ha Hservice. by rewrite (Haccepted _ Ha), Hservice.
  - destruct Hcases as [[request Ha] | (Hbad & _ & Hnone)].
    + rewrite (Haccepted _ Ha).
      destruct (service_CreateSchema (serviceRequestFor request) st) as [[created|err] st']
        eqn:Hservice; simpl.
      * split; [intros _; by exists request, created, st'|done].
      * split; [discriminate|]. intros (request' & created & st'' & Ha' & Hs').
        assert (request' = request) as -> by (destruct Ha as [Hd _], Ha' as [Hd' _]; congruence).
        congruence.
    + rewrite Hbad. split; [discriminate|]. intros (request & _ & _ & Ha & _).
      by destruct (Hnone request).
  - destruct Hcases as [[request Ha] | (Hbad & _ & Hnone)].
    + rewrite (Haccepted _ Ha).
      destruct (service_CreateSchema (serviceRequestFor request) st) as [[created|err] st']
        eqn:Hservice; simpl.
      * split; [discriminate|]. intros (request' & err & st'' & Ha' & Hs').
        assert (request' = request) as -> by (destruct Ha as [Hd _], Ha' as [Hd' _]; congruence).
        congruence.
      * split; [intros _; by exists request, err, st'|done].
    + rewrite Hbad. split; [discriminate|]. intros (request & _ & _ & Ha & _).
      by destruct (Hnone request).
  - destruct Hcases as [[request Ha] | (Hbad & _ & _)]; [|by right; left].
    rewrite (Haccepted _ Ha).
    destruct (service_CreateSchema (serviceRequestFor request) st) as [[created|err] st'];
      [by left|by right; right].
  - destruct Hcases as [[request Ha] | (_ & Hst & _)]; [|done].
    rewrite (Haccepted _ Ha).
    by destruct (service_CreateSchema (serviceRequestFor request) st) as [[created|err] st'].
Qed.

(** X19. With an id on the route, [GetSchema] and [DeleteSchema] answer as
    the schema service does: [GetSchema] 200 with the id, type, schema and
    credential schema the service returned, or 500 with [could not get schema
    with id: <id>]; [DeleteSchema] 204 with no body, or 500 with [deleting
    schema with id: <id>]; both pass on the state of the service.  Without an
    id both answer 400 and do not ask the service.  So the status code is 200
    (204) exactly when the route carries an id and the service returned
    (deleted) the schema, 500 exactly when it carries one and the service
    failed, and 400 exactly when it carries none. *)
Theorem GetSchema_DeleteSchema_status (ServiceState : Type)
    (service_GetSchema : string → ServiceState → result ServiceSchemaResponse * ServiceState)
    (service_DeleteSchema : string → ServiceState → option Error * ServiceState)
    (st : ServiceState) :
  (* with an id, the answer follows the schema service *)
  (∀ id,
     GetSchema ServiceState service_GetSchema (Some id) st
     = match service_GetSchema id st with
       | (Ok gotSchema, st') => (Respond (Some (schemaResponseOf gotSchema)) StatusOK, st')
       | (Err err, st') =>
         (LoggingRespondErrWithMsg err ("could not get schema with id: " ++ id)
                                   StatusInternalServerError, st')
       end)
  ∧ (∀ id,
       DeleteSchema ServiceState service_DeleteSchema (Some id) st
       = match service_DeleteSchema id st with
         | (None, st') => (Respond None StatusNoContent, st')
         | (Some err, st') =>
           (LoggingRespondErrWithMsg err ("deleting schema with id: " ++ id)
                                     StatusInternalServerError, st')
         end)
  (* without one, it is a 400 and the service is not asked *)
  ∧ GetSchema ServiceState service_GetSchema None st
    = (LoggingRespondErrMsg "cannot get schema without ID parameter" StatusBadRequest, st)
  ∧ DeleteSchema ServiceState service_DeleteSchema None st
    = (LoggingRespondErrMsg "cannot delete a schema without an ID parameter"
                            StatusBadRequest, st)
  (* so that the status codes tell the outcome *)
  ∧ (∀ id,
       let code := statusCode (fst (GetSchema ServiceState service_GetSchema id st)) in
       (code = StatusOK
        ↔ ∃ id' gotSchema st', id = Some id' ∧ service_GetSchema id' st = (Ok gotSchema, st'))
       ∧ (code = StatusInternalServerError
          ↔ ∃ id' err st', id = Some id' ∧ service_GetSchema id' st = (Err err, st'))
       ∧ (code = StatusBadRequest ↔ id = None))
  ∧ (∀ id,
       let code := statusCode (fst (DeleteSchema ServiceState service_DeleteSchema id st)) in
       (code = StatusNoContent
        ↔ ∃ id' st', id = Some id' ∧ service_DeleteSchema id' st = (None, st'))
       ∧ (code = StatusInternalServerError
          ↔ ∃ id' err st', id = Some id' ∧ service_DeleteSchema id' st = (Some err, st'))
       ∧ (code = StatusBadRequest ↔ id = None)).
Proof.
  split; [|split; [|split; [|split; [|split]]]].
  - intros id. unfold GetSchema. by destruct (service_GetSchema id st) as [[?|?] ?].
  - intros id. unfold DeleteSchema. by destruct (service_DeleteSchema id st) as [[?|] ?].
  - done.
  - done.
  - intros [id|]; unfold GetSchema; simpl.
    + destruct (service_GetSchema id st) as [[gotSchema|err] st'] eqn:Hget; simpl.
      * split; [|split].
        -- split; [intros _; by exists id, gotSchema, st'|done].
        -- split; [discriminate|]. intros (? & ? & ? & [= <-] & Hget'). congruence.
        -- split; discriminate.
      * split; [|split].
        -- split; [discriminate|]. intros (? & ? & ? & [= <-] & Hget'). congruence.
        -- split; [intros _; by exists id, err, st'|done].
        -- split; discriminate.
    + split; [|split].
      * split; [discriminate|]. by intros (? & ? & ? & [=] & _).
      * split; [discriminate|]. by intros (? & ? & ? & [=] & _).
      * done.
  - intros [id|]; unfold DeleteSchema; simpl.
    + destruct (service_DeleteSchema id st) as [[err|] st'] eqn:Hdelete; simpl.
      * split; [|split].
        -- split; [discriminate|]. intros (? & ? & [= <-] & Hd). congruence.
        -- split; [intros _; by exists id, err, st'|done].
        -- split; discriminate.
      * split; [|split].
        -- split; [intros _; by exists id, st'|done].
        -- split; [discriminate|]. intros (? & ? & ? & [= <-] & Hd). congruence.
        -- split; discriminate.
    + split; [|split].
      * split; [discriminate|]. by intros (? & ? & [=] & _).
      * split; [discriminate|]. by intros (? & ? & ? & [=] & _).
      * done.
Qed.

(** ** Status updates touch flags only *)

Lemma flagsOnly_refl (s : Store) : flagsOnly s s.
Proof. intros id. destruct (credentials s !! id); by constructor. Qed.

Lemma flagsOnly_absent (s s' : Store) (id : string) :
  flagsOnly s s' → credentials s !! id = None → credentials s' !! id = None.
Proof. intros Hflags Hnone. specialize (Hflags id). rewrite Hnone in Hflags. by inversion Hflags. Qed.

Lemma flagsOnly_update (s p p' : Store) (c : StoredCredential)
    (request : UpdateCredentialStatusRequest) :
  filedByID s →
  credentials s !! upd_ID request = Some c →
  credentials p' = <[sc_LocalCredentialID c := updatedRecord c request]> (credentials p) →
  flagsOnly s p → flagsOnly s p'.
Proof.
  intros Hfiled Hc Hp' Hflags id. rewrite Hp'.
  rewrite (Hfiled _ _ Hc).
  destruct (decide (upd_ID request = id)) as [<-|Hne].
  - rewrite lookup_insert_eq, Hc. by constructor.
  - rewrite lookup_insert_ne by done. apply Hflags.
Qed.

Lemma touchesFlagsOnly_updateCredentialStatusFunc (request : UpdateCredentialStatusRequest)
    (slcMetadata : StatusListCredentialMetadata) :
  touchesFlagsOnly (updateCredentialStatusFunc request slcMetadata).
Proof.
  intros t st t' Hrun Hfiled Hflags.
  assert (snapshot t' = snapshot t) as Hsnapshot.
  { revert Hrun. unfold updateCredentialStatusFunc, updateCredentialStatusBusinessLogic.
    destruct (upd_Suspended request && upd_Revoked request); [by intros ?%fail_Ok|].
    intros Hrun. body_step Hrun. injection Hm as <- <-.
    apply bind_Ok in Hrun as (gotCred & ? & Hm & Hrun).
    apply wrap_Ok, lift_Ok in Hm as [_ ->].
    destruct (negb (storedIsValid gotCred)); [by apply fail_Ok in Hrun|].
    destruct (_ && _); [by apply mret_Ok in Hrun as [_ ->]|].
    body_step Hrun. apply mret_Ok in Hrun as [_ ->].
    apply wrap_Ok in Hm. unfold updateCredentialStatus in Hm.
    body_step Hm.
    destruct (vc_CredentialStatus (sc_Credential gotCred)); [|by apply fail_Ok in Hm].
    case_bool_decide; [by apply fail_Ok in Hm|].
    repeat body_step Hm. apply mret_Ok in Hm as [_ ->].
    injection Hm0 as _ <-. apply lift_Ok in Hm1 as [_ ->].
    injection Hm2 as _ <-. injection Hm3 as _ <-.
    apply wrap_Ok, lift_Ok in Hm4 as [_ ->]. apply wrap_Ok, lift_Ok in Hm5 as [_ ->].
    by injection Hm6 as _ <-. }
  split; [done|].
  apply updateCredentialStatusBusinessLogic_Ok in Hrun as (c & Hc & _ & _ & _ & Hcases).
  destruct Hcases as [(_ & _ & ->) | (_ & ? & ? & ? & ? & _ & _ & _ & _ & Hcr & _)]; [done|].
  by eapply flagsOnly_update.
Qed.

Lemma touchesFlagsOnly_batchUpdateLoop (requests : list UpdateCredentialStatusRequest)
    (updateFuncs : list (Body Status)) (i : nat) (statuses : list Status) :
  Forall touchesFlagsOnly updateFuncs →
  touchesFlagsOnly (batchUpdateLoop requests i updateFuncs statuses).
Proof.
  intros Hfuncs. revert i statuses.
  induction Hfuncs as [|f funcs Hf _ IH]; intros i statuses t out t'; simpl.
  - by intros [_ ->]%mret_Ok.
  - intros (st & t1 & Hrun & Hrest)%bind_Ok Hfiled Hflags.
    destruct ((statuses ++ [st])%list !! i); [|by apply fail_Ok in Hrest].
    destruct (requests !! i); [|by apply fail_Ok in Hrest].
    destruct (Hf _ _ _ Hrun Hfiled Hflags) as [Hs1 Hf1].
    destruct (IH _ _ _ _ _ Hrest) as [Hs2 Hf2]; rewrite ?Hs1; try done.
    split; [congruence|by rewrite <-Hs1].
Qed.

Lemma executeWrapped_flagsOnly {A} (fn : Body A) (watchKeys : list WatchKey) (w : World) :
  touchesFlagsOnly fn → filedByID (db w) →
  flagsOnly (db w) (db (snd (executeWrapped (@Execute) fn watchKeys w))).
Proof.
  intros Hfn Hfiled.
  destruct (executeWrapped (@Execute) fn watchKeys w) as [[a|e] w'] eqn:Hrun; simpl.
  - apply executeWrapped_Ok in Hrun as (t' & Hbody & ->). simpl.
    by destruct (Hfn _ _ _ Hbody Hfiled (flagsOnly_refl _)).
  - apply executeWrapped_Err in Hrun as [-> _]. apply flagsOnly_refl.
Qed.

(** X20. A status update touches flags only.  In a store whose credentials
    are filed under their local ids, whatever [UpdateCredentialStatus] and
    [BatchUpdateCredentialStatus] are asked and however they end, no
    credential record is added or removed, and every record keeps its local
    id, verification method, document and JWT. *)
Theorem status_updates_touch_flags_only (w : World) :
  filedByID (db w) →
  (∀ request, flagsOnly (db w) (db (snd (UpdateCredentialStatus (@Execute) request w))))
  ∧ (∀ requests,
       flagsOnly (db w) (db (snd (BatchUpdateCredentialStatus (@Execute) requests w)))).
Proof.
  intros Hfiled. split.
  - intros request. unfold UpdateCredentialStatus.
    destruct (statusListCredentialWatchKey _ _) as [[key|]|]; [|apply flagsOnly_refl..].
    apply executeWrapped_flagsOnly; [apply touchesFlagsOnly_updateCredentialStatusFunc|done].
  - intros requests. unfold BatchUpdateCredentialStatus.
    destruct (batchUpdatePrepare (db w) requests) as [[watchKeys updateFuncs]|] eqn:Hprepare;
      [|apply flagsOnly_refl].
    apply executeWrapped_flagsOnly; [|done]. apply touchesFlagsOnly_batchUpdateLoop.
    apply batchUpdatePrepare_Ok in Hprepare.
    induction Hprepare as [|r f rs fs [md ->] _ IH]; constructor; [|done].
    apply touchesFlagsOnly_updateCredentialStatusFunc.
Qed.

(** ** Repeating a status update *)

(** X21. A status update can be repeated: after a successful
    [UpdateCredentialStatus] on a record that is in order and whose updated
    form passes the validity check, the same request succeeds again with the
    same answer and changes nothing, neither the database nor the clock. *)
Theorem UpdateCredentialStatus_idempotent (request : UpdateCredentialStatusRequest)
    (w w' : World) (st : Status) (c : StoredCredential) :
  UpdateCredentialStatus (@Execute) request w = (Ok st, w') →
  credentials (db w) !! upd_ID request = Some c →
  inOrder (upd_ID request) c →
  storedIsValid (updatedRecord c request) = true →
  UpdateCredentialStatus (@Execute) request w' = (Ok st, w').
Proof.
  intros Hrun Hc (Hid & Hissuer & Hschema) Hvalid.
  pose proof Hrun as (c' & entry & slc & t' & Hc' & Hentry & Hpurpose & Hslc & Hbody & ->)
    %UpdateCredentialStatus_Ok.
  rewrite Hc in Hc'. injection Hc' as <-.
  apply updateCredentialStatusBusinessLogic_Ok in Hbody
    as (c' & Hc' & _ & Hboth & -> & Hcases).
  simpl in Hc'. rewrite Hc in Hc'. injection Hc' as <-.
  destruct Hcases
    as [(_ & _ & ->)
       | (_ & entry' & slcID & generated & slcJWT & _ & _ & _ & _ & Hcr & Hsl & _)].
  { simpl in *. by rewrite world_eta in *. }
  set (w' := {| db := pending t'; entropy := tick t' |}).
  assert (credentials (pending t') !! upd_ID request = Some (updatedRecord c request)) as Hc'.
  { by rewrite Hcr, Hid, lookup_insert_eq. }
  unfold UpdateCredentialStatus.
  rewrite (statusListCredentialWatchKey_Ok (db w') (upd_ID request) (updatedRecord c request)
             entry
             (buildStoredCredential
                {| c_ID := slcID;
                   c_FullyQualifiedVerificationMethodID :=
                     sc_FullyQualifiedVerificationMethodID c;
                   c_Credential :=
                     withCredentialSchema generated (vc_CredentialSchema (sc_Credential c));
                   c_CredentialJWT := slcJWT;
                   c_Revoked := false;
                   c_Suspended := false |})); try done.
  - unfold executeWrapped, updateCredentialStatusFunc.
    erewrite Execute_Ok; cycle 1.
    { unfold updateCredentialStatusBusinessLogic. rewrite Hboth.
      unfold mbind, Body_bind, readSnapshot, wrap, lift, storage_GetCredential. simpl.
      rewrite Hc', Hvalid. simpl.
      rewrite !bool_decide_true by done. reflexivity. }
    by simpl.
  - unfold GetStatusListCredentialKeyData. simpl. rewrite Hsl. simpl.
    rewrite <-Hissuer, <-Hschema. apply lookup_insert_eq.
Qed.

(** ** The local id in the URI of a credential *)

(** X22. The local id of an issued credential can be cut from its URI, as
    the router tests do: when the UUID drawn has the standard 36 bytes,
    [idFromURI] of the id of the returned document is the local id of the
    container, [parseIDFromURI] gives the same, and the credential is stored
    under that id. *)
Theorem CreateCredential_id_from_URI (request : CreateCredentialRequest) (w w' : World)
    (c : Container) :
  CreateCredential (@Execute) request w = (Ok c, w') →
  String.length (c_ID c) = 36 →
  idFromURI (vc_ID (c_Credential c)) = Ok (c_ID c)
  ∧ parseIDFromURI (vc_ID (c_Credential c)) = Ok (c_ID c)
  ∧ credentials (db w') !! c_ID c = Some (buildStoredCredential c).
Proof.
  intros (_ & t' & Hbody & ->)%CreateCredential_run Hlen.
  apply createCredential_inv in Hbody
    as (_ & _ & Hid & _ & _ & _ & _ & _ & _ & _ & _ & _ & s0 & Hpending & _).
  assert (parseIDFromURI (vc_ID (c_Credential c)) = Ok (c_ID c)) as Hparse.
  { apply parseIDFromURI_cut. split; [done|].
    exists (servicePath ++ "/"). by rewrite Hid, append_assoc. }
  split; [|split; [exact Hparse|]].
  - revert Hparse. unfold idFromURI, parseIDFromURI, uuidStandardFormLen.
    by case_bool_decide.
  - simpl. rewrite Hpending. simpl. apply lookup_insert_eq.
Qed.

End Properties.

(** * The service at work

    The operations run in the concrete service [Demo.env], from the empty
    store. *)

(** C1, at an input where the code departs from it.  Two suspendable
    credentials A and B of one triple are issued and both suspended; the
    status list then has the bits of both.  Un-suspending A succeeds, B is
    still stored as suspended with its index, yet the generator was given no
    credential: the status list stored for the triple has the bit of B
    cleared, and is stamped with the purpose [revocation]. *)
Theorem unsuspend_clears_the_bits_of_others :
  let w := Demo.twoSuspendedWorld in
  let A := Scenario.storedOf w Scenario.idA in
  let B := Scenario.storedOf w Scenario.idB in
  let indexA := sle_StatusListIndex (Scenario.entryOf A) in
  let indexB := sle_StatusListIndex (Scenario.entryOf B) in
  let w' := snd (Demo.Update Scenario.unsuspendA w) in
  GetStatusPurpose A = StatusSuspension
  ∧ GetStatusPurpose B = StatusSuspension
  ∧ sc_Issuer A = sc_Issuer B ∧ sc_Schema A = sc_Schema B
  ∧ indexA ≠ indexB
  ∧ sc_Suspended A = true ∧ sc_Suspended B = true
  ∧ elements (encodedBits (sc_Credential (Scenario.statusListOf w A))) = [indexA; indexB]
  ∧ fst (Demo.Update Scenario.unsuspendA w)
    = Ok {| st_ID := ""; st_Revoked := false; st_Suspended := false |}
  ∧ revokedOrSuspendedStatusCreds Scenario.unsuspendA A
      (GetCredentialsByIssuerAndSchema (db w) (sc_Issuer A) (sc_Schema A)) = []
  ∧ Scenario.storedOf w' Scenario.idB = B
  ∧ elements (encodedBits (sc_Credential (Scenario.statusListOf w' B))) = []
  ∧ vc_CredentialSubject (sc_Credential (Scenario.statusListOf w' B)) !! "statusPurpose"
    = Some (AStr StatusRevocation).
Proof. vm_compute. repeat split; try done. Qed.

Lemma GetCredentialStatusList_flags_false_witness :
  let w := Demo.suspendableWorld in
  let slc := Scenario.statusListOf w (Scenario.storedOf w Witnesses.firstID) in
  ∃ c, GetCredentialStatusList (H := Demo.env) (sc_LocalCredentialID slc) w = (Ok c, w)
       ∧ c_Revoked c = false ∧ c_Suspended c = false.
Proof.
  intros w slc.
  destruct (GetCredentialStatusList_flags_false (H := Demo.env) w
              (statusListKey Demo.issuerA "" StatusSuspension) slc)
    as (sc' & Hget & Hvalid & Hflags); [vm_compute; reflexivity|].
  vm_compute in Hget. injection Hget as <-.
  eexists. split; [apply Hvalid; vm_compute; reflexivity|]. by split.
Defined.

Lemma UpdateCredentialStatus_no_credentialStatus_witness :
  ∃ e, Demo.Update {| upd_ID := Witnesses.firstID; upd_Revoked := true; upd_Suspended := false |}
                   Demo.plainWorld
       = (Err e, Demo.plainWorld)
       ∧ Contains (Error_string e) "has no credentialStatus field".
Proof.
  destruct (UpdateCredentialStatus_no_credentialStatus (H := Demo.env) (@Execute)
              {| upd_ID := Witnesses.firstID; upd_Revoked := true; upd_Suspended := false |}
              Demo.plainWorld (Scenario.storedOf Demo.plainWorld Witnesses.firstID))
    as (e & Hrun & _ & Hcontains); [vm_compute; reflexivity..|].
  by exists e.
Defined.

Lemma CreateCredential_two_statuses_witness :
  Demo.Create Witnesses.twoStatuses Demo.emptyWorld
  = (Err (ErrWrap (ErrNew "credential may have at most one status") "execute"),
     Demo.emptyWorld).
Proof.
  exact (proj2 (proj2 (CreateCredential_two_statuses (H := Demo.env) Witnesses.twoStatuses
                         Demo.emptyWorld eq_refl eq_refl)) eq_refl).
Defined.

Lemma CreateCredential_unusable_key_witness :
  ∃ e w', Demo.Create Witnesses.revokedKey Demo.emptyWorld = (Err e, w')
          ∧ db w' = db Demo.emptyWorld
          ∧ ∀ e0, e = ErrWrap (ErrWrap e0 "signing credential") "execute" →
                  e0 = ErrNew "cannot use revoked key<did:key:R#key-1>".
Proof.
  destruct (CreateCredential_unusable_key (H := Demo.env) Witnesses.revokedKey Demo.emptyWorld)
    as (_ & e & w' & Hrun & Hdb & Hrevoked).
  { right. eexists. split; [vm_compute; reflexivity|]. by right. }
  exists e, w'. split; [done|]. split; [done|].
  eapply (Hrevoked {| k_ID := Demo.keyR; k_Controller := Demo.issuerR;
                      k_Revoked := true; k_Key := "secret-r" |}); reflexivity.
Defined.

Lemma CreateCredential_then_GetCredential_witness :
  let c := Scenario.containerOf zeroContainer (Demo.Create Witnesses.plain Demo.emptyWorld) in
  let w' := snd (Demo.Create Witnesses.plain Demo.emptyWorld) in
  ∃ got, GetCredential (H := Demo.env) (c_ID c) w' = (Ok got, w')
         ∧ c_Credential got = c_Credential c
         ∧ c_CredentialJWT got = c_CredentialJWT c
         ∧ c_Revoked got = false ∧ c_Suspended got = false.
Proof.
  intros c w'.
  destruct (CreateCredential_then_GetCredential (H := Demo.env) Witnesses.plain
              Demo.emptyWorld w' c)
    as (got & Hget & _ & Hcred & Hjwt & Hr & Hs); [vm_compute; reflexivity..|].
  by exists got.
Defined.

Lemma CreateCredential_subject_witness :
  (∃ w', Demo.Create Witnesses.otherSubject Demo.emptyWorld
         = (Err (ErrWrap (ErrNew
              "cannot set subject<did:test:1>, data already contains a different ID value: did:test:2")
              "execute"), w')
         ∧ db w' = db Demo.emptyWorld)
  ∧ vc_CredentialSubject
      (c_Credential (Scenario.containerOf zeroContainer
                       (Demo.Create Witnesses.plain Demo.emptyWorld)))
    = <["id" := AStr "did:test:1"]> (req_Data Witnesses.plain).
Proof.
  split.
  - destruct (CreateCredential_subject (H := Demo.env) Witnesses.otherSubject Demo.emptyWorld)
      as [Hconflict _].
    destruct (Hconflict (AStr "did:test:2")) as [_ Hmessage]; [reflexivity|discriminate|].
    apply Hmessage; reflexivity.
  - destruct (CreateCredential_subject (H := Demo.env) Witnesses.plain Demo.emptyWorld)
      as [_ Hsubject].
    apply (Hsubject _ (snd (Demo.Create Witnesses.plain Demo.emptyWorld))).
    vm_compute; reflexivity.
Defined.

(** C2, as stated, fails for a credential without status: its stored flags
    equal those of the request, and the operation returns an error instead of
    the current status. *)
Lemma UpdateCredentialStatus_same_flags_counterexample :
  let request := {| upd_ID := Witnesses.firstID; upd_Revoked := false; upd_Suspended := false |} in
  let c := Scenario.storedOf Demo.plainWorld Witnesses.firstID in
  credentials (db Demo.plainWorld) !! upd_ID request = Some c
  ∧ sc_Revoked c = upd_Revoked request
  ∧ sc_Suspended c = upd_Suspended request
  ∧ Demo.Update request Demo.plainWorld
    = (Err (ErrNew ("credential " ++ Demo.quote ++ Witnesses.firstID ++ Demo.quote
                    ++ " has no credentialStatus field")), Demo.plainWorld)
  ∧ fst (Demo.Update request Demo.plainWorld)
    ≠ Ok {| st_ID := ""; st_Revoked := sc_Revoked c; st_Suspended := sc_Suspended c |}.
Proof. vm_compute. repeat split; try done. Qed.

Lemma UpdateCredentialStatus_same_flags_witness :
  Demo.Update {| upd_ID := Witnesses.firstID; upd_Revoked := false; upd_Suspended := false |}
              Demo.suspendableWorld
  = (Ok {| st_ID := ""; st_Revoked := false; st_Suspended := false |}, Demo.suspendableWorld).
Proof.
  set (c := Scenario.storedOf Demo.suspendableWorld Witnesses.firstID).
  exact (UpdateCredentialStatus_same_flags (H := Demo.env)
           {| upd_ID := Witnesses.firstID; upd_Revoked := false; upd_Suspended := false |}
           Demo.suspendableWorld c (Scenario.entryOf c)
           (Scenario.statusListOf Demo.suspendableWorld c)
           eq_refl eq_refl eq_refl ltac:(discriminate) eq_refl eq_refl eq_refl eq_refl).
Defined.

Lemma UpdateCredentialStatus_other_purpose_witness :
  let request := {| upd_ID := Witnesses.firstID; upd_Revoked := false; upd_Suspended := true |} in
  ∃ credID entryPurpose e w',
    Demo.Update request Witnesses.revocableWorld = (Err e, w')
    ∧ entryPurpose ≠ StatusSuspension
    ∧ Cause e = differentPurposeError credID entryPurpose StatusSuspension
    ∧ credentials (db w') !! Witnesses.firstID
      = credentials (db Witnesses.revocableWorld) !! Witnesses.firstID.
Proof.
  intros request.
  set (c := Scenario.storedOf Witnesses.revocableWorld Witnesses.firstID).
  destruct (UpdateCredentialStatus_other_purpose (H := Demo.env) request
              Witnesses.revocableWorld c (Scenario.entryOf c)
              (Scenario.statusListOf Witnesses.revocableWorld c))
    as (credID & entryPurpose & e & w' & Hrun & Hne & Hcause & _ & Hdb & _).
  - vm_compute; reflexivity.
  - vm_compute; reflexivity.
  - vm_compute; reflexivity.
  - vm_compute; discriminate.
  - vm_compute; reflexivity.
  - vm_compute. repeat constructor.
  - discriminate.
  - vm_compute; discriminate.
  - vm_compute. intros [=].
  - exists credID, entryPurpose, e, w'. split; [done|]. split; [done|].
    split; [done|]. by rewrite Hdb.
Defined.

Lemma BatchCreateCredentials_all_or_nothing_witness :
  (let batch := [Witnesses.plain; Witnesses.revocable] in
   let containers := Scenario.containerOf [] (BatchCreateCredentials (H := Demo.env) (@Execute)
                                                batch Demo.emptyWorld) in
   length containers = 2)
  ∧ (let batch := [Witnesses.plain; Witnesses.twoStatuses] in
     let w' := snd (BatchCreateCredentials (H := Demo.env) (@Execute) batch Demo.emptyWorld) in
     db w' = db Demo.emptyWorld)
  ∧ (let batch := [Witnesses.plain; Witnesses.revocable; Witnesses.twoStatuses] in
     GetStatusListIndexPoolWatchKey Demo.issuerA "" StatusRevocation
     ∈ concat (map itemWatchKeys batch)).
Proof.
  split; [|split].
  - intros batch containers.
    destruct (BatchCreateCredentials_all_or_nothing (H := Demo.env) batch Demo.emptyWorld)
      as (_ & _ & _ & _ & _ & Hsuccess).
    destruct (Hsuccess containers
                (snd (BatchCreateCredentials (H := Demo.env) (@Execute) batch Demo.emptyWorld)))
      as [Hlength _]; [vm_compute; reflexivity|].
    exact Hlength.
  - intros batch w'.
    destruct (BatchCreateCredentials_all_or_nothing (H := Demo.env) batch Demo.emptyWorld)
      as (_ & _ & _ & _ & Hfailure & _).
    destruct (Hfailure (ErrWrap (ErrNew "credential may have at most one status") "execute") w')
      as [Hdb _]; [vm_compute; reflexivity|].
    exact Hdb.
  - intros batch.
    destruct (BatchCreateCredentials_all_or_nothing (H := Demo.env) batch Demo.emptyWorld)
      as (_ & Hkeys & _).
    apply Hkeys. exists Witnesses.revocable.
    split; [vm_compute; repeat constructor|]. split; [discriminate|].
    vm_compute. repeat constructor.
Defined.

(** C4, as stated, fails for a revoked key that another party controls: the
    controller is checked first, and the error is not the one of a revoked
    key. *)
Lemma CreateCredential_unusable_key_counterexample :
  let request := Witnesses.revokedKeyOfAnother in
  let keyStoreID :=
    @fullyQualifiedVerificationMethodID Demo.env (req_Issuer request)
      (req_FullyQualifiedVerificationMethodID request) in
  (k_Revoked <$> match @getKey Demo.env keyStoreID with
                 | Ok gotKey => Some gotKey
                 | Err _ => None
                 end) = Some true
  ∧ fst (Demo.Create request Demo.emptyWorld)
    = Err (ErrWrap (ErrWrap (ErrNew
        "key controller<did:key:R> does not match credential issuer<did:key:A> for key<did:key:R#key-1>")
        "signing credential") "execute")
  ∧ String.index 0 "cannot use revoked key"
      (match fst (Demo.Create request Demo.emptyWorld) with
       | Err e => Error_string e
       | Ok _ => ""
       end) = None.
Proof. vm_compute. done. Qed.

(** C5, as stated, fails for a request that asserts both flags.  On a
    credential issued as suspendable the flag [revoked] is of another purpose
    than the credential, and the error is the one for two flags. *)
Lemma UpdateCredentialStatus_other_purpose_counterexample :
  let request := {| upd_ID := Witnesses.firstID; upd_Revoked := true; upd_Suspended := true |} in
  let c := Scenario.storedOf Demo.suspendableWorld Witnesses.firstID in
  credentials (db Demo.suspendableWorld) !! upd_ID request = Some c
  ∧ GetStatusPurpose c = StatusSuspension
  ∧ upd_Revoked request = true
  ∧ Demo.Update request Demo.suspendableWorld
    = (Err (ErrWrap (ErrNew "cannot update both suspended and revoked status") "execute"),
       Demo.suspendableWorld)
  ∧ String.index 0 "different status purpose"
      (match fst (Demo.Update request Demo.suspendableWorld) with
       | Err e => Error_string e
       | Ok _ => ""
       end) = None.
Proof. vm_compute. done. Qed.

(** C9, as stated, fails for a request that also asks for both statuses: the
    data holds an [id] other than the subject, and the error is the one for
    two statuses. *)
Lemma CreateCredential_subject_counterexample :
  let request := Witnesses.twoStatusesOtherSubject in
  req_Data request !! VerifiableCredentialIDProperty = Some (AStr "did:test:2")
  ∧ req_Subject request = "did:test:1"
  ∧ Demo.Create request Demo.emptyWorld
    = (Err (ErrWrap (ErrNew "credential may have at most one status") "execute"),
       Demo.emptyWorld)
  ∧ String.index 0 "cannot set subject"
      (match fst (Demo.Create request Demo.emptyWorld) with
       | Err e => Error_string e
       | Ok _ => ""
       end) = None.
Proof. vm_compute. done. Qed.

(** The rejections exercised by the router tests, run end to end. *)
Example update_suspended_on_revocable :
  ∃ w', Demo.Update {| upd_ID := Witnesses.firstID; upd_Revoked := false; upd_Suspended := true |}
                    Witnesses.revocableWorld
        = (Err (ErrWrap (ErrWrap (ErrWrap (ErrWrap
             (ErrNew ("credential<https://ssi-service.com/v1/credentials/" ++ Witnesses.firstID
                      ++ "> has a different status purpose<revocation> value than the status credential<suspension>"))
             "could not generate status list credential")
             "could not generate status list") "updating credential") "execute"), w')
          ∧ db w' = db Witnesses.revocableWorld.
Proof. eexists. split; vm_compute; reflexivity. Qed.

Example create_with_revoked_key :
  fst (Demo.Create Witnesses.revokedKey Demo.emptyWorld)
  = Err (ErrWrap (ErrWrap (ErrNew "cannot use revoked key<did:key:R#key-1>")
                          "signing credential") "execute").
Proof. vm_compute; reflexivity. Qed.

(** * The further properties at work *)

Lemma parseIDFromURI_suffix_witness :
  parseIDFromURI (H := Demo.env)
    ("https://ssi-service.com/v1/credentials/status/" ++ Demo.uuid 7) = Ok (Demo.uuid 7).
Proof.
  apply (proj1 (parseIDFromURI_suffix (H := Demo.env)
                  ("https://ssi-service.com/v1/credentials/status/" ++ Demo.uuid 7))).
  split; [vm_compute; reflexivity|]. by eexists.
Defined.

Lemma CreateCredential_signed_witness :
  let c := Scenario.containerOf zeroContainer (Demo.Create Witnesses.plain Demo.emptyWorld) in
  ∃ gotKey keyAccess,
    @getKey Demo.env Demo.keyA = Ok gotKey
    ∧ k_Controller gotKey = Demo.issuerA
    ∧ k_Revoked gotKey = false
    ∧ @signVerifiableCredential Demo.env keyAccess (c_Credential c) = Ok (c_CredentialJWT c).
Proof.
  intros c.
  destruct (CreateCredential_signed (H := Demo.env) Witnesses.plain Demo.emptyWorld
              (snd (Demo.Create Witnesses.plain Demo.emptyWorld)) c)
    as (gotKey & keyAccess & Hget & Hc & Hr & _ & Hsign); [vm_compute; reflexivity|].
  by exists gotKey, keyAccess.
Defined.

Lemma CreateCredential_adds_one_record_witness :
  let r := Demo.Create Witnesses.plain Demo.emptyWorld in
  db (snd r) = putCredential (Scenario.containerOf zeroContainer r) (db Demo.emptyWorld)
  ∧ db (snd (Demo.Create Witnesses.revokedKey Demo.emptyWorld)) = db Demo.emptyWorld.
Proof.
  intros r. split.
  - destruct (CreateCredential_adds_one_record (H := Demo.env) Witnesses.plain Demo.emptyWorld)
      as [Hok _].
    destruct (Hok (Scenario.containerOf zeroContainer r) (snd r)) as (_ & _ & Hplain);
      [vm_compute; reflexivity|].
    apply Hplain. vm_compute; reflexivity.
  - destruct (CreateCredential_adds_one_record (H := Demo.env) Witnesses.revokedKey
                Demo.emptyWorld) as [_ Herr].
    apply (Herr (ErrWrap (ErrWrap (ErrNew "cannot use revoked key<did:key:R#key-1>")
                                  "signing credential") "execute")).
    vm_compute; reflexivity.
Defined.

Lemma CreateCredential_fields_witness :
  let c := Scenario.containerOf zeroContainer
             (Demo.Create Witnesses.suspendable Demo.emptyWorld) in
  vc_ID (c_Credential c) = "https://ssi-service.com/v1/credentials/" ++ c_ID c
  ∧ vc_Issuer (c_Credential c) = Demo.issuerA
  ∧ is_Some (vc_CredentialStatus (c_Credential c)).
Proof.
  intros c.
  destruct (CreateCredential_fields (H := Demo.env) Witnesses.suspendable Demo.emptyWorld
              (snd (Demo.Create Witnesses.suspendable Demo.emptyWorld)) c)
    as (Hid & Hissuer & _ & _ & _ & Hstatus); [vm_compute; reflexivity|].
  split; [exact Hid|]. split; [exact Hissuer|]. apply Hstatus. discriminate.
Defined.

Lemma CreateCredential_schema_witness :
  let c := Scenario.containerOf zeroContainer
             (Demo.Create Cases.withSchema Demo.emptyWorld) in
  ∃ schema schemaType,
    @schemaResolve Demo.env "schema-1" = Ok (schema, schemaType)
    ∧ vc_CredentialSchema (c_Credential c)
      = Some {| cs_ID := "schema-1"; cs_Type := schemaType |}
    ∧ @isCredentialValidForJSONSchema Demo.env (c_Credential c) schema = None.
Proof.
  intros c.
  destruct (CreateCredential_schema (H := Demo.env) Cases.withSchema Demo.emptyWorld
              (snd (Demo.Create Cases.withSchema Demo.emptyWorld)) c)
    as [_ Hschema]; [vm_compute; reflexivity|].
  apply Hschema. discriminate.
Defined.

Lemma CreateCredential_without_status_then_update_witness :
  Demo.Update {| upd_ID := Witnesses.firstID; upd_Revoked := true; upd_Suspended := false |}
              Demo.plainWorld
  = (Err (ErrNew ("credential " ++ Demo.quote ++ Witnesses.firstID ++ Demo.quote
                  ++ " has no credentialStatus field")), Demo.plainWorld).
Proof.
  exact (CreateCredential_without_status_then_update (H := Demo.env) (@Execute)
           Witnesses.plain Demo.emptyWorld Demo.plainWorld
           (Scenario.containerOf zeroContainer (Demo.Create Witnesses.plain Demo.emptyWorld))
           {| upd_ID := Witnesses.firstID; upd_Revoked := true; upd_Suspended := false |}
           eq_refl eq_refl eq_refl eq_refl).
Defined.

Lemma UpdateCredentialStatus_then_read_witness :
  let w' := snd (Demo.Update Cases.suspendFirst Demo.suspendableWorld) in
  GetCredentialStatus (H := Demo.env) Witnesses.firstID w'
  = (Ok {| st_ID := ""; st_Revoked := false; st_Suspended := true |}, w')
  ∧ c_CredentialJWT (Scenario.containerOf zeroContainer
                       (GetCredential (H := Demo.env) Witnesses.firstID w'))
    = sc_CredentialJWT (Scenario.storedOf Demo.suspendableWorld Witnesses.firstID).
Proof.
  intros w'.
  destruct (UpdateCredentialStatus_then_read (H := Demo.env) Cases.suspendFirst
              Demo.suspendableWorld w'
              {| st_ID := ""; st_Revoked := false; st_Suspended := true |}
              (Scenario.storedOf Demo.suspendableWorld Witnesses.firstID))
    as (_ & Hstatus & Hget); [vm_compute; reflexivity..|].
  split; [exact Hstatus|].
  change (upd_ID Cases.suspendFirst) with Witnesses.firstID in Hget.
  by rewrite Hget.
Defined.

Lemma UpdateCredentialStatus_frame_witness :
  let w := Cases.oneSuspendedWorld in
  let w' := snd (Demo.Update Cases.suspendB w) in
  credentials (db w') !! Scenario.idA = credentials (db w) !! Scenario.idA
  ∧ statusListIndexPool (db w') = statusListIndexPool (db w)
  ∧ statusListCurrentIndex (db w') = statusListCurrentIndex (db w).
Proof.
  intros w w'.
  destruct (UpdateCredentialStatus_frame (H := Demo.env) Cases.suspendB w w'
              {| st_ID := ""; st_Revoked := false; st_Suspended := true |}
              (Scenario.storedOf w Scenario.idB))
    as (Hothers & _ & Hpool & Hcursor); [vm_compute; reflexivity..|].
  split; [|by split]. apply Hothers. vm_compute. discriminate.
Defined.

Lemma UpdateCredentialStatus_both_flags_witness :
  Demo.Update {| upd_ID := Witnesses.firstID; upd_Revoked := true; upd_Suspended := true |}
              Demo.suspendableWorld
  = (Err (ErrWrap (ErrNew "cannot update both suspended and revoked status") "execute"),
     Demo.suspendableWorld).
Proof.
  destruct (UpdateCredentialStatus_both_flags (H := Demo.env)
              {| upd_ID := Witnesses.firstID; upd_Revoked := true; upd_Suspended := true |}
              Demo.suspendableWorld eq_refl eq_refl) as (_ & _ & Hrun).
  apply (Hrun (GetStatusListCredentialWatchKey Demo.issuerA "" StatusSuspension)).
  vm_compute; reflexivity.
Defined.

Lemma UpdateCredentialStatus_without_status_list_witness :
  Demo.Update Cases.suspendFirst Cases.orphanWorld
  = (Err (ErrPanic "invalid memory address or nil pointer dereference"), Cases.orphanWorld).
Proof.
  set (c := Scenario.storedOf Cases.orphanWorld Witnesses.firstID).
  destruct (UpdateCredentialStatus_without_status_list (H := Demo.env) (@Execute)
              Cases.suspendFirst Cases.orphanWorld c (Scenario.entryOf c))
    as [_ Hrun].
  - vm_compute; reflexivity.
  - vm_compute; reflexivity.
  - vm_compute; discriminate.
  - vm_compute; reflexivity.
  - exact Hrun.
Defined.

Lemma UpdateCredentialStatus_status_list_witness :
  let w := Cases.oneSuspendedWorld in
  let w' := snd (Demo.Update Cases.suspendB w) in
  let A := Scenario.storedOf w Scenario.idA in
  let B := Scenario.storedOf w Scenario.idB in
  ∃ slc,
    GetStatusListCredentialKeyData (db w') Demo.issuerA "" StatusSuspension = Some slc
    ∧ sle_StatusListIndex (Scenario.entryOf B) ∈ encodedBits (sc_Credential slc)
    ∧ sle_StatusListIndex (Scenario.entryOf A) ∈ encodedBits (sc_Credential slc).
Proof.
  intros w w' A B.
  destruct (UpdateCredentialStatus_status_list (H := Demo.env) Cases.suspendB w w'
              {| st_ID := ""; st_Revoked := false; st_Suspended := true |} B)
    as (slc & entry & Hentry & _ & Hslc & _ & _ & Hbits).
  - vm_compute; reflexivity.
  - vm_compute; reflexivity.
  - vm_compute. intros [=].
  - reflexivity.
  - exists slc. split; [exact Hslc|].
    assert (entry = Scenario.entryOf B) as -> by (vm_compute in Hentry; by injection Hentry).
    split; apply Hbits.
    + by left.
    + right. exists Scenario.idA, A, (Scenario.entryOf A).
      split; [vm_compute; reflexivity|]. split; [vm_compute; reflexivity|].
      split; [vm_compute; reflexivity|]. split; [vm_compute; discriminate|].
      split; [vm_compute; reflexivity|]. split; [vm_compute; reflexivity|reflexivity].
Defined.

Lemma BatchUpdateCredentialStatus_preamble_witness :
  BatchUpdateCredentialStatus (H := Demo.env) (@Execute)
    [Cases.suspendFirst; {| upd_ID := "unknown"; upd_Revoked := true; upd_Suspended := false |}]
    Demo.suspendableWorld
  = (Err (ErrWrap (ErrNew "credential not found with id: unknown") "reading credential"),
     Demo.suspendableWorld).
Proof.
  apply (BatchUpdateCredentialStatus_preamble (H := Demo.env) (@Execute)
           [Cases.suspendFirst] []
           {| upd_ID := "unknown"; upd_Revoked := true; upd_Suspended := false |}).
  - constructor; [|constructor]. eexists. vm_compute; reflexivity.
  - vm_compute; reflexivity.
Defined.

Lemma BatchUpdateCredentialStatus_statuses_witness :
  let both := {| upd_ID := Witnesses.firstID; upd_Revoked := true; upd_Suspended := true |} in
  fst (BatchUpdateCredentialStatus (H := Demo.env) (@Execute) [Cases.suspendFirst]
         Demo.suspendableWorld)
  = Ok [{| st_ID := Witnesses.firstID; st_Revoked := false; st_Suspended := true |}]
  ∧ db (snd (BatchUpdateCredentialStatus (H := Demo.env) (@Execute)
               [Cases.suspendFirst; both] Demo.suspendableWorld))
    = db Demo.suspendableWorld.
Proof.
  intros both. split.
  - destruct (BatchUpdateCredentialStatus_statuses (H := Demo.env) [Cases.suspendFirst]
                Demo.suspendableWorld) as [Hok _].
    destruct (BatchUpdateCredentialStatus (H := Demo.env) (@Execute) [Cases.suspendFirst]
                Demo.suspendableWorld) as [[statuses|e] w'] eqn:Hrun.
    + by rewrite (Hok statuses w' eq_refl).
    + vm_compute in Hrun. discriminate Hrun.
  - destruct (BatchUpdateCredentialStatus_statuses (H := Demo.env)
                [Cases.suspendFirst; both] Demo.suspendableWorld) as [_ Herr].
    apply (Herr (ErrWrap (ErrNew "cannot update both suspended and revoked status")
                         "execute")).
    vm_compute; reflexivity.
Defined.

Lemma BatchCreateCredentials_single_witness :
  BatchCreateCredentials (H := Demo.env) (@Execute) [Witnesses.plain] Demo.emptyWorld
  = match Demo.Create Witnesses.plain Demo.emptyWorld with
    | (Ok c, w') => (Ok [c], w')
    | (Err e, w') => (Err e, w')
    end.
Proof.
  destruct (BatchCreateCredentials_single (H := Demo.env) Witnesses.plain Demo.emptyWorld)
    as [Hbatch Hsingle].
  unfold Demo.Create. rewrite (Hsingle eq_refl). exact Hbatch.
Defined.

Lemma VerifyCredential_outcome_witness :
  VerifyCredential (H := Cases.verifier)
    {| vr_DataIntegrityCredential := Some {| pc_Credential := zeroCredential; pc_Proof := None |};
       vr_CredentialJWT := Some "jwt.did:key:A#key-1.id" |}
  = Ok {| vresp_Verified := true; vresp_Reason := "" |}
  ∧ VerifyCredential (H := Cases.verifier)
      {| vr_DataIntegrityCredential :=
           Some {| pc_Credential := zeroCredential; pc_Proof := None |};
         vr_CredentialJWT := None |}
    = Ok {| vresp_Verified := false; vresp_Reason := "credential must have a proof" |}.
Proof.
  split.
  - destruct (VerifyCredential_outcome (V := Cases.verifier)
                {| vr_DataIntegrityCredential :=
                     Some {| pc_Credential := zeroCredential; pc_Proof := None |};
                   vr_CredentialJWT := Some "jwt.did:key:A#key-1.id" |}) as (_ & Hjwt & _).
    apply (Hjwt "jwt.did:key:A#key-1.id" eq_refl). by intros ? [= <-].
  - destruct (VerifyCredential_outcome (V := Cases.verifier)
                {| vr_DataIntegrityCredential :=
                     Some {| pc_Credential := zeroCredential; pc_Proof := None |};
                   vr_CredentialJWT := None |}) as (_ & _ & Hcredential).
    exact (Hcredential _ eq_refl eq_refl).
Defined.

Lemma CreateSchema_incomplete_signing_request_witness :
  CreateSchema (H := Demo.env) (list string) Cases.schemaService_Create Cases.acceptAll
    (Ok Cases.signedWithoutKey) []
  = (LoggingRespondErrMsg "cannot sign schema without an issuer DID and KID" StatusBadRequest,
     []).
Proof.
  destruct (CreateSchema_incomplete_signing_request (H := Demo.env) (list string)
              Cases.schemaService_Create Cases.acceptAll Cases.signedWithoutKey
              {| csr_Issuer := Demo.issuerA; csr_VerificationMethodID := "" |} [])
    as (reply & Hrun & _ & Hmessage); [reflexivity|by right|].
  by rewrite Hrun, (Hmessage eq_refl).
Defined.

Lemma CreateSchema_created_witness :
  CreateSchema (H := Demo.env) (list string) Cases.schemaService_Create Cases.acceptAll
    (Ok Cases.unsignedSchema) []
  = (Respond (Some {| sr_ID := "email"; sr_Type := "JsonSchema";
                      sr_Schema := Some (AObject []); sr_CredentialSchema := None |})
             StatusCreated, ["email"]).
Proof.
  destruct (CreateSchema_created (H := Demo.env) (list string) Cases.schemaService_Create
              Cases.acceptAll (Ok Cases.unsignedSchema) []) as (Hcreated & _).
  apply (Hcreated Cases.unsignedSchema
           {| ssr_ID := "email"; ssr_Type := "JsonSchema";
              ssr_Schema := Some (AObject []); ssr_CredentialSchema := None |}).
  - split; [reflexivity|]. split; [reflexivity|]. exact I.
  - vm_compute; reflexivity.
Defined.

Lemma GetSchema_DeleteSchema_status_witness :
  GetSchema (list string) Cases.schemaService_Get (Some "email") ["email"]
  = (Respond (Some {| sr_ID := "email"; sr_Type := "JsonSchema";
                      sr_Schema := None; sr_CredentialSchema := None |}) StatusOK, ["email"])
  ∧ DeleteSchema (list string) Cases.schemaService_Delete (Some "email") ["email"]
    = (Respond None StatusNoContent, [])
  ∧ statusCode (fst (DeleteSchema (list string) Cases.schemaService_Delete (Some "name") []))
    = StatusInternalServerError.
Proof.
  destruct (GetSchema_DeleteSchema_status (list string) Cases.schemaService_Get
              Cases.schemaService_Delete ["email"]) as (Hget & Hdelete & _).
  split; [|split].
  - rewrite Hget. vm_compute; reflexivity.
  - rewrite Hdelete. vm_compute; reflexivity.
  - destruct (GetSchema_DeleteSchema_status (list string) Cases.schemaService_Get
                Cases.schemaService_Delete []) as (_ & _ & _ & _ & _ & Hcodes).
    apply (Hcodes (Some "name")). exists "name", (ErrNew "schema not found"), [].
    split; [reflexivity|vm_compute; reflexivity].
Defined.

Lemma status_updates_touch_flags_only_witness :
  let w := Cases.oneSuspendedWorld in
  let w' := snd (BatchUpdateCredentialStatus (H := Demo.env) (@Execute)
                   [Cases.suspendB; Scenario.unsuspendA] w) in
  sc_Suspended (Scenario.storedOf w' Scenario.idB) = true
  ∧ option_Forall2 sameCredential (credentials (db w) !! Scenario.idB)
                                  (credentials (db w') !! Scenario.idB)
  ∧ credentials (db w') !! "unknown" = None.
Proof.
  intros w w'.
  destruct (status_updates_touch_flags_only (H := Demo.env) w) as [_ Hbatch].
  { apply (bool_decide_unpack _). vm_compute. exact I. }
  split; [vm_compute; reflexivity|]. split; [apply Hbatch|].
  apply (flagsOnly_absent (db w)); [apply Hbatch|vm_compute; reflexivity].
Defined.

Lemma UpdateCredentialStatus_idempotent_witness :
  let w' := snd (Demo.Update Cases.suspendFirst Demo.suspendableWorld) in
  Demo.Update Cases.suspendFirst w'
  = (Ok {| st_ID := ""; st_Revoked := false; st_Suspended := true |}, w').
Proof.
  intros w'.
  apply (UpdateCredentialStatus_idempotent (H := Demo.env) Cases.suspendFirst
           Demo.suspendableWorld w' _
           (Scenario.storedOf Demo.suspendableWorld Witnesses.firstID)).
  - vm_compute; reflexivity.
  - vm_compute; reflexivity.
  - vm_compute. by repeat split.
  - vm_compute; reflexivity.
Defined.

Lemma CreateCredential_id_from_URI_witness :
  let r := Demo.Create Witnesses.plain Demo.emptyWorld in
  let c := Scenario.containerOf zeroContainer r in
  idFromURI (vc_ID (c_Credential c)) = Ok Witnesses.firstID
  ∧ credentials (db (snd r)) !! Witnesses.firstID = Some (buildStoredCredential c).
Proof.
  intros r c.
  destruct (CreateCredential_id_from_URI (H := Demo.env) Witnesses.plain Demo.emptyWorld
              (snd r) c) as (Hid & _ & Hstored); [vm_compute; reflexivity..|].
  split; [exact Hid|exact Hstored].
Defined.
